(** * WhatsApp newsletter sender: the contact source, the selector
    resolver, the session connector and the send orchestrator

    A shallow embedding of [execution/google_sheets.py],
    [execution/whatsapp_sender.py] and [execution/send_messages.py],
    followed by the properties the specification states about them.

    What lies outside the program is given to it: the Unicode tables of
    the Python runtime, the page the browser shows, the machine the
    browser runs on, and, for a run of the orchestrator, the environment
    variables, the sheet, the delivery driver, the log file and the
    dashboard.  Calls to these return or raise as the source says they do.
    Numbers of type [float] are the rationals a binary64 holds, and their
    sums and products are rounded as the machine rounds them. *)

From Stdlib Require Import List ZArith NArith Arith Bool Lia String Ascii Sorted.
From Stdlib Require Import QArith Qround Qabs.
From Stdlib Require Qcanon.
From Stdlib Require Import DecimalString.
Import ListNotations.

(** * The model *)

(** ** Python strings *)

(** A Python [str] is a sequence of Unicode code points. *)
Definition char := N.
Definition pystr := list char.

(** A literal of the source, written as a string of ASCII characters. *)
Definition py (s : string) : pystr := map N_of_ascii (list_ascii_of_string s).

(** [str.isspace] and [str.isdigit] are decided by the Unicode tables of the
    Python runtime.  The ASCII part of those tables is fixed; the rest
    belongs to the runtime and is taken as it comes. *)
Class UnicodeDB := {
  uni_isspace : char -> bool;
  uni_isdigit : char -> bool
}.

(** The tables of a runtime that knows no whitespace and no digit beyond
    ASCII; used to run the functions on ASCII inputs. *)
Definition ascii_db : UnicodeDB :=
  {| uni_isspace := fun _ => false; uni_isdigit := fun _ => false |}.

(** Whitespace in ASCII: tab to carriage return, the four separators and
    the space.  Digits in ASCII: 0 to 9. *)
Definition ascii_isspace (c : char) : bool :=
  ((9 <=? c) && (c <=? 13) || (28 <=? c) && (c <=? 32))%N.

Definition ascii_isdigit (c : char) : bool :=
  ((48 <=? c) && (c <=? 57))%N.

Definition comma : char := 44%N.

Module PyStr.
Section Str.
Context {db : UnicodeDB}.

Definition isspace (c : char) : bool :=
  if (c <? 128)%N then ascii_isspace c else uni_isspace c.

Definition isdigit (c : char) : bool :=
  if (c <? 128)%N then ascii_isdigit c else uni_isdigit c.

(** Truth value of a string: [not s] holds of the empty string only. *)
Definition truthy (s : pystr) : bool :=
  match s with [] => false | _ :: _ => true end.

Fixpoint lstrip (s : pystr) : pystr :=
  match s with
  | [] => []
  | c :: r => if isspace c then lstrip r else s
  end.

Definition rstrip (s : pystr) : pystr := rev (lstrip (rev s)).

(** [s.strip()] *)
Definition strip (s : pystr) : pystr := rstrip (lstrip s).

(** ["," in s] *)
Definition contains (c : char) (s : pystr) : bool := existsb (N.eqb c) s.

(** [s.partition(sep)] for a one-character separator: the text before the
    first separator and, when there is one, the text after it. *)
Fixpoint partition (sep : char) (s : pystr) : pystr * option pystr :=
  match s with
  | [] => ([], None)
  | c :: r =>
      if (c =? sep)%N then ([], Some r)
      else let (h, t) := partition sep r in (c :: h, t)
  end.

(** [s.split(sep, 1)] *)
Definition split1 (sep : char) (s : pystr) : list pystr :=
  match partition sep s with
  | (h, None) => [h]
  | (h, Some t) => [h; t]
  end.

(** ["".join(c for c in s if c.isdigit())] *)
Definition digits_of (s : pystr) : pystr := filter isdigit s.

Definition blank (s : pystr) : bool := forallb isspace s.

End Str.
End PyStr.

(** ** The contact source: [execution/google_sheets.py] *)

Module GoogleSheets.
Import PyStr.

(** [Contact]: one pending row of the sheet. *)
Record Contact := {
  row_number : Z;
  sort_name : pystr;
  first_name : pystr;
  phone_raw : pystr;
  phone_clean : pystr
}.

(** The values of the range [A:D]: one list of cells per sheet row, short
    when the trailing cells of the row are empty. *)
Definition sheet_values := list (list pystr).

(** What [write_status] sends to the sheet: the cell [A<row>] and the raw
    value stored there. *)
Record status_update := {
  upd_row : Z;
  upd_value : Z
}.

Definition write_status (row : Z) (success : bool) : status_update :=
  {| upd_row := row; upd_value := if success then 1%Z else 0%Z |}.

(** *** The sheet named by an address *)

(** The characters of the class [[a-zA-Z0-9_-]]. *)
Definition sheet_id_char (c : char) : bool :=
  ((97 <=? c) && (c <=? 122) || (65 <=? c) && (c <=? 90)
   || (48 <=? c) && (c <=? 57) || (c =? 95) || (c =? 45))%N.

(** [s] without the prefix [p], when it starts with it. *)
Fixpoint strip_prefix (p s : pystr) : option pystr :=
  match p, s with
  | [], _ => Some s
  | a :: p', b :: s' => if (a =? b)%N then strip_prefix p' s' else None
  | _ :: _, [] => None
  end.

(** The longest prefix of [s] made of characters that satisfy [f]. *)
Fixpoint take_while (f : char -> bool) (s : pystr) : pystr :=
  match s with
  | [] => []
  | c :: r => if f c then c :: take_while f r else []
  end.

Definition spreadsheets_d : pystr := py "/spreadsheets/d/".

(** A match of the pattern [/spreadsheets/d/([a-zA-Z0-9_-]+)] at the start
    of [s]: the literal, then the group, which is greedy and takes every
    character of the class that follows.  The value is the group. *)
Definition match_here (s : pystr) : option pystr :=
  match strip_prefix spreadsheets_d s with
  | Some rest =>
      match take_while sheet_id_char rest with
      | [] => None
      | id => Some id
      end
  | None => None
  end.

(** [re.search(pattern, s)]: the match at the first position that has
    one. *)
Fixpoint re_search (s : pystr) : option pystr :=
  match match_here s with
  | Some id => Some id
  | None => match s with [] => None | _ :: r => re_search r end
  end.

(** [match.group(1) if match else None] *)
Definition extract_sheet_id (url : pystr) : option pystr := re_search url.

(** The text [rest] cannot go on a sheet id: it is empty or starts with a
    character outside the class. *)
Definition ends_id (rest : pystr) : Prop :=
  match rest with [] => True | c :: _ => sheet_id_char c = false end.

Section Sheets.
Context {db : UnicodeDB}.

Definition there : pystr := py "there".

Definition extract_first_name (sort_name : pystr) : pystr :=
  if negb (truthy sort_name) || negb (truthy (strip sort_name)) then there
  else if contains comma sort_name then
    let parts := split1 comma sort_name in
    let first := strip (nth 1 parts []) in
    if truthy first then first else there
  else strip sort_name.

Definition normalize_phone (phone_raw : pystr) : pystr :=
  if negb (truthy phone_raw) then [] else digits_of phone_raw.

(** [while len(row) < 4: row.append("")] *)
Definition pad4 (row : list pystr) : list pystr :=
  row ++ repeat [] (4 - List.length row).

(** The body of the [for] loop of [get_pending_contacts]; [contacts] is the
    list built so far, [idx] the sheet row of the head of [rows]. *)
Fixpoint pending_loop (limit idx : Z) (rows : sheet_values)
  (contacts : list Contact) : list Contact :=
  match rows with
  | [] => contacts
  | row :: rest =>
      if (Z.of_nat (List.length contacts) >=? limit)%Z then contacts
      else
        let row := pad4 row in
        let status := strip (nth 0 row []) in
        if truthy status then pending_loop limit (idx + 1) rest contacts
        else
          let sort_name := strip (nth 2 row []) in
          let phone_raw := strip (nth 3 row []) in
          if negb (truthy phone_raw) then pending_loop limit (idx + 1) rest contacts
          else
            let first_name := extract_first_name sort_name in
            let phone_clean := normalize_phone phone_raw in
            if negb (truthy phone_clean) then pending_loop limit (idx + 1) rest contacts
            else
              pending_loop limit (idx + 1) rest
                (contacts ++ [{| row_number := idx;
                                 sort_name := sort_name;
                                 first_name := first_name;
                                 phone_raw := phone_raw;
                                 phone_clean := phone_clean |}])
  end.

(** [all_rows[1:]] skips the header; data rows start at sheet row 2. *)
Definition get_pending_contacts (limit : Z) (all_rows : sheet_values) : list Contact :=
  pending_loop limit 2 (tl all_rows) [].

(** *** The reading the specification gives of the contact source *)

(** A data row is pending when its status cell is empty; it is excluded
    when it has no phone or its phone has no digit. *)
Definition cell (k : nat) (row : list pystr) : pystr := strip (nth k row []).

Definition status_empty (row : list pystr) : bool := negb (truthy (cell 0 row)).

Definition survives_exclusion (row : list pystr) : bool :=
  truthy (cell 3 row) && truthy (normalize_phone (cell 3 row)).

Definition contact_of_row (idx : Z) (row : list pystr) : Contact :=
  {| row_number := idx;
     sort_name := cell 2 row;
     first_name := extract_first_name (cell 2 row);
     phone_raw := cell 3 row;
     phone_clean := normalize_phone (cell 3 row) |}.

(** The pending contacts of the data rows [rows], the first of which is
    sheet row [idx], in row order. *)
Fixpoint pending_from (idx : Z) (rows : sheet_values) : list Contact :=
  match rows with
  | [] => []
  | row :: rest =>
      if status_empty row && survives_exclusion row
      then contact_of_row idx row :: pending_from (idx + 1) rest
      else pending_from (idx + 1) rest
  end.

Definition all_pending (all_rows : sheet_values) : list Contact :=
  pending_from 2 (tl all_rows).

(** *** The sheet after status cells have been written *)

(** The rows with [v] in the first cell of row [k] (counted from 0). *)
Fixpoint mark_row (k : nat) (v : pystr) (rows : sheet_values) {struct rows}
  : sheet_values :=
  match rows with
  | [] => []
  | row :: rest =>
      match k with
      | O => (v :: tl row) :: rest
      | S k' => row :: mark_row k' v rest
      end
  end.

(** The values the sheet gives once the status cell [A<r>] holds the text
    [v], for a row among those the sheet gives.  A cell below them belongs
    to no contact that was fetched; the values are then left as they
    are. *)
Definition with_status (r : Z) (v : pystr) (all_rows : sheet_values) : sheet_values :=
  if (1 <=? r)%Z then mark_row (Z.to_nat (r - 1)) v all_rows else all_rows.

(** A contact of another row than [r]. *)
Definition other_row (r : Z) (c : Contact) : bool := negb (row_number c =? r)%Z.

End Sheets.
End GoogleSheets.

(** ** Exceptions *)

(** The exception classes the program raises or catches.  [Other] stands
    for any further subclass of [Exception]. *)
Inductive exn_class :=
| WhatsAppSendError
| ContactNotFoundError
| SendTimeoutError
| TimeoutException
| RuntimeError
| KeyError
| TypeError
| AttributeError
| Other (name : string).

(** An exception value: its class and what [str(e)] gives. *)
Record exn := {
  exn_class_of : exn_class;
  exn_str : string
}.

(** The result of a call: it returns a value or raises. *)
Inductive result (A : Type) :=
| Return (a : A)
| Raise (e : exn).
Arguments Return {A} a.
Arguments Raise {A} e.

(** [isinstance(e, WhatsAppSendError)]: the class itself or one of its two
    subclasses. *)
Definition is_WhatsAppSendError (e : exn) : bool :=
  match exn_class_of e with
  | WhatsAppSendError | ContactNotFoundError | SendTimeoutError => true
  | _ => false
  end.

Definition is_ContactNotFoundError (e : exn) : bool :=
  match exn_class_of e with ContactNotFoundError => true | _ => false end.

Definition is_TimeoutException (e : exn) : bool :=
  match exn_class_of e with TimeoutException => true | _ => false end.

(** [f"{e}"] for an optional exception: [None] prints as "None". *)
Definition str_of (e : option exn) : string :=
  match e with
  | None => "None"
  | Some e => exn_str e
  end.

Definition str_of_int (z : Z) : string := NilZero.string_of_int (Z.to_int z).

(** A line feed. *)
Definition nl : string := String "010"%char EmptyString.

(** [repr(s)] of a [str], which is what [str(KeyError(s))] gives: the text
    between single quotes, or between double quotes when it holds a single
    quote and no double quote; the backslash and the quote are escaped,
    tab, line feed and carriage return are written [\t], [\n] and [\r],
    and any other character that is not printable is written [\xhh].  The
    characters of a [string] are the code points below 256. *)
Definition hex_digit (n : nat) : ascii :=
  nth n [ "0"; "1"; "2"; "3"; "4"; "5"; "6"; "7"; "8"; "9";
          "a"; "b"; "c"; "d"; "e"; "f" ]%char "f"%char.

Definition isprintable (c : ascii) : bool :=
  let n := nat_of_ascii c in
  negb ((n <? 32)%nat || ((127 <=? n)%nat && (n <=? 160)%nat) || (n =? 173)%nat).

Definition repr_char (quote c : ascii) : string :=
  if (Ascii.eqb c quote || Ascii.eqb c "\")%char then String "\" (String c EmptyString)
  else if Ascii.eqb c "009" then "\t"
  else if Ascii.eqb c "010" then "\n"
  else if Ascii.eqb c "013" then "\r"
  else if isprintable c then String c EmptyString
  else ("\x" ++ String (hex_digit (nat_of_ascii c / 16))
                  (String (hex_digit (nat_of_ascii c mod 16)) EmptyString))%string.

Fixpoint has_char (c : ascii) (s : string) : bool :=
  match s with
  | EmptyString => false
  | String c' rest => Ascii.eqb c c' || has_char c rest
  end.

Fixpoint repr_chars (quote : ascii) (s : string) : string :=
  match s with
  | EmptyString => EmptyString
  | String c rest => (repr_char quote c ++ repr_chars quote rest)%string
  end.

Definition py_repr (s : string) : string :=
  let quote :=
    if has_char "'" s && negb (has_char "034" s) then "034"%char else "'"%char in
  String quote (repr_chars quote s ++ String quote EmptyString).

(** ** Floating-point numbers *)

(** A [float] is a binary64 number: a rational [m * 2^k] with [|m|] below
    [2^53] and [k] at least -1074.  The result of an operation is the
    nearest such number, the one with an even [m] of two that are as
    near. *)

(** [2^k] for an integer [k]. *)
Definition pow2 (k : Z) : Q :=
  if (0 <=? k)%Z then inject_Z (2 ^ k) else 1 # Z.to_pos (2 ^ (- k)).

(** The exponent of a number that is not 0: the [e] with
    [2^e <= |x| < 2^(e+1)]. *)
Definition exponent_of (x : Q) : Z :=
  let e := (Z.log2 (Z.abs (Qnum x)) - Z.log2 (Zpos (Qden x)))%Z in
  if Qle_bool (pow2 e) (Qabs x) then e else (e - 1)%Z.

(** The nearest integer, the even one of two that are as near. *)
Definition round_half_even (x : Q) : Z :=
  let f := Qfloor x in
  match ((x - inject_Z f) ?= (1 # 2))%Q with
  | Lt => f
  | Gt => (f + 1)%Z
  | Eq => if Z.even f then f else (f + 1)%Z
  end.

(** The float nearest to [x], were the exponent of a float not bounded
    above. *)
Definition fround (x : Q) : Q :=
  if Qeq_bool x 0 then 0
  else
    let k := Z.max (exponent_of x - 52) (-1074) in
    Qred (inject_Z (round_half_even (x / pow2 k)) * pow2 k).

Definition overflow_error : exn :=
  {| exn_class_of := Other "OverflowError";
     exn_str := "int too large to convert to float" |}.

(** [float(n)] for an [int]: the nearest float, or [OverflowError] when
    that is beyond the largest float. *)
Definition float_of_int (n : Z) : result Q :=
  let x := fround (inject_Z n) in
  if Qle_bool (pow2 1024) (Qabs x) then Raise overflow_error else Return x.

(** [x + y] and [x * y] on floats.  A result beyond the largest float,
    which is infinite in Python, does not arise from the numbers of the
    program: a delay that is a float, and a jitter between -5 and 10. *)
Definition float_add (x y : Q) : Q := fround (x + y).

Definition float_mul (x y : Q) : Q := fround (x * y).

(** ** The browser side: [execution/whatsapp_sender.py] *)

Module WhatsAppSender.
Local Open Scope string_scope.

(** *** The selector registry *)

Inductive By := CSS_SELECTOR | XPATH.

Definition locator : Type := By * string.

(** A double quote, and a text between double quotes. *)
Definition dq : string := String "034"%char EmptyString.
Definition q (s : string) : string := dq ++ s ++ dq.

Definition SELECTORS : list (string * list locator) :=
  [ ("message_input",
      [ (CSS_SELECTOR, "div[contenteditable=" ++ q "true" ++ "][data-tab=" ++ q "10" ++ "]");
        (CSS_SELECTOR, "div[contenteditable=" ++ q "true" ++ "][title=" ++ q "Type a message" ++ "]");
        (CSS_SELECTOR, "footer div[contenteditable=" ++ q "true" ++ "]") ]);
    ("attach_button",
      [ (CSS_SELECTOR, "span[data-icon=" ++ q "plus-rounded" ++ "]");
        (CSS_SELECTOR, "div[title=" ++ q "Attach" ++ "]");
        (CSS_SELECTOR, "span[data-icon=" ++ q "plus" ++ "]");
        (CSS_SELECTOR, "span[data-icon=" ++ q "attach-menu-plus" ++ "]");
        (CSS_SELECTOR, "div[aria-label=" ++ q "Attach" ++ "]") ]);
    ("image_input",
      [ (CSS_SELECTOR, "input[accept=" ++ q "image/*,video/mp4,video/3gpp,video/quicktime" ++ "]");
        (CSS_SELECTOR, "input[accept*=" ++ q "image/*" ++ "]");
        (XPATH, "//input[@type=" ++ q "file" ++ " and contains(@accept, " ++ q "image" ++ ")]") ]);
    ("caption_input",
      [ (CSS_SELECTOR, "div[contenteditable=" ++ q "true" ++ "][data-tab=" ++ q "undefined" ++ "]");
        (XPATH, "//div[@contenteditable=" ++ q "true" ++ " and @data-tab=" ++ q "undefined"
                  ++ " and @role=" ++ q "textbox" ++ "]");
        (XPATH, "//div[@contenteditable=" ++ q "true" ++ " and contains(@aria-placeholder, "
                  ++ q "caption" ++ ")]");
        (XPATH, "//div[@contenteditable=" ++ q "true" ++ " and contains(@aria-placeholder, "
                  ++ q "Add a" ++ ")]") ]);
    ("send_button",
      [ (CSS_SELECTOR, "span[data-icon=" ++ q "wds-ic-send-filled" ++ "]");
        (CSS_SELECTOR, "div[aria-label=" ++ q "Send" ++ "]");
        (CSS_SELECTOR, "span[data-icon=" ++ q "send" ++ "]");
        (CSS_SELECTOR, "div[role=" ++ q "button" ++ "][aria-label=" ++ q "Send" ++ "]") ]);
    ("invalid_phone_popup",
      [ (XPATH, "//*[contains(text(), " ++ q "Phone number shared via url is invalid" ++ ")]");
        (XPATH, "//*[contains(text(), " ++ q "phone number shared via url is invalid" ++ ")]") ]);
    ("popup_ok_button",
      [ (XPATH, "//div[@role=" ++ q "button" ++ " and .//div[text()=" ++ q "OK" ++ "]]");
        (XPATH, "//div[contains(@class, " ++ q "popup" ++ ")]//div[@role=" ++ q "button" ++ "]") ]);
    ("continue_to_chat",
      [ (XPATH, "//div[@role=" ++ q "button" ++ " and .//div[text()=" ++ q "Continue to Chat" ++ "]]");
        (XPATH, "//*[contains(text(), " ++ q "Continue to Chat" ++ ")]") ]);
    ("photos_and_videos",
      [ (CSS_SELECTOR, "div[aria-label=" ++ q "Photos & videos" ++ "]");
        (XPATH, "//div[@role=" ++ q "listitem" ++ " and .//span[text()=" ++ q "Photos & videos" ++ "]]");
        (XPATH, "//*[contains(text(), " ++ q "Photos & videos" ++ ")]") ]) ].

Local Close Scope string_scope.

(** [SELECTORS[key]]: the locators registered for [key], if any. *)
Fixpoint lookup (key : string) (d : list (string * list locator)) : option (list locator) :=
  match d with
  | [] => None
  | (k, v) :: rest => if String.eqb key k then Some v else lookup key rest
  end.

(** *** The selector resolver *)

(** The two resolution predicates of [expected_conditions]. *)
Inductive condition := presence_of_element_located | element_to_be_clickable.

(** A driver: the page as it sees it, the elements it hands out, and
    [WebDriverWait(driver, timeout).until(cond(locator))].  The wait returns
    an element, or raises; it raises [TimeoutException] when the bound has
    elapsed.  The page may have changed while it waited. *)
Class WebDriver := {
  Browser : Type;
  element : Type;
  wait_until : condition -> locator -> Z -> Browser -> Browser * result element
}.

Section Resolver.
Context {driver : WebDriver}.

(** [str(e)] for an exception of selenium that was built from a message
    alone. *)
Definition selenium_str (msg : string) : string := ("Message: " ++ msg ++ nl)%string.

(** The [for by, value in selectors] loop shared by the two resolvers;
    [message] builds the message of the final error from the last one. *)
Fixpoint try_selectors (cond : condition) (message : option exn -> string)
  (selectors : list locator) (timeout : Z) (last_exception : option exn)
  (b : Browser) : Browser * result element :=
  match selectors with
  | [] =>
      (b, Raise {| exn_class_of := TimeoutException;
                   exn_str := selenium_str (message last_exception) |})
  | loc :: rest =>
      match wait_until cond loc timeout b with
      | (b', Return el) => (b', Return el)
      | (b', Raise e) =>
          if is_TimeoutException e
          then try_selectors cond message rest timeout (Some e) b'
          else (b', Raise e)
      end
  end.

Definition not_found_message (selector_key : string) (last : option exn) : string :=
  ("Could not find element '" ++ selector_key ++ "' with any selector. "
   ++ "Last error: " ++ str_of last)%string.

Definition not_clickable_message (selector_key : string) (last : option exn) : string :=
  ("Could not find clickable element '" ++ selector_key ++ "'. "
   ++ "Last error: " ++ str_of last)%string.

Definition key_error (key : string) : exn :=
  {| exn_class_of := KeyError; exn_str := py_repr key |}.

Definition find_element_with_fallbacks (selector_key : string) (timeout : Z)
  (b : Browser) : Browser * result element :=
  match lookup selector_key SELECTORS with
  | None => (b, Raise (key_error selector_key))
  | Some selectors =>
      try_selectors presence_of_element_located
        (not_found_message selector_key) selectors timeout None b
  end.

Definition find_clickable_with_fallbacks (selector_key : string) (timeout : Z)
  (b : Browser) : Browser * result element :=
  match lookup selector_key SELECTORS with
  | None => (b, Raise (key_error selector_key))
  | Some selectors =>
      try_selectors element_to_be_clickable
        (not_clickable_message selector_key) selectors timeout None b
  end.

(** The resolver of a resolution predicate. *)
Definition resolver (cond : condition) :=
  match cond with
  | presence_of_element_located => find_element_with_fallbacks
  | element_to_be_clickable => find_clickable_with_fallbacks
  end.

Definition resolver_message (cond : condition) :=
  match cond with
  | presence_of_element_located => not_found_message
  | element_to_be_clickable => not_clickable_message
  end.

(** *** The reading the specification gives of the resolver *)

(** Every locator of [locs], tried in order from page [b], fails to
    resolve within the bound; [all_time_out] gives the page after the last
    wait and the error of the last wait ([last] when [locs] is empty). *)
Fixpoint all_time_out (cond : condition) (timeout : Z) (locs : list locator)
  (last : option exn) (b : Browser) : option (Browser * option exn) :=
  match locs with
  | [] => Some (b, last)
  | loc :: rest =>
      match wait_until cond loc timeout b with
      | (b', Raise e) =>
          if is_TimeoutException e
          then all_time_out cond timeout rest (Some e) b'
          else None
      | (_, Return _) => None
      end
  end.

End Resolver.

(** A driver on whose page the first two locators of a target never
    resolve and the third does; the page counts the waits made on it. *)
Definition third_resolves : WebDriver :=
  {| Browser := nat;
     element := string;
     wait_until := fun cond loc timeout waits =>
       (S waits,
        if Nat.ltb waits 2
        then Raise {| exn_class_of := TimeoutException;
                      exn_str := ("Message: " ++ nl)%string |}
        else Return (snd loc)) |}.

(** *** The session connector *)

(** The machine the program runs on, as far as the connector acts on it:
    the browser processes it has started (each by its command line), the
    directories it has made, the half seconds it has slept and the
    connections it has tried. *)
Record Host := {
  launched : list (list string);
  made_dirs : list string;
  slept : nat;
  probes : nat
}.

Definition tick (h : Host) (halves tries : nat) : Host :=
  {| launched := launched h; made_dirs := made_dirs h;
     slept := slept h + halves; probes := probes h + tries |}.

(** The machine once a process has been started, and once a directory
    has been made. *)
Definition started (cmd : list string) (h : Host) : Host :=
  {| launched := launched h ++ [cmd]; made_dirs := made_dirs h;
     slept := slept h; probes := probes h |}.

Definition made (dir : string) (h : Host) : Host :=
  {| launched := launched h; made_dirs := made_dirs h ++ [dir];
     slept := slept h; probes := probes h |}.

(** The machine a connector runs on: the value of [CHROME_PATH] in the
    environment, if it is set; the text of
    [Path(__file__).parent.parent / ".tmp" / "chrome-whatsapp"]; what
    [os.makedirs(dir, exist_ok=True)] and [subprocess.Popen(cmd)] do on the
    machine as it is, each of which returns or raises the error of the
    operating system; whether a connection to a port on 127.0.0.1 is
    accepted, given the processes started so far and the time slept so
    far; and [webdriver.Chrome(service, options)] with the debugger address
    given, which gives the handle on the browser that listens there, or an
    error. *)
Class Machine := {
  CHROME_PATH : option string;
  default_profile_dir : string;
  os_makedirs : string -> Host -> result unit;
  subprocess_Popen : list string -> Host -> result unit;
  port_listening : list (list string) -> nat -> Z -> bool;
  Driver : Type;
  webdriver_Chrome : string -> Host -> Host * result Driver
}.

Section Connector.
Context {machine : Machine}.

Definition _is_port_open (port : Z) (h : Host) : Host * bool :=
  (tick h 0 1, port_listening (launched h) (slept h) port).

(** [os.makedirs(dir, exist_ok=True)] and [subprocess.Popen(cmd)]: a call
    that raises has made no directory, and has started no process. *)
Definition makedirs (dir : string) (h : Host) : Host * result unit :=
  match os_makedirs dir h with
  | Return _ => (made dir h, Return tt)
  | Raise e => (h, Raise e)
  end.

Definition popen (cmd : list string) (h : Host) : Host * result unit :=
  match subprocess_Popen cmd h with
  | Return _ => (started cmd h, Return tt)
  | Raise e => (h, Raise e)
  end.

Definition default_chrome_path : string :=
  "C:\Program Files\Google\Chrome\Application\chrome.exe".

Definition launch_command (chrome_path : string) (debug_port : Z)
  (profile_dir : string) : list string :=
  [ chrome_path;
    ("--remote-debugging-port=" ++ str_of_int debug_port)%string;
    ("--user-data-dir=" ++ profile_dir)%string;
    "--no-first-run"%string;
    "--no-default-browser-check"%string ].

Definition launch_error (debug_port launch_timeout : Z) : exn :=
  {| exn_class_of := RuntimeError;
     exn_str := ("Chrome did not start with remote-debugging on port "
                 ++ str_of_int debug_port ++ " within "
                 ++ str_of_int launch_timeout
                 ++ "s.  Check CHROME_PATH in .env.")%string |}.

(** [for _ in range(n): if _is_port_open(port): return; time.sleep(0.5)];
    [true] stands for the [return]. *)
Fixpoint wait_for_port (n : nat) (port : Z) (h : Host) : Host * bool :=
  match n with
  | O => (h, false)
  | S k =>
      let (h1, is_open) := _is_port_open port h in
      if is_open then (h1, true)
      else wait_for_port k port (tick h1 1 0)
  end.

Definition resolved_chrome_path (chrome_path : option string) : string :=
  match chrome_path with
  | Some p => p
  | None => match CHROME_PATH with Some p => p | None => default_chrome_path end
  end.

Definition resolved_profile_dir (profile_dir : option string) : string :=
  match profile_dir with
  | Some d => d
  | None => default_profile_dir
  end.

Definition ensure_chrome_ready (debug_port : Z) (chrome_path profile_dir : option string)
  (launch_timeout : Z) (h : Host) : Host * result unit :=
  let (h, is_open) := _is_port_open debug_port h in
  if is_open then (h, Return tt)
  else
    let chrome_path := resolved_chrome_path chrome_path in
    let profile_dir := resolved_profile_dir profile_dir in
    match makedirs profile_dir h with
    | (h, Raise e) => (h, Raise e)
    | (h, Return _) =>
        let cmd := launch_command chrome_path debug_port profile_dir in
        match popen cmd h with
        | (h, Raise e) => (h, Raise e)
        | (h, Return _) =>
            match wait_for_port (Z.to_nat (launch_timeout * 2)) debug_port h with
            | (h, true) => (h, Return tt)
            | (h, false) => (h, Raise (launch_error debug_port launch_timeout))
            end
        end
    end.

Definition create_driver (debug_port : Z) (chrome_path profile_dir : option string)
  (h : Host) : Host * result Driver :=
  match ensure_chrome_ready debug_port chrome_path profile_dir 15 h with
  | (h, Raise e) => (h, Raise e)
  | (h, Return _) =>
      webdriver_Chrome ("127.0.0.1:" ++ str_of_int debug_port)%string h
  end.

End Connector.

(** A machine on which the port answers one and a half seconds after a
    browser has been started, and never before. *)
Definition slow_start : Machine :=
  {| CHROME_PATH := None;
     default_profile_dir := "chrome-whatsapp"%string;
     os_makedirs := fun _ _ => Return tt;
     subprocess_Popen := fun _ _ => Return tt;
     port_listening := fun procs halves port =>
       match procs with
       | [] => false
       | _ :: _ => Nat.leb 3 halves
       end;
     Driver := unit;
     webdriver_Chrome := fun _ h => (h, Return tt) |}.

(** A machine that has no browser at the path it is given. *)
Definition no_chrome : Machine :=
  {| CHROME_PATH := None;
     default_profile_dir := "chrome-whatsapp"%string;
     os_makedirs := fun _ _ => Return tt;
     subprocess_Popen := fun _ _ =>
       Raise {| exn_class_of := Other "FileNotFoundError";
                exn_str := "[WinError 2] The system cannot find the file specified" |};
     port_listening := fun _ _ _ => false;
     Driver := unit;
     webdriver_Chrome := fun _ h => (h, Return tt) |}.

Definition fresh_host : Host :=
  {| launched := []; made_dirs := []; slept := 0; probes := 0 |}.

(** *** The delivery driver *)

(** An argument handed to a script, and what the program does to the
    browser and the desktop: the calls that act on them, and its sleeps. *)
Inductive script_arg (element : Type) :=
| ArgElement (el : element)
| ArgText (text : pystr).
Arguments ArgElement {element} el.
Arguments ArgText {element} text.

Inductive action (element : Type) :=
| Navigate (url : string)
| Click (el : element)
| ExecuteScript (script : string) (args : list (script_arg element))
| Clear (el : element)
| SendKeys (el : element) (text : pystr)
| Escape
| Sleep (seconds : Q)
| ClipboardCopy (text : string)
| Hotkey (keys : list string)
| Press (key : string).
Arguments Navigate {element} url.
Arguments Click {element} el.
Arguments ExecuteScript {element} script args.
Arguments Clear {element} el.
Arguments SendKeys {element} el text.
Arguments Escape {element}.
Arguments Sleep {element} seconds.
Arguments ClipboardCopy {element} text.
Arguments Hotkey {element} keys.
Arguments Press {element} key.

(** The rest of what the program calls on the driver and on the desktop.
    [Browser] stands for all of it: the page, the clipboard, the keyboard
    and the time.  Each call returns or raises, and may leave the page
    changed; [time.sleep] returns. *)
Class Desktop {driver : WebDriver} := {
  (** [driver.get(url)] and [driver.find_elements(by, value)] *)
  driver_get : string -> Browser -> Browser * result unit;
  find_elements : locator -> Browser -> Browser * result (list element);
  (** [element.click()], [element.clear()], [element.send_keys(text)] *)
  element_click : element -> Browser -> Browser * result unit;
  element_clear : element -> Browser -> Browser * result unit;
  element_send_keys : element -> pystr -> Browser -> Browser * result unit;
  (** [driver.execute_script(script, arg, ...)] *)
  execute_script : string -> list (script_arg element) -> Browser -> Browser * result unit;
  (** [ActionChains(driver).send_keys(Keys.ESCAPE).perform()] *)
  send_escape : Browser -> Browser * result unit;
  (** [time.sleep(seconds)] *)
  time_sleep : Q -> Browser -> Browser;
  (** [pyperclip.copy(text)], [pyautogui.hotkey(key, key)] and
      [pyautogui.press(key)] *)
  pyperclip_copy : string -> Browser -> Browser * result unit;
  pyautogui_hotkey : list string -> Browser -> Browser * result unit;
  pyautogui_press : string -> Browser -> Browser * result unit;
  (** [os.path.abspath(path)] *)
  abspath : string -> string
}.

Section Delivery.
Context {driver : WebDriver} {desk : Desktop}.

(** The state of a delivery: the browser, and the actions done so far. *)
Record Session := {
  page : Browser;
  done : list (action element)
}.

(** A computation on a session returns a value or raises. *)
Definition W (A : Type) : Type := Session -> Session * result A.

Definition wret {A} (a : A) : W A := fun s => (s, Return a).

Definition wraise {A} (e : exn) : W A := fun s => (s, Raise e).

Definition wbind {A B} (m : W A) (f : A -> W B) : W B :=
  fun s =>
    match m s with
    | (s', Return a) => f a s'
    | (s', Raise e) => (s', Raise e)
    end.

(** [try: m  except Exception as e: handler e] *)
Definition wtry {A} (m : W A) (handler : exn -> W A) : W A :=
  fun s =>
    match m s with
    | (s', Raise e) => handler e s'
    | r => r
    end.

(** A call that looks at the page, and a call that acts: the action is on
    record whether the call returns or raises. *)
Definition looking {A} (f : Browser -> Browser * result A) : W A :=
  fun s => let (b, r) := f (page s) in ({| page := b; done := done s |}, r).

Definition acting (a : action element) (f : Browser -> Browser * result unit) : W unit :=
  fun s => let (b, r) := f (page s) in ({| page := b; done := done s ++ [a] |}, r).

Definition sleep_for (seconds : Q) : W unit :=
  fun s => ({| page := time_sleep seconds (page s);
               done := done s ++ [Sleep seconds] |}, Return tt).

End Delivery.

Declare Scope web_scope.
Delimit Scope web_scope with web.
Notation "x <- m ;; k" := (wbind m (fun x => k))
  (at level 100, m at next level, right associativity) : web_scope.
Notation "m ;; k" := (wbind m (fun _ => k))
  (at level 100, right associativity) : web_scope.

Section Delivery2.
Context {driver : WebDriver} {desk : Desktop}.
Local Open Scope web_scope.
Local Open Scope string_scope.

(** [SELECTORS[key]] *)
Definition selectors_of (key : string) : W (list locator) :=
  match lookup key SELECTORS with
  | Some selectors => wret selectors
  | None => wraise (key_error key)
  end.

(** *** [_type_message] *)

Definition paste_script : string :=
"
    const el = arguments[0];
    const text = arguments[1];
    el.focus();
    const dataTransfer = new DataTransfer();
    dataTransfer.setData('text/plain', text);
    const pasteEvent = new ClipboardEvent('paste', {
        clipboardData: dataTransfer,
        bubbles: true,
        cancelable: true,
    });
    el.dispatchEvent(pasteEvent);
    ".

Definition run_script (script : string) (args : list (script_arg element)) : W unit :=
  acting (ExecuteScript script args) (execute_script script args).

Definition _type_message (el : element) (text : pystr) : W unit :=
  wtry (run_script paste_script [ArgElement el; ArgText text])
    (fun _ =>
       acting (Clear el) (element_clear el) ;;
       acting (SendKeys el text) (element_send_keys el text)).

(** *** [_dismiss_popup] *)

Definition _dismiss_popup : W unit :=
  wtry
    (ok_btn <- looking (find_clickable_with_fallbacks "popup_ok_button" 5) ;;
     acting (Click ok_btn) (element_click ok_btn) ;;
     sleep_for (1 # 2))
    (fun e =>
       if is_TimeoutException e then
         acting Escape send_escape ;;
         sleep_for (1 # 2)
       else wraise e).

(** *** [is_whatsapp_connected] *)

Definition qr_code : locator :=
  (CSS_SELECTOR, "canvas[aria-label=" ++ q "Scan this QR code to link a device!" ++ "]").

Definition phone_not_connected : locator :=
  (XPATH, "//*[contains(text(), " ++ q "Phone not connected" ++ ")]").

Definition is_whatsapp_connected : W bool :=
  wtry
    (qr <- looking (find_elements qr_code) ;;
     disconnect <- looking (find_elements phone_not_connected) ;;
     wret ((List.length qr =? 0)%nat && (List.length disconnect =? 0)%nat))
    (fun _ => wret false).

(** *** [send_whatsapp_message] *)

Definition send_url (phone_clean : string) : string :=
  "https://web.whatsapp.com/send?phone=" ++ phone_clean.

Definition not_on_whatsapp (phone_clean : string) : exn :=
  {| exn_class_of := ContactNotFoundError;
     exn_str := "Phone " ++ phone_clean ++ " is not on WhatsApp" |}.

Definition chat_did_not_load (phone_clean : string) (timeout : Z) : exn :=
  {| exn_class_of := SendTimeoutError;
     exn_str := "Chat did not load for phone " ++ phone_clean ++ " within "
                ++ str_of_int timeout ++ "s" |}.

Definition not_verified : exn :=
  {| exn_class_of := SendTimeoutError;
     exn_str := "Could not verify message was sent" |}.

(** Lines 239 to 245: the [for] loop over the locators of the popup. *)
Fixpoint popup_loop (phone_clean : string) (selectors : list locator) : W unit :=
  match selectors with
  | [] => wret tt
  | loc :: rest =>
      elements <- looking (find_elements loc) ;;
      match elements with
      | _ :: _ => _dismiss_popup ;; wraise (not_on_whatsapp phone_clean)
      | [] => popup_loop phone_clean rest
      end
  end.

(** Lines 238 to 249, with the two [except] clauses. *)
Definition check_popup (phone_clean : string) : W unit :=
  wtry
    (selectors <- selectors_of "invalid_phone_popup" ;;
     popup_loop phone_clean selectors)
    (fun e => if is_ContactNotFoundError e then wraise e else wret tt).

(** Lines 253 to 258. *)
Fixpoint continue_loop (selectors : list locator) : W unit :=
  match selectors with
  | [] => wret tt
  | loc :: rest =>
      elements <- looking (find_elements loc) ;;
      match elements with
      | el :: _ => acting (Click el) (element_click el) ;; sleep_for 1
      | [] => continue_loop rest
      end
  end.

Definition check_continue : W unit :=
  wtry
    (selectors <- selectors_of "continue_to_chat" ;;
     continue_loop selectors)
    (fun _ => wret tt).

(** Lines 264 to 268; the value is [chat_loaded]. *)
Fixpoint input_loop (selectors : list locator) : W bool :=
  match selectors with
  | [] => wret false
  | loc :: rest =>
      elements <- looking (find_elements loc) ;;
      match elements with
      | _ :: _ => wret true
      | [] => input_loop rest
      end
  end.

Definition check_input : W bool :=
  wtry
    (selectors <- selectors_of "message_input" ;;
     input_loop selectors)
    (fun _ => wret false).

(** [for _ in range(n)] of lines 236 to 274; the value is [chat_loaded]. *)
Fixpoint wait_for_chat (n : nat) (phone_clean : string) : W bool :=
  match n with
  | O => wret false
  | S k =>
      check_popup phone_clean ;;
      check_continue ;;
      chat_loaded <- check_input ;;
      if chat_loaded then wret true
      else sleep_for (1 # 2) ;; wait_for_chat k phone_clean
  end.

(** Steps 1 and 2: open the chat by its address and wait until it has
    loaded; lines 230 to 281. *)
Definition open_chat (phone_clean : string) (timeout : Z) : W unit :=
  acting (Navigate (send_url phone_clean)) (driver_get (send_url phone_clean)) ;;
  chat_loaded <- wait_for_chat (Z.to_nat (timeout * 2)) phone_clean ;;
  if negb chat_loaded then wraise (chat_did_not_load phone_clean timeout)
  else sleep_for 1.

(** Steps 3 to 5: the attachment button, the menu item, the path of the
    image pasted into the file dialog; lines 284 to 301. *)
Definition attach_image (image_path : string) : W unit :=
  attach_btn <- looking (find_clickable_with_fallbacks "attach_button" 10) ;;
  acting (Click attach_btn) (element_click attach_btn) ;;
  sleep_for 1 ;;
  photos_btn <- looking (find_clickable_with_fallbacks "photos_and_videos" 5) ;;
  acting (Click photos_btn) (element_click photos_btn) ;;
  sleep_for 2 ;;
  let image_abs_path := abspath image_path in
  acting (ClipboardCopy image_abs_path) (pyperclip_copy image_abs_path) ;;
  acting (Hotkey ["ctrl"; "v"]) (pyautogui_hotkey ["ctrl"; "v"]) ;;
  sleep_for (1 # 2) ;;
  acting (Press "enter") (pyautogui_press "enter") ;;
  sleep_for 4.

(** Step 6: the caption; lines 304 to 308. *)
Definition write_caption (caption : pystr) : W unit :=
  caption_box <- looking (find_element_with_fallbacks "caption_input" 10) ;;
  run_script "arguments[0].focus();" [ArgElement caption_box] ;;
  sleep_for (3 # 10) ;;
  _type_message caption_box caption ;;
  sleep_for (1 # 2).

(** Step 7: the send button; lines 311 to 315. *)
Definition click_send : W unit :=
  send_btn <- looking (find_element_with_fallbacks "send_button" 10) ;;
  run_script "arguments[0].click();" [ArgElement send_btn] ;;
  sleep_for 5.

(** Step 8: the message input is back; lines 316 to 320. *)
Definition verify_sent : W bool :=
  wtry
    (looking (find_element_with_fallbacks "message_input" 10) ;;
     wret true)
    (fun e => if is_TimeoutException e then wraise not_verified else wraise e).

Definition send_whatsapp_message (phone_clean : string) (caption : pystr)
  (image_path : string) (timeout : Z) : W bool :=
  open_chat phone_clean timeout ;;
  attach_image image_path ;;
  write_caption caption ;;
  click_send ;;
  verify_sent.

End Delivery2.

Section DeliveryDefs.
Context {driver : WebDriver} {desk : Desktop}.

(** What the wait for the chat does at most: clicks, the Escape key and
    sleeps. *)
Definition is_polling (a : action element) : bool :=
  match a with
  | Click _ | Escape | Sleep _ => true
  | _ => false
  end.

(** [polled s s']: between [s] and [s'] only such actions were done. *)
Definition polled (s s' : Session) : Prop :=
  exists acts, done s' = done s ++ acts /\ forallb is_polling acts = true.

(** A result that is not one of the send errors of this module. *)
Definition foreign {A} (r : result A) : Prop :=
  match r with
  | Return _ => True
  | Raise e => is_WhatsAppSendError e = false
  end.

(** The driver and the desktop raise errors of their own, never the send
    errors of this module. *)
Record selenium_errors : Prop := {
  wait_foreign : forall c l t b, foreign (snd (wait_until c l t b));
  get_foreign : forall u b, foreign (snd (driver_get u b));
  find_foreign : forall l b, foreign (snd (find_elements l b));
  click_foreign : forall el b, foreign (snd (element_click el b));
  clear_foreign : forall el b, foreign (snd (element_clear el b));
  keys_foreign : forall el t b, foreign (snd (element_send_keys el t b));
  script_foreign : forall sc args b, foreign (snd (execute_script sc args b));
  escape_foreign : forall b, foreign (snd (send_escape b));
  copy_foreign : forall t b, foreign (snd (pyperclip_copy t b));
  hotkey_foreign : forall k b, foreign (snd (pyautogui_hotkey k b));
  press_foreign : forall k b, foreign (snd (pyautogui_press k b))
}.

(** The actions of steps 3 to 7 once the chat has loaded, for the elements
    the resolver gave and the way the caption was typed. *)
Definition attaching (image_path : string) (attach_btn photos_btn : element)
  : list (action element) :=
  [ Click attach_btn; Sleep 1; Click photos_btn; Sleep 2;
    ClipboardCopy (abspath image_path); Hotkey ["ctrl"; "v"]%string;
    Sleep (1 # 2); Press "enter"; Sleep 4 ].

Definition pasted (caption_box : element) (caption : pystr) : action element :=
  ExecuteScript paste_script [ArgElement caption_box; ArgText caption].

Definition captioning (caption_box : element) (typing : list (action element))
  : list (action element) :=
  [ ExecuteScript "arguments[0].focus();" [ArgElement caption_box]; Sleep (3 # 10) ]
  ++ typing ++ [ Sleep (1 # 2) ].

Definition sending (send_btn : element) : list (action element) :=
  [ ExecuteScript "arguments[0].click();" [ArgElement send_btn]; Sleep 5 ].

(** [typed_in caption_box caption typing]: the caption went into the box
    by the paste script, or, the script having raised, by [clear] and
    [send_keys]. *)
Definition typed_in (caption_box : element) (caption : pystr)
  (typing : list (action element)) : Prop :=
  typing = [pasted caption_box caption] \/
  typing = [pasted caption_box caption; Clear caption_box;
            SendKeys caption_box caption].

(** [opened phone_clean s s']: between [s] and [s'] the chat of the number
    was asked for and waited for, and nothing else was done. *)
Definition opened (phone_clean : string) (s s' : Session) : Prop :=
  exists polling,
    done s' = done s ++ Navigate (send_url phone_clean) :: polling /\
    forallb is_polling polling = true.

(** [resolves cond key timeout el]: [el] is an element the resolver of
    [cond] has returned for the target [key] and the bound [timeout]. *)
Definition resolves (cond : condition) (key : string) (timeout : Z) (el : element)
  : Prop :=
  exists b b', resolver cond key timeout b = (b', Return el).

(** [gone_through phone_clean caption image_path s s']: between [s] and
    [s'] every step up to the click on the send button was done, once and
    in the order of the source, each on the element the resolver gave for
    its target. *)
Definition gone_through (phone_clean : string) (caption : pystr)
  (image_path : string) (s s' : Session) : Prop :=
  exists polling attach_btn photos_btn caption_box typing send_btn,
    done s' =
      done s ++ Navigate (send_url phone_clean) :: polling ++ [Sleep 1]
        ++ attaching image_path attach_btn photos_btn
        ++ captioning caption_box typing
        ++ sending send_btn /\
    forallb is_polling polling = true /\
    resolves element_to_be_clickable "attach_button"%string 10 attach_btn /\
    resolves element_to_be_clickable "photos_and_videos"%string 5 photos_btn /\
    resolves presence_of_element_located "caption_input"%string 10 caption_box /\
    resolves presence_of_element_located "send_button"%string 10 send_btn /\
    typed_in caption_box caption typing.

End DeliveryDefs.

Section Invariants.
Context {driver : WebDriver} {desk : Desktop}.

(** [wkeeps R m]: the sessions before and after [m] are related by [R],
    whether it returns or raises; [wraises P m]: every error [m] raises
    satisfies [P]. *)
Definition wkeeps (R : Session -> Session -> Prop) {A} (m : W A) : Prop :=
  forall s s' r, m s = (s', r) -> R s s'.

Definition wraises (P : exn -> Prop) {A} (m : W A) : Prop :=
  forall s s' e, m s = (s', Raise e) -> P e.

Definition not_send_error (e : exn) : Prop := is_WhatsAppSendError e = false.

End Invariants.

(** A driver on whose page the first [n] waits time out and the later ones
    resolve, and a desktop on which every call returns and a lookup finds
    what [shown] says. *)
Definition resolving_after (n : nat) : WebDriver :=
  {| Browser := nat;
     element := string;
     wait_until := fun cond loc timeout waits =>
       (S waits,
        if Nat.ltb waits n
        then Raise {| exn_class_of := TimeoutException;
                      exn_str := ("Message: " ++ nl)%string |}
        else Return (snd loc)) |}.

Definition showing (n : nat) (shown : locator -> list string)
  : @Desktop (resolving_after n) :=
  @Build_Desktop (resolving_after n)
    (fun _ (b : nat) => (b, Return tt))
    (fun loc (b : nat) => (b, Return (shown loc)))
    (fun _ (b : nat) => (b, Return tt))
    (fun _ (b : nat) => (b, Return tt))
    (fun _ _ (b : nat) => (b, Return tt))
    (fun _ _ (b : nat) => (b, Return tt))
    (fun (b : nat) => (b, Return tt))
    (fun _ (b : nat) => b)
    (fun _ (b : nat) => (b, Return tt))
    (fun _ (b : nat) => (b, Return tt))
    (fun _ (b : nat) => (b, Return tt))
    (fun path => path).

(** A driver whose first [n] waits resolve and whose later ones time out,
    and such a desktop for it. *)
Definition resolving_first (n : nat) : WebDriver :=
  {| Browser := nat;
     element := string;
     wait_until := fun cond loc timeout waits =>
       (S waits,
        if Nat.ltb waits n
        then Return (snd loc)
        else Raise {| exn_class_of := TimeoutException;
                      exn_str := ("Message: " ++ nl)%string |}) |}.

Definition showing_first (n : nat) (shown : locator -> list string)
  : @Desktop (resolving_first n) :=
  @Build_Desktop (resolving_first n)
    (fun _ (b : nat) => (b, Return tt))
    (fun loc (b : nat) => (b, Return (shown loc)))
    (fun _ (b : nat) => (b, Return tt))
    (fun _ (b : nat) => (b, Return tt))
    (fun _ _ (b : nat) => (b, Return tt))
    (fun _ _ (b : nat) => (b, Return tt))
    (fun (b : nat) => (b, Return tt))
    (fun _ (b : nat) => b)
    (fun _ (b : nat) => (b, Return tt))
    (fun _ (b : nat) => (b, Return tt))
    (fun _ (b : nat) => (b, Return tt))
    (fun path => path).

(** What a page shows: nothing; the chat, whose elements the CSS
    locators find; the popup of a number that is not on WhatsApp, which
    the XPath locators find. *)
Definition blank_page (loc : locator) : list string := [].

Definition chat_page (loc : locator) : list string :=
  match fst loc with
  | CSS_SELECTOR => [snd loc]
  | XPATH => []
  end.

Definition popup_page (loc : locator) : list string :=
  match fst loc with
  | CSS_SELECTOR => []
  | XPATH => [snd loc]
  end.

Definition new_session (n : nat) : @Session (resolving_after n) :=
  @Build_Session (resolving_after n) 0%nat [].

Definition first_session (n : nat) : @Session (resolving_first n) :=
  @Build_Session (resolving_first n) 0%nat [].

End WhatsAppSender.

(** ** The send orchestrator: [execution/send_messages.py] *)

Module SendMessages.
Import PyStr GoogleSheets.

(** *** Data *)

(** [SendResult]; the timestamp is the time of the clock at creation. *)
Record SendResult := {
  contact : Contact;
  success : bool;
  error : option string;
  timestamp : nat
}.

(** The text of a log line, kept as the template of the source's f-string
    and the values put into it. *)
Inductive message :=
| ImageNotFound (image_path : string)
| LaunchingChrome
| ConnectedToChrome
| TabNotFound
| WhatsAppActive
| Fetching (count : Z)
| NoPendingContacts
| FoundOnly (actual_count count : Z)
| StartingToSend (actual_count : Z)
| StopRequested
| SendingTo (position actual_count : Z) (first_name phone_raw : pystr)
| SentSuccessfully (first_name : pystr)
| NotOnWhatsApp (phone_raw : pystr)
| Failed (err : string)
| Unexpected (err : string)
| Disconnected
| Waiting (actual_delay : Q)
| CriticalError (err : string)
| SessionComplete (sent failed : Z).

(** [f"[{ts}] {message}"] *)
Record log_entry := {
  ts : nat;
  text : message
}.

(** [SessionState], the record shared with the dashboard.  The dashboard
    writes [is_paused] and [should_stop]; the orchestrator writes the
    rest. *)
Record SessionState := {
  total : Z;
  sent : Z;
  failed : Z;
  remaining : Z;
  current_contact : option pystr;
  current_phone : option pystr;
  is_running : bool;
  is_paused : bool;
  should_stop : bool;
  log_messages : list log_entry;
  results : list SendResult
}.

(** [SessionState()] *)
Definition new_state : SessionState :=
  {| total := 0; sent := 0; failed := 0; remaining := 0;
     current_contact := None; current_phone := None;
     is_running := false; is_paused := false; should_stop := false;
     log_messages := []; results := [] |}.

(** The content of [.tmp/send_log.json]. *)
Record log_data := {
  log_timestamp : nat;
  log_sent : Z;
  log_failed : Z;
  log_total_attempted : Z;
  log_log : list log_entry;
  log_results : list SendResult
}.

(** One call of [send_whatsapp_message]: the contact, the caption and
    what the call did. *)
Record delivery := {
  dl_contact : Contact;
  dl_caption : pystr;
  dl_outcome : result bool
}.

(** What the writes of [_save_log] do: the log is written; or one of them
    raises, before the file was opened, which leaves the file as it was,
    or after, which leaves a file that holds no log. *)
Inductive log_write :=
| LogWritten
| LogFailed (truncated : bool) (e : exn).

(** What a run reads from outside itself, and what its calls to the
    outside do: each returns or raises. *)
Record Env := {
  (** The number in [DAILY_MESSAGE_LIMIT] when the variable is set (a text
      that is no number makes line 102 raise before anything is done; such
      an environment is not one of these), [IMAGE_PATH] and whether a file
      is there. *)
  DAILY_MESSAGE_LIMIT : option Z;
  IMAGE_PATH : option string;
  path_exists : string -> bool;
  (** [template.format(first_name=...)] for the template in
      [MESSAGE_TEMPLATE]; it raises when the variable is not set or the
      template asks for another field. *)
  format_template : pystr -> result pystr;
  (** Lines 124 to 127: the port read from the environment and
      [create_driver(...)]. *)
  connect : result unit;
  (** [driver.window_handles], and for each window of the browser, in
      order, what switching to it and reading its address gives: whether
      the address holds "web.whatsapp.com", or an error. *)
  windows : result (list (result bool));
  (** [driver.get("https://web.whatsapp.com")] *)
  open_whatsapp : result unit;
  (** The values of the sheet, and the calls of [get_pending_contacts] that
      fetch them: the service and the read of the range. *)
  sheet : sheet_values;
  sheet_read : result unit;
  (** The calls of [write_status] for a cell, made at a time of the clock:
      the service and the update of the range. *)
  values_update : status_update -> nat -> result unit;
  (** [send_whatsapp_message] for a contact and a caption, started at a
      time of the clock: what it does and the seconds it takes. *)
  send_whatsapp_message : Contact -> pystr -> nat -> result bool * nat;
  (** [is_whatsapp_connected(driver)] at a time of the clock. *)
  is_whatsapp_connected : nat -> bool;
  (** [random.random()] for the draw made after contact [i]: a float, at
      least 0 and below 1. *)
  random : Z -> Q;
  (** The writes of [_save_log] at a time of the clock: [mkdir], [open] and
      [json.dump]. *)
  write_log_file : nat -> log_write;
  (** The two flags of the dashboard, as they stand at each second. *)
  stop_requested : nat -> bool;
  pause_requested : nat -> bool
}.

Existing Class Env.

(** The state a run acts on: the shared [SessionState], the local list
    [results], the clock in seconds, the calls of [write_status] made,
    whether they returned or raised, the calls of the delivery driver and
    the log file. *)
Record Sys := {
  state : SessionState;
  local_results : list SendResult;
  clock : nat;
  sheet_updates : list status_update;
  deliveries : list delivery;
  send_log : option log_data
}.

Definition with_state (f : SessionState -> SessionState) (s : Sys) : Sys :=
  {| state := f (state s); local_results := local_results s; clock := clock s;
     sheet_updates := sheet_updates s; deliveries := deliveries s;
     send_log := send_log s |}.

Definition set_total (v : Z) (st : SessionState) : SessionState :=
  {| total := v; sent := sent st; failed := failed st; remaining := remaining st;
     current_contact := current_contact st; current_phone := current_phone st;
     is_running := is_running st; is_paused := is_paused st;
     should_stop := should_stop st; log_messages := log_messages st;
     results := results st |}.

Definition set_sent (v : Z) (st : SessionState) : SessionState :=
  {| total := total st; sent := v; failed := failed st; remaining := remaining st;
     current_contact := current_contact st; current_phone := current_phone st;
     is_running := is_running st; is_paused := is_paused st;
     should_stop := should_stop st; log_messages := log_messages st;
     results := results st |}.

Definition set_failed (v : Z) (st : SessionState) : SessionState :=
  {| total := total st; sent := sent st; failed := v; remaining := remaining st;
     current_contact := current_contact st; current_phone := current_phone st;
     is_running := is_running st; is_paused := is_paused st;
     should_stop := should_stop st; log_messages := log_messages st;
     results := results st |}.

Definition set_remaining (v : Z) (st : SessionState) : SessionState :=
  {| total := total st; sent := sent st; failed := failed st; remaining := v;
     current_contact := current_contact st; current_phone := current_phone st;
     is_running := is_running st; is_paused := is_paused st;
     should_stop := should_stop st; log_messages := log_messages st;
     results := results st |}.

Definition set_current (name phone : option pystr) (st : SessionState) : SessionState :=
  {| total := total st; sent := sent st; failed := failed st;
     remaining := remaining st;
     current_contact := name; current_phone := phone;
     is_running := is_running st; is_paused := is_paused st;
     should_stop := should_stop st; log_messages := log_messages st;
     results := results st |}.

Definition set_is_running (v : bool) (st : SessionState) : SessionState :=
  {| total := total st; sent := sent st; failed := failed st;
     remaining := remaining st;
     current_contact := current_contact st; current_phone := current_phone st;
     is_running := v; is_paused := is_paused st;
     should_stop := should_stop st; log_messages := log_messages st;
     results := results st |}.

Definition set_flags (paused stop : bool) (st : SessionState) : SessionState :=
  {| total := total st; sent := sent st; failed := failed st;
     remaining := remaining st;
     current_contact := current_contact st; current_phone := current_phone st;
     is_running := is_running st; is_paused := paused;
     should_stop := stop; log_messages := log_messages st;
     results := results st |}.

Definition add_log (e : log_entry) (st : SessionState) : SessionState :=
  {| total := total st; sent := sent st; failed := failed st;
     remaining := remaining st;
     current_contact := current_contact st; current_phone := current_phone st;
     is_running := is_running st; is_paused := is_paused st;
     should_stop := should_stop st; log_messages := log_messages st ++ [e];
     results := results st |}.

Definition add_result (r : SendResult) (st : SessionState) : SessionState :=
  {| total := total st; sent := sent st; failed := failed st;
     remaining := remaining st;
     current_contact := current_contact st; current_phone := current_phone st;
     is_running := is_running st; is_paused := is_paused st;
     should_stop := should_stop st; log_messages := log_messages st;
     results := results st ++ [r] |}.

(** *** Computations *)

(** A computation acts on the state and returns a value or raises; [None]
    stands for a computation that has not ended within the steps it was
    given. *)
Definition M (A : Type) : Type := Sys -> option (Sys * result A).

Definition ret {A} (a : A) : M A := fun s => Some (s, Return a).

Definition raise {A} (e : exn) : M A := fun s => Some (s, Raise e).

Definition bind {A B} (m : M A) (f : A -> M B) : M B :=
  fun s =>
    match m s with
    | None => None
    | Some (s', Return a) => f a s'
    | Some (s', Raise e) => Some (s', Raise e)
    end.

(** [try: m  except Exception as e: handler e] *)
Definition try_except {A} (m : M A) (handler : exn -> M A) : M A :=
  fun s =>
    match m s with
    | Some (s', Raise e) => handler e s'
    | r => r
    end.

(** [try: m  finally: fin] *)
Definition try_finally {A} (m : M A) (fin : M unit) : M A :=
  fun s =>
    match m s with
    | None => None
    | Some (s', r) =>
        match fin s' with
        | None => None
        | Some (s'', Return _) => Some (s'', r)
        | Some (s'', Raise e) => Some (s'', Raise e)
        end
    end.

Definition gets {A} (f : Sys -> A) : M A := fun s => Some (s, Return (f s)).

Definition modify (f : Sys -> Sys) : M unit := fun s => Some (f s, Return tt).

Definition lift {A} (r : result A) : M A := fun s => Some (s, r).

(** A loop that has used up the steps it was given. *)
Definition diverge {A} : M A := fun _ => None.

Declare Scope py_scope.
Delimit Scope py_scope with py.
Notation "x <- m ;; k" := (bind m (fun x => k))
  (at level 100, m at next level, right associativity) : py_scope.
Notation "m ;; k" := (bind m (fun _ => k))
  (at level 100, right associativity) : py_scope.
Local Open Scope py_scope.

(** How a pass through the body of a [for] loop ends. *)
Inductive signal := Next | Break.

Section Orchestrator.
Context {db : UnicodeDB} {env : Env}.

(** *** Primitives *)

(** [_log(state, message)]: the entry is stamped with the clock. *)
Definition _log (m : message) : M unit :=
  modify (fun s => with_state (add_log {| ts := clock s; text := m |}) s).

(** The log file holds [l]. *)
Definition with_send_log (l : option log_data) (s : Sys) : Sys :=
  {| state := state s; local_results := local_results s; clock := clock s;
     sheet_updates := sheet_updates s; deliveries := deliveries s;
     send_log := l |}.

(** [_save_log(state, results)]: the data are those of the record and of
    the local list; the writes return, or one raises. *)
Definition _save_log : M unit :=
  fun s =>
    let log_data :=
      {| log_timestamp := clock s;
         log_sent := sent (state s);
         log_failed := failed (state s);
         log_total_attempted := sent (state s) + failed (state s);
         log_log := log_messages (state s);
         log_results := local_results s |} in
    match write_log_file env (clock s) with
    | LogWritten => Some (with_send_log (Some log_data) s, Return tt)
    | LogFailed truncated e =>
        Some (with_send_log (if truncated then None else send_log s) s, Raise e)
    end.

(** The dashboard's writes reach the shared record: at a time of the
    clock the two flags are as the dashboard has left them. *)
Definition observe (s : Sys) : Sys :=
  with_state (set_flags (pause_requested env (clock s))
                        (stop_requested env (clock s))) s.

(** Reading [state.should_stop] and [state.is_paused]. *)
Definition read_should_stop : M bool :=
  fun s => Some (observe s, Return (should_stop (state (observe s)))).

Definition read_is_paused : M bool :=
  fun s => Some (observe s, Return (is_paused (state (observe s)))).

(** [time.sleep(n)] *)
Definition sleep (n : nat) : M unit :=
  modify (fun s =>
    {| state := state s; local_results := local_results s; clock := clock s + n;
       sheet_updates := sheet_updates s; deliveries := deliveries s;
       send_log := send_log s |}).

(** The call [write_status(row, success, sheet_id)]: it is kept on
    record, and returns or raises. *)
Definition do_write_status (row : Z) (ok : bool) : M unit :=
  fun s =>
    Some ({| state := state s; local_results := local_results s; clock := clock s;
             sheet_updates := sheet_updates s ++ [write_status row ok];
             deliveries := deliveries s; send_log := send_log s |},
          values_update env (write_status row ok) (clock s)).

(** The call [send_whatsapp_message(driver, phone_clean, caption,
    image_path)]: it takes its time, and the call is kept on record. *)
Definition do_send (c : Contact) (caption : pystr) : M bool :=
  fun s =>
    let (r, seconds) := send_whatsapp_message env c caption (clock s) in
    Some ({| state := state s; local_results := local_results s;
             clock := clock s + seconds;
             sheet_updates := sheet_updates s;
             deliveries := deliveries s
                           ++ [{| dl_contact := c; dl_caption := caption;
                                  dl_outcome := r |}];
             send_log := send_log s |}, r).

(** [results.append(result)] on the local list. *)
Definition append_result (r : SendResult) : M unit :=
  modify (fun s =>
    {| state := state s; local_results := local_results s ++ [r];
       clock := clock s; sheet_updates := sheet_updates s;
       deliveries := deliveries s; send_log := send_log s |}).

Definition new_result (c : Contact) (ok : bool) (err : option string) : M SendResult :=
  gets (fun s => {| contact := c; success := ok; error := err; timestamp := clock s |}).

(** *** The delay between two messages *)

(** [max(20, x)] and [int(x)] on the numbers of the source. *)
Definition max20 (x : Q) : Q := if Qle_bool x 20 then 20 else x.

Definition int_of (x : Q) : Z := Z.quot (Qnum x) (Zpos (Qden x)).

(** [max(20, delay + jitter)] for the [int] [delay] and the [float]
    [jitter]: the delay is made a float and the sum is rounded. *)
Definition actual_delay_of (delay : Z) (jitter : Q) : result Q :=
  match float_of_int delay with
  | Return base => Return (max20 (float_add base jitter))
  | Raise e => Raise e
  end.

(** [for _ in range(n): if state.should_stop: break; time.sleep(1)] *)
Fixpoint delay_loop (n : nat) : M unit :=
  match n with
  | O => ret tt
  | S k =>
      stop <- read_should_stop ;;
      if stop then ret tt
      else sleep 1 ;; delay_loop k
  end.

(** [random.uniform(a, b)] of the standard library, for the whole numbers
    [a] and [b], which floats hold as they are:
    [a + (b - a) * self.random()]. *)
Definition random_uniform (a b i : Z) : Q :=
  float_add (inject_Z a) (float_mul (inject_Z (b - a)) (random env i)).

(** Lines 224 to 230, after contact [i]. *)
Definition inter_message_delay (delay i : Z) : M unit :=
  let jitter := random_uniform (-5) 10 i in
  actual_delay <- lift (actual_delay_of delay jitter) ;;
  _log (Waiting actual_delay) ;;
  delay_loop (Z.to_nat (int_of actual_delay)).

(** *** One contact *)

(** [while state.is_paused: time.sleep(1); if state.should_stop: break] *)
Fixpoint wait_while_paused (fuel : nat) : M unit :=
  paused <- read_is_paused ;;
  if paused then
    match fuel with
    | O => diverge
    | S fuel' =>
        sleep 1 ;;
        stop <- read_should_stop ;;
        if stop then ret tt else wait_while_paused fuel'
    end
  else ret tt.

Definition incr_sent : M unit :=
  modify (fun s => with_state (fun st => set_sent (sent st + 1) st) s).

Definition incr_failed : M unit :=
  modify (fun s => with_state (fun st => set_failed (failed st + 1) st) s).

(** The [try] statement of lines 181 to 213.  It gives the outcome record,
    or [None] when the loop is to be left ([break]). *)
Definition attempt (c : Contact) (caption : pystr) : M (option SendResult) :=
  try_except
    (_ <- do_send c caption ;;
     do_write_status (row_number c) true ;;
     incr_sent ;;
     r <- new_result c true None ;;
     _log (SentSuccessfully (first_name c)) ;;
     ret (Some r))
    (fun e =>
       if is_ContactNotFoundError e then
         do_write_status (row_number c) false ;;
         incr_failed ;;
         r <- new_result c false (Some (exn_str e)) ;;
         _log (NotOnWhatsApp (phone_raw c)) ;;
         ret (Some r)
       else if is_WhatsAppSendError e then
         do_write_status (row_number c) false ;;
         incr_failed ;;
         r <- new_result c false (Some (exn_str e)) ;;
         _log (Failed (exn_str e)) ;;
         ret (Some r)
       else
         incr_failed ;;
         r <- new_result c false (Some (exn_str e)) ;;
         _log (Unexpected (exn_str e)) ;;
         connected <- gets (fun s => is_whatsapp_connected env (clock s)) ;;
         if negb connected then
           _log Disconnected ;; ret None
         else ret (Some r)).

(** The body of the main loop for contact [i] (counted from 0) of
    [actual_count]. *)
Definition iteration (fuel : nat) (delay : Z)
  (on_progress : option (SessionState -> result unit))
  (actual_count i : Z) (c : Contact) : M signal :=
  stop <- read_should_stop ;;
  if stop then _log StopRequested ;; ret Break
  else
    wait_while_paused fuel ;;
    modify (with_state (set_current (Some (first_name c)) (Some (phone_raw c)))) ;;
    _log (SendingTo (i + 1) actual_count (first_name c) (phone_raw c)) ;;
    caption <- lift (format_template env (first_name c)) ;;
    r <- attempt c caption ;;
    match r with
    | None => ret Break
    | Some result =>
        append_result result ;;
        modify (with_state (add_result result)) ;;
        modify (with_state (fun st => set_remaining (remaining st - 1) st)) ;;
        match on_progress with
        | Some callback => st <- gets state ;; lift (callback st)
        | None => ret tt
        end ;;
        stop <- read_should_stop ;;
        (if (i <? actual_count - 1)%Z && negb stop
         then inter_message_delay delay i
         else ret tt) ;;
        ret Next
    end.

(** [for i, contact in enumerate(contacts)] from position [i] on. *)
Fixpoint main_loop (fuel : nat) (delay : Z)
  (on_progress : option (SessionState -> result unit))
  (actual_count i : Z) (contacts : list Contact) : M unit :=
  match contacts with
  | [] => ret tt
  | c :: rest =>
      sig <- iteration fuel delay on_progress actual_count i c ;;
      match sig with
      | Break => ret tt
      | Next => main_loop fuel delay on_progress actual_count (i + 1) rest
      end
  end.

(** *** A run *)

(** Lines 131 to 136: the [for] loop over the windows; the value is
    [whatsapp_tab_found]. *)
Fixpoint find_tab (handles : list (result bool)) : result bool :=
  match handles with
  | [] => Return false
  | Return true :: _ => Return true
  | Return false :: rest => find_tab rest
  | Raise e :: _ => Raise e
  end.

(** The body of the outer [try].  It gives [Some v] when the function is
    to return [v] at once, and [None] when it runs to the end. *)
Definition guarded (fuel : nat) (count delay : Z)
  (on_progress : option (SessionState -> result unit))
  : M (option (list SendResult)) :=
  _log LaunchingChrome ;;
  lift (connect env) ;;
  _log ConnectedToChrome ;;
  handles <- lift (windows env) ;;
  whatsapp_tab_found <- lift (find_tab handles) ;;
  (if whatsapp_tab_found then ret tt
   else _log TabNotFound ;; lift (open_whatsapp env) ;; sleep 5) ;;
  _log WhatsAppActive ;;
  _log (Fetching count) ;;
  lift (sheet_read env) ;;
  let contacts := get_pending_contacts count (sheet env) in
  let actual_count := Z.of_nat (List.length contacts) in
  if (actual_count =? 0)%Z then
    _log NoPendingContacts ;;
    modify (with_state (set_is_running false)) ;;
    ret (Some [])
  else
    (if (actual_count <? count)%Z then _log (FoundOnly actual_count count)
     else ret tt) ;;
    modify (with_state (fun st => set_remaining actual_count (set_total actual_count st))) ;;
    _log (StartingToSend actual_count) ;;
    main_loop fuel delay on_progress actual_count 0 contacts ;;
    ret None.

(** The [finally] clause. *)
Definition finalizer : M unit :=
  modify (with_state (fun st => set_current None None (set_is_running false st))) ;;
  _save_log ;;
  st <- gets state ;;
  _log (SessionComplete (sent st) (failed st)).

Definition daily_limit : Z :=
  match DAILY_MESSAGE_LIMIT env with Some n => n | None => 45 end.

(** The state a run starts in: the record given, or a new one, with the
    running flag set and the counts announced; the local list is empty. *)
Definition initial_state (state0 : option SessionState) : SessionState :=
  match state0 with Some st => st | None => new_state end.

Definition start (count : Z) (state0 : option SessionState) (s : Sys) : Sys :=
  let st := initial_state state0 in
  {| state := set_remaining count (set_total count (set_is_running true st));
     local_results := []; clock := clock s;
     sheet_updates := sheet_updates s; deliveries := deliveries s;
     send_log := send_log s |}.

Definition type_error : exn :=
  {| exn_class_of := TypeError;
     exn_str := "expected str, bytes or os.PathLike object, not NoneType" |}.

(** The part of a run that the outer [try] guards, with its [except] and
    [finally] clauses and the [return] that follows. *)
Definition guarded_run (fuel : nat) (count delay : Z)
  (on_progress : option (SessionState -> result unit)) : M (list SendResult) :=
  early <- try_finally
             (try_except (guarded fuel count delay on_progress)
                (fun e => _log (CriticalError (exn_str e)) ;; ret None))
             finalizer ;;
  match early with
  | Some v => ret v
  | None => gets local_results
  end.

(** The exit taken when the image file is missing. *)
Definition image_missing (image_path : string) : M (list SendResult) :=
  _log (ImageNotFound image_path) ;;
  modify (with_state (set_is_running false)) ;;
  ret [].

Definition run_send_loop (fuel : nat) (count delay : Z)
  (state0 : option SessionState)
  (on_progress : option (SessionState -> result unit))
  : M (list SendResult) :=
  fun s =>
    let count := Z.min count daily_limit in
    let s := start count state0 s in
    match IMAGE_PATH env with
    | None => Some (s, Raise type_error)
    | Some image_path =>
        if negb (path_exists env image_path) then image_missing image_path s
        else guarded_run fuel count delay on_progress s
    end.

(** *** Reasoning about computations *)

(** [keeps R m]: whenever [m] ends, the states before and after it are
    related by [R], whether it returns or raises. *)
Definition keeps (R : Sys -> Sys -> Prop) {A} (m : M A) : Prop :=
  forall s s' r, m s = Some (s', r) -> R s s'.

(** [ends m]: [m] ends from every state. *)
Definition ends {A} (m : M A) : Prop := forall s, m s <> None.

(** *** The books of a run *)

(** The call of [write_status] a call of the delivery driver leads to:
    one for a call that returns and for a call that raises one of the
    three send errors, none for a call that raises anything else. *)
Definition status_of (d : delivery) : list status_update :=
  match dl_outcome d with
  | Return _ => [write_status (row_number (dl_contact d)) true]
  | Raise e =>
      if is_WhatsAppSendError e
      then [write_status (row_number (dl_contact d)) false]
      else []
  end.

Definition delivered (d : delivery) : bool :=
  match dl_outcome d with Return _ => true | Raise _ => false end.

(** Whether a call returned. *)
Definition returned {A} (r : result A) : bool :=
  match r with Return _ => true | Raise _ => false end.

Definition count_of (f : delivery -> bool) (ds : list delivery) : Z :=
  Z.of_nat (List.length (filter f ds)).

(** [accounted s s']: between [s] and [s'] the delivery driver was called
    for some contacts [ds]; the calls of [write_status] made since are
    those of [ds], in order, [sent] went up by the number of calls that
    returned and [failed] by the number of calls that raised. *)
Definition accounted (s s' : Sys) : Prop :=
  exists ds,
    deliveries s' = deliveries s ++ ds /\
    sheet_updates s' = sheet_updates s ++ flat_map status_of ds /\
    sent (state s') = (sent (state s) + count_of delivered ds)%Z /\
    failed (state s') =
      (failed (state s) + count_of (fun d => negb (delivered d)) ds)%Z.

(** [still s s']: no contact was worked on between [s] and [s']. *)
Definition still (s s' : Sys) : Prop :=
  deliveries s' = deliveries s /\
  sheet_updates s' = sheet_updates s /\
  local_results s' = local_results s /\
  results (state s') = results (state s) /\
  sent (state s') = sent (state s) /\
  failed (state s') = failed (state s).

(** The record of the call made for a contact from a state. *)
Definition delivery_of (c : Contact) (caption : pystr) (s : Sys) : delivery :=
  {| dl_contact := c; dl_caption := caption;
     dl_outcome := fst (send_whatsapp_message env c caption (clock s)) |}.

(** [early_exit m P]: when [m] asks for an early return of [v], [P v]
    holds and no contact was worked on; [runs_on m]: [m] never asks for
    one. *)
Definition early_exit {B} (m : M (option B)) (P : B -> Prop) : Prop :=
  forall s s' v, m s = Some (s', Return (Some v)) -> P v /\ still s s'.

Definition runs_on {B} (m : M (option B)) : Prop :=
  forall s s' v, m s <> Some (s', Return (Some v)).

(** *** More books *)

(** [idle s s']: between [s] and [s'] time may have passed and lines may
    have been logged, and nothing else has happened. *)
Definition idle (s s' : Sys) : Prop :=
  still s s' /\
  remaining (state s') = remaining (state s) /\
  total (state s') = total (state s) /\
  send_log s' = send_log s /\
  (clock s <= clock s')%nat.

(** [settled s s']: the books are as they were. *)
Definition settled (s s' : Sys) : Prop :=
  still s s' /\
  remaining (state s') = remaining (state s) /\
  total (state s') = total (state s).

(** [same_deliveries s s']: the delivery driver was called for no one. *)
Definition same_deliveries (s s' : Sys) : Prop := deliveries s' = deliveries s.

(** [recorded res s s']: between [s] and [s'] the outcome [res] was put on
    record, in the local list and in the shared record, and counted off
    [remaining]; time may have passed and lines may have been logged. *)
Definition recorded (res : SendResult) (s s' : Sys) : Prop :=
  local_results s' = local_results s ++ [res] /\
  results (state s') = results (state s) ++ [res] /\
  remaining (state s') = (remaining (state s) - 1)%Z /\
  total (state s') = total (state s) /\
  deliveries s' = deliveries s /\
  sheet_updates s' = sheet_updates s /\
  sent (state s') = sent (state s) /\
  failed (state s') = failed (state s) /\
  send_log s' = send_log s /\
  (clock s <= clock s')%nat.

(** [returns m]: [m] never raises. *)
Definition returns {A} (m : M A) : Prop :=
  forall s s' r, m s = Some (s', r) -> exists a, r = Return a.

(** [answers d res]: the outcome [res] is that of the call [d]: it has the
    contact of the call, and it says success when the call returned and the
    call of [write_status] that followed it, at the time of the outcome,
    returned as well. *)
Definition answers (d : delivery) (res : SendResult) : Prop :=
  contact res = dl_contact d /\
  success res =
    delivered d
    && returned (values_update env (write_status (row_number (dl_contact d)) true)
                   (timestamp res)).

(** [mirrored ds rs]: the outcomes [rs] are those of the calls [ds], one
    for one and in order; or they are those of all the calls but the last,
    which left no outcome. *)
Definition mirrored (ds : list delivery) (rs : list SendResult) : Prop :=
  Forall2 answers ds rs \/
  exists ds' d, ds = ds' ++ [d] /\ Forall2 answers ds' rs.

(** The caption of a call is the template filled in with the first name of
    its contact. *)
Definition captioned (d : delivery) : Prop :=
  format_template env (first_name (dl_contact d)) = Return (dl_caption d).

(** The row of a call, the outcomes that say success and those that do
    not. *)
Definition row_of (d : delivery) : Z := row_number (dl_contact d).

Definition successes (rs : list SendResult) : Z :=
  Z.of_nat (List.length (filter success rs)).

Definition failures (rs : list SendResult) : Z :=
  Z.of_nat (List.length (filter (fun r => negb (success r)) rs)).

(** The calls [ws] of [write_status] are for rows of the calls [ds]. *)
Definition written_for (ds : list delivery) (ws : list status_update) : Prop :=
  Forall (fun u => In (upd_row u) (map row_of ds)) ws.

(** [serving contacts s s' ds rs ws]: what the main loop does for
    [contacts] between [s] and [s']: the calls [ds] of the delivery driver,
    for the first of the contacts; the outcomes [rs], put on record and
    counted off [remaining]; the calls [ws] of [write_status]; [sent] up by
    the outcomes that say success, and [failed] by the others, and by one
    more at most for a call that left no outcome. *)
Record serving (contacts : list Contact) (s s' : Sys)
  (ds : list delivery) (rs : list SendResult) (ws : list status_update) : Prop := {
  sv_deliveries : deliveries s' = deliveries s ++ ds;
  sv_local : local_results s' = local_results s ++ rs;
  sv_results : results (state s') = results (state s) ++ rs;
  sv_updates : sheet_updates s' = sheet_updates s ++ ws;
  sv_remaining :
    remaining (state s') = (remaining (state s) - Z.of_nat (List.length rs))%Z;
  sv_total : total (state s') = total (state s);
  sv_log : send_log s' = send_log s;
  sv_contacts : map dl_contact ds = firstn (List.length ds) contacts;
  sv_captions : Forall captioned ds;
  sv_mirrored : mirrored ds rs;
  sv_rows : written_for ds ws;
  sv_sent : sent (state s') = (sent (state s) + successes rs)%Z;
  sv_failed :
    (failed (state s) + failures rs <= failed (state s')
     <= failed (state s) + failures rs
        + (Z.of_nat (List.length ds) - Z.of_nat (List.length rs)))%Z
}.

Definition served (contacts : list Contact) (s s' : Sys) : Prop :=
  exists ds rs ws, serving contacts s s' ds rs ws.

(** [booking contacts s0 s' ds ws]: the books of a run that started in
    [s0] and has come to [s'], for the pending contacts [contacts]. *)
Record booking (contacts : list Contact) (s0 s' : Sys)
  (ds : list delivery) (ws : list status_update) : Prop := {
  bk_deliveries : deliveries s' = deliveries s0 ++ ds;
  bk_updates : sheet_updates s' = sheet_updates s0 ++ ws;
  bk_contacts : map dl_contact ds = firstn (List.length ds) contacts;
  bk_captions : Forall captioned ds;
  bk_mirrored : mirrored ds (local_results s');
  bk_rows : written_for ds ws;
  bk_results : results (state s') = results (state s0) ++ local_results s';
  bk_remaining :
    remaining (state s') =
      (total (state s') - Z.of_nat (List.length (local_results s')))%Z;
  bk_sent : sent (state s') = (sent (state s0) + successes (local_results s'))%Z;
  bk_failed :
    (failed (state s0) + failures (local_results s') <= failed (state s')
     <= failed (state s0) + failures (local_results s')
        + (Z.of_nat (List.length ds) - Z.of_nat (List.length (local_results s'))))%Z
}.

Definition booked (contacts : list Contact) (s0 s' : Sys) : Prop :=
  exists ds ws, booking contacts s0 s' ds ws.

(** Two outcomes at least twenty seconds apart. *)
Definition apart (r1 r2 : SendResult) : Prop :=
  (timestamp r1 + 20 <= timestamp r2)%nat.

(** [paced s]: the outcomes on the local list are twenty seconds apart,
    each from all that follow it, and none is ahead of the clock;
    [rested s]: a stop has been asked for, or twenty seconds have passed
    since the last outcome. *)
Definition paced (s : Sys) : Prop :=
  StronglySorted apart (local_results s) /\
  Forall (fun r => (timestamp r <= clock s)%nat) (local_results s).

Definition rested (s : Sys) : Prop :=
  stop_requested env (clock s) = true \/
  Forall (fun r => (timestamp r + 20 <= clock s)%nat) (local_results s).

(** What follows the [try] statement in a pass of the loop: lines 215 to
    230, for the value [attempt] gave. *)
Definition after_attempt (delay : Z)
  (on_progress : option (SessionState -> result unit))
  (actual_count i : Z) (r : option SendResult) : M signal :=
  match r with
  | None => ret Break
  | Some result =>
      append_result result ;;
      modify (with_state (add_result result)) ;;
      modify (with_state (fun st => set_remaining (remaining st - 1) st)) ;;
      match on_progress with
      | Some callback => st <- gets state ;; lift (callback st)
      | None => ret tt
      end ;;
      stop <- read_should_stop ;;
      (if (i <? actual_count - 1)%Z && negb stop
       then inter_message_delay delay i
       else ret tt) ;;
      ret Next
  end.

(** *** The sheet after a run *)

(** The text the sheet gives for a number stored in a cell, and the sheet
    after the updates of [write_status] have reached it. *)
Definition status_text (value : Z) : pystr := py (str_of_int value).

Definition sheet_after (updates : list status_update) (all_rows : sheet_values)
  : sheet_values :=
  fold_left
    (fun rows u => with_status (upd_row u) (status_text (upd_value u)) rows)
    updates all_rows.

(** Whether one of [updates] wrote the status cell of the row of [c]. *)
Definition written (updates : list status_update) (c : Contact) : bool :=
  existsb (fun u => (upd_row u =? row_number c)%Z) updates.

End Orchestrator.

(** *** Runs *)

Definition empty_sys : Sys :=
  {| state := new_state; local_results := []; clock := 0;
     sheet_updates := []; deliveries := []; send_log := None |}.

(** A sheet with three pending contacts; the second delivery times out,
    the others succeed; the image is there, the browser answers, and the
    dashboard asks for a stop a hundred seconds into the run. *)
Definition three_contacts : Env :=
  {| DAILY_MESSAGE_LIMIT := None;
     IMAGE_PATH := Some "image.png"%string;
     path_exists := fun _ => true;
     format_template := fun name => Return (py "Hi " ++ name);
     connect := Return tt;
     windows := Return [Return false; Return true];
     open_whatsapp := Return tt;
     sheet := [ [py "Status"; py "ID"; py "Sort Name"; py "Phone"];
                [[]; py "1"; py "Lauren, David"; py "+1 347 551-1532"];
                [[]; py "2"; py "Nourafchan, Moshe"; py "+972 52 599-7530"];
                [[]; py "3"; py "Dana"; py "16145541758"] ];
     sheet_read := Return tt;
     values_update := fun _ _ => Return tt;
     send_whatsapp_message := fun c _ _ =>
       if (row_number c =? 3)%Z
       then (Raise {| exn_class_of := SendTimeoutError;
                      exn_str := "Could not verify message was sent" |}, 40%nat)
       else (Return true, 30%nat);
     is_whatsapp_connected := fun _ => true;
     random := fun _ => 3 # 8;
     write_log_file := fun _ => LogWritten;
     stop_requested := fun t => Nat.leb 100 t;
     pause_requested := fun _ => false |}.

(** The same, with no file at the image path. *)
Definition image_gone : Env :=
  {| DAILY_MESSAGE_LIMIT := None;
     IMAGE_PATH := Some "image.png"%string;
     path_exists := fun _ => false;
     format_template := format_template three_contacts;
     connect := Return tt;
     windows := Return [Return false; Return true];
     open_whatsapp := Return tt;
     sheet := sheet three_contacts;
     sheet_read := Return tt;
     values_update := fun _ _ => Return tt;
     send_whatsapp_message := send_whatsapp_message three_contacts;
     is_whatsapp_connected := fun _ => true;
     random := fun _ => 3 # 8;
     write_log_file := fun _ => LogWritten;
     stop_requested := fun _ => false;
     pause_requested := fun _ => false |}.

(** The same, with [IMAGE_PATH] not set. *)
Definition image_unset : Env :=
  {| DAILY_MESSAGE_LIMIT := None;
     IMAGE_PATH := None;
     path_exists := fun _ => true;
     format_template := format_template three_contacts;
     connect := Return tt;
     windows := Return [Return false; Return true];
     open_whatsapp := Return tt;
     sheet := sheet three_contacts;
     sheet_read := Return tt;
     values_update := fun _ _ => Return tt;
     send_whatsapp_message := send_whatsapp_message three_contacts;
     is_whatsapp_connected := fun _ => true;
     random := fun _ => 3 # 8;
     write_log_file := fun _ => LogWritten;
     stop_requested := fun _ => false;
     pause_requested := fun _ => false |}.

(** The same as [three_contacts], with a sheet that has its header only. *)
Definition nothing_pending : Env :=
  {| DAILY_MESSAGE_LIMIT := None;
     IMAGE_PATH := Some "image.png"%string;
     path_exists := fun _ => true;
     format_template := format_template three_contacts;
     connect := Return tt;
     windows := Return [Return true];
     open_whatsapp := Return tt;
     sheet := [ [py "Status"; py "ID"; py "Sort Name"; py "Phone"] ];
     sheet_read := Return tt;
     values_update := fun _ _ => Return tt;
     send_whatsapp_message := send_whatsapp_message three_contacts;
     is_whatsapp_connected := fun _ => true;
     random := fun _ => 3 # 8;
     write_log_file := fun _ => LogWritten;
     stop_requested := fun _ => false;
     pause_requested := fun _ => false |}.


(** The same, with [MESSAGE_TEMPLATE] not set. *)
Definition no_template : Env :=
  {| DAILY_MESSAGE_LIMIT := None;
     IMAGE_PATH := Some "image.png"%string;
     path_exists := fun _ => true;
     format_template := fun _ =>
       Raise {| exn_class_of := AttributeError;
                exn_str := "'NoneType' object has no attribute 'format'" |};
     connect := Return tt;
     windows := Return [Return true];
     open_whatsapp := Return tt;
     sheet := sheet three_contacts;
     sheet_read := Return tt;
     values_update := fun _ _ => Return tt;
     send_whatsapp_message := send_whatsapp_message three_contacts;
     is_whatsapp_connected := fun _ => true;
     random := fun _ => 3 # 8;
     write_log_file := fun _ => LogWritten;
     stop_requested := fun _ => false;
     pause_requested := fun _ => false |}.

(** The same, with a dashboard that holds the run paused for the first
    three seconds and asks for a stop at the third. *)
Definition paused_then_stopped : Env :=
  {| DAILY_MESSAGE_LIMIT := None;
     IMAGE_PATH := Some "image.png"%string;
     path_exists := fun _ => true;
     format_template := format_template three_contacts;
     connect := Return tt;
     windows := Return [Return true];
     open_whatsapp := Return tt;
     sheet := sheet three_contacts;
     sheet_read := Return tt;
     values_update := fun _ _ => Return tt;
     send_whatsapp_message := send_whatsapp_message three_contacts;
     is_whatsapp_connected := fun _ => true;
     random := fun _ => 3 # 8;
     write_log_file := fun _ => LogWritten;
     stop_requested := fun t => Nat.leb 3 t;
     pause_requested := fun t => Nat.ltb t 3 |}.

(** The three contacts again, with the Sheets service out of reach: every
    call of [write_status] raises. *)
Definition sheet_down : Env :=
  {| DAILY_MESSAGE_LIMIT := None;
     IMAGE_PATH := Some "image.png"%string;
     path_exists := fun _ => true;
     format_template := format_template three_contacts;
     connect := Return tt;
     windows := Return [Return false; Return true];
     open_whatsapp := Return tt;
     sheet := sheet three_contacts;
     sheet_read := Return tt;
     values_update := fun _ _ =>
       Raise {| exn_class_of := Other "HttpError";
                exn_str := "<HttpError 503 when requesting the update of the range>" |};
     send_whatsapp_message := send_whatsapp_message three_contacts;
     is_whatsapp_connected := fun _ => true;
     random := fun _ => 3 # 8;
     write_log_file := fun _ => LogWritten;
     stop_requested := fun t => Nat.leb 100 t;
     pause_requested := fun _ => false |}.

(** The three contacts again, with a page on which the attachment button
    is not found: every delivery raises the [TimeoutException] of the
    resolver. *)
Definition button_missing : Env :=
  {| DAILY_MESSAGE_LIMIT := None;
     IMAGE_PATH := Some "image.png"%string;
     path_exists := fun _ => true;
     format_template := format_template three_contacts;
     connect := Return tt;
     windows := Return [Return false; Return true];
     open_whatsapp := Return tt;
     sheet := sheet three_contacts;
     sheet_read := Return tt;
     values_update := fun _ _ => Return tt;
     send_whatsapp_message := fun _ _ _ =>
       (Raise {| exn_class_of := TimeoutException;
                 exn_str :=
                   ("Message: Could not find clickable element 'attach_button'. "
                    ++ "Last error: Message: " ++ nl ++ nl)%string |}, 35%nat);
     is_whatsapp_connected := fun _ => true;
     random := fun _ => 3 # 8;
     write_log_file := fun _ => LogWritten;
     stop_requested := fun t => Nat.leb 100 t;
     pause_requested := fun _ => false |}.

(** The three contacts again, with a log file that cannot be written: the
    file is opened, and [json.dump] raises. *)
Definition log_unwritable : Env :=
  {| DAILY_MESSAGE_LIMIT := None;
     IMAGE_PATH := Some "image.png"%string;
     path_exists := fun _ => true;
     format_template := format_template three_contacts;
     connect := Return tt;
     windows := Return [Return false; Return true];
     open_whatsapp := Return tt;
     sheet := sheet three_contacts;
     sheet_read := Return tt;
     values_update := fun _ _ => Return tt;
     send_whatsapp_message := send_whatsapp_message three_contacts;
     is_whatsapp_connected := fun _ => true;
     random := fun _ => 3 # 8;
     write_log_file := fun _ =>
       LogFailed true {| exn_class_of := Other "OSError";
                         exn_str := "[Errno 28] No space left on device" |};
     stop_requested := fun t => Nat.leb 100 t;
     pause_requested := fun _ => false |}.

End SendMessages.

(** * The properties *)

Import PyStr GoogleSheets WhatsAppSender SendMessages.
Local Open Scope py_scope.

(** ** Lists and texts *)

Lemma firstn_In {A} (n : nat) (l : list A) (x : A) :
  In x (firstn n l) -> In x l.
Proof.
  intros H. rewrite <- (firstn_skipn n l). apply in_or_app. now left.
Qed.

Lemma string_app_assoc (a b c : string) : ((a ++ b) ++ c = a ++ b ++ c)%string.
Proof. induction a as [|x a IH]; [reflexivity|]. simpl. now rewrite IH. Qed.

(** ** Floating-point numbers *)






(** ** Python strings *)

Section StrFacts.
Context {db : UnicodeDB}.

(** *** Facts about stripping *)

Lemma lstrip_nil_iff s : lstrip s = [] <-> blank s = true.
Proof.
  induction s as [|c r IH]; simpl; [tauto|].
  destruct (isspace c); simpl; [exact IH|].
  split; discriminate.
Qed.

Lemma blank_rev s : blank (rev s) = blank s.
Proof.
  unfold blank. induction s as [|c r IH]; simpl; [reflexivity|].
  rewrite forallb_app, IH. simpl. rewrite andb_true_r. apply andb_comm.
Qed.

Lemma lstrip_suffix s : exists p, s = p ++ lstrip s /\ blank p = true.
Proof.
  induction s as [|c r [p [Hp Hb]]]; simpl.
  - exists []. split; reflexivity.
  - destruct (isspace c) eqn:E.
    + exists (c :: p). simpl. rewrite E, Hb. split; [now f_equal|reflexivity].
    + exists []. split; reflexivity.
Qed.

Lemma blank_app p q : blank (p ++ q) = blank p && blank q.
Proof. apply forallb_app. Qed.

Lemma blank_lstrip s : blank (lstrip s) = blank s.
Proof.
  destruct (lstrip_suffix s) as [p [Hp Hb]].
  rewrite Hp at 2. rewrite blank_app, Hb. reflexivity.
Qed.

Lemma rstrip_nil_iff s : rstrip s = [] <-> blank s = true.
Proof.
  unfold rstrip. rewrite <- (blank_rev s), <- lstrip_nil_iff.
  split; intros H.
  - apply (f_equal (@rev char)) in H. rewrite rev_involutive in H. exact H.
  - rewrite H. reflexivity.
Qed.

Lemma strip_nil_iff s : strip s = [] <-> blank s = true.
Proof. unfold strip. rewrite rstrip_nil_iff. now rewrite blank_lstrip. Qed.

Lemma truthy_false_iff s : truthy s = false <-> s = [].
Proof. destruct s; simpl; split; congruence. Qed.

Lemma truthy_true_iff s : truthy s = true <-> s <> [].
Proof. destruct s; simpl; split; congruence. Qed.

Lemma truthy_strip s : truthy (strip s) = negb (blank s).
Proof.
  destruct (blank s) eqn:E.
  - apply strip_nil_iff in E. now rewrite E.
  - simpl. apply truthy_true_iff. intros H. apply strip_nil_iff in H. congruence.
Qed.

(** *** Facts about partitioning *)

Lemma partition_app sep before after :
  ~ In sep before ->
  partition sep (before ++ sep :: after) = (before, Some after).
Proof.
  induction before as [|c r IH]; simpl; intros Hn.
  - now rewrite N.eqb_refl.
  - destruct (N.eqb_spec c sep) as [->|_]; [tauto|].
    rewrite IH; [reflexivity|tauto].
Qed.

Lemma partition_none sep s :
  contains sep s = false -> partition sep s = (s, None).
Proof.
  unfold contains. induction s as [|c r IH]; simpl; [reflexivity|].
  rewrite N.eqb_sym. destruct (c =? sep)%N; simpl; [discriminate|].
  intros H. now rewrite IH.
Qed.

Lemma contains_split sep s :
  contains sep s = true ->
  exists before after, s = before ++ sep :: after /\ ~ In sep before.
Proof.
  unfold contains. induction s as [|c r IH]; simpl; [discriminate|].
  destruct (N.eqb_spec sep c) as [->|Hne]; simpl.
  - intros _. exists [], r. split; [reflexivity|tauto].
  - intros H. destruct (IH H) as [b [a [-> Hb]]].
    exists (c :: b), a. split; [reflexivity|].
    simpl. intros [Hc|Hc]; [congruence|tauto].
Qed.

Lemma contains_app sep before after :
  contains sep (before ++ sep :: after) = true.
Proof.
  unfold contains. rewrite existsb_app. simpl. rewrite N.eqb_refl.
  now rewrite orb_true_r.
Qed.

Lemma contains_not_blank s : contains comma s = true -> blank s = false.
Proof.
  unfold contains, blank.
  induction s as [|c r IH]; cbn [existsb forallb]; [discriminate|].
  destruct (N.eqb_spec comma c) as [<-|_]; cbn [orb].
  - reflexivity.
  - intros H. rewrite (IH H). apply andb_false_r.
Qed.

End StrFacts.

(** ** The contact source *)

Section SheetFacts.
Context {db : UnicodeDB}.

(** *** First names *)

Lemma truthy_there : truthy there = true.
Proof. reflexivity. Qed.

Lemma extract_first_name_blank s :
  blank s = true -> extract_first_name s = there.
Proof.
  intros Hb. unfold extract_first_name.
  rewrite truthy_strip, Hb. simpl. now rewrite orb_true_r.
Qed.

Lemma not_blank_truthy s : blank s = false -> truthy s = true.
Proof. destruct s; [discriminate|reflexivity]. Qed.

Lemma extract_first_name_comma before after :
  ~ In comma before ->
  extract_first_name (before ++ comma :: after) =
  if truthy (strip after) then strip after else there.
Proof.
  intros Hn. unfold extract_first_name.
  pose proof (contains_app comma before after) as Hc.
  pose proof (contains_not_blank _ Hc) as Hb.
  rewrite truthy_strip, Hb, (not_blank_truthy _ Hb), Hc.
  cbn [negb orb]. unfold split1. rewrite (partition_app _ _ _ Hn).
  reflexivity.
Qed.

Lemma extract_first_name_plain s :
  contains comma s = false -> blank s = false ->
  extract_first_name s = strip s.
Proof.
  intros Hc Hb. unfold extract_first_name.
  now rewrite truthy_strip, Hb, (not_blank_truthy _ Hb), Hc.
Qed.

(** *** Phone numbers *)

Lemma normalize_phone_filter s : normalize_phone s = filter isdigit s.
Proof. destruct s; reflexivity. Qed.

(** *** Pending contacts *)

Lemma nth_pad4 k row : nth k (pad4 row) [] = nth k row [].
Proof.
  unfold pad4. destruct (Nat.lt_ge_cases k (List.length row)) as [Hlt|Hge].
  - now apply app_nth1.
  - rewrite app_nth2 by exact Hge. rewrite nth_repeat.
    symmetry. now apply nth_overflow.
Qed.

Lemma pending_loop_spec limit rows : forall idx contacts,
  pending_loop limit idx rows contacts =
  contacts ++ firstn (Z.to_nat limit - List.length contacts) (pending_from idx rows).
Proof.
  induction rows as [|row rest IH]; intros idx contacts.
  - simpl. rewrite firstn_nil. now rewrite app_nil_r.
  - cbn [pending_loop pending_from].
    destruct (Z.geb_spec (Z.of_nat (List.length contacts)) limit) as [Hfull|Hroom].
    + replace (Z.to_nat limit - List.length contacts)%nat with 0%nat by lia.
      simpl. now rewrite app_nil_r.
    + rewrite !nth_pad4. unfold status_empty, survives_exclusion, cell.
      destruct (truthy (strip (nth 0 row []))); cbn [negb andb]; [apply IH|].
      destruct (truthy (strip (nth 3 row []))); cbn [negb andb]; [|apply IH].
      destruct (truthy (normalize_phone (strip (nth 3 row [])))); cbn [negb]; [|apply IH].
      rewrite IH. rewrite <- app_assoc, length_app. cbn [List.length app].
      replace (Z.to_nat limit - List.length contacts)%nat
        with (S (Z.to_nat limit - (List.length contacts + 1)))%nat by lia.
      reflexivity.
Qed.

Lemma pending_from_phone idx rows :
  Forall (fun c => truthy (phone_clean c) = true) (pending_from idx rows).
Proof.
  revert idx. induction rows as [|row rest IH]; intros idx; simpl.
  - constructor.
  - destruct (status_empty row); cbn [andb]; [|apply IH].
    unfold survives_exclusion.
    destruct (truthy (cell 3 row)); cbn [andb]; [|apply IH].
    destruct (truthy (normalize_phone (cell 3 row))) eqn:E; [|apply IH].
    constructor; [exact E|apply IH].
Qed.

Lemma pending_from_rows idx rows :
  Forall (fun c => (idx <= row_number c)%Z) (pending_from idx rows).
Proof.
  revert idx. induction rows as [|row rest IH]; intros idx; simpl.
  - constructor.
  - assert (Forall (fun c => (idx <= row_number c)%Z) (pending_from (idx + 1) rest)).
    { eapply Forall_impl; [|apply IH]. simpl. intros. lia. }
    destruct (status_empty row && survives_exclusion row); [|assumption].
    constructor; [simpl; lia|assumption].
Qed.

Lemma pending_from_sorted idx rows :
  StronglySorted Z.lt (map row_number (pending_from idx rows)).
Proof.
  revert idx. induction rows as [|row rest IH]; intros idx; simpl.
  - constructor.
  - destruct (status_empty row && survives_exclusion row); [|apply IH].
    simpl. constructor; [apply IH|].
    rewrite Forall_map. eapply Forall_impl; [|apply pending_from_rows].
    simpl. intros. lia.
Qed.

(** Every pending contact is built from the sheet row its row number
    names, and that row has an empty status and survives exclusion. *)
Lemma pending_from_source idx rows c :
  In c (pending_from idx rows) ->
  exists row,
    nth_error rows (Z.to_nat (row_number c - idx)) = Some row /\
    (idx <= row_number c)%Z /\
    status_empty row = true /\ survives_exclusion row = true /\
    c = contact_of_row (row_number c) row.
Proof.
  revert idx. induction rows as [|row rest IH]; intros idx; simpl; [tauto|].
  assert (Hrest : In c (pending_from (idx + 1) rest) ->
    exists row0,
      nth_error (row :: rest) (Z.to_nat (row_number c - idx)) = Some row0 /\
      (idx <= row_number c)%Z /\
      status_empty row0 = true /\ survives_exclusion row0 = true /\
      c = contact_of_row (row_number c) row0).
  { intros Hin. destruct (IH _ Hin) as [r [Hn [Hle [Hs [Hx Hc]]]]].
    exists r. repeat split; try assumption; try lia.
    replace (Z.to_nat (row_number c - idx)) with (S (Z.to_nat (row_number c - (idx + 1)))) by lia.
    exact Hn. }
  destruct (status_empty row) eqn:Es; cbn [andb]; [|exact Hrest].
  destruct (survives_exclusion row) eqn:Ex; [|exact Hrest].
  intros [<-|Hin]; [|exact (Hrest Hin)].
  exists row. cbn [row_number contact_of_row]. rewrite Z.sub_diag.
  repeat split; try assumption; try reflexivity; lia.
Qed.

(** And every such row yields a pending contact. *)
Lemma pending_from_complete idx rows k row :
  nth_error rows k = Some row ->
  status_empty row = true -> survives_exclusion row = true ->
  In (contact_of_row (idx + Z.of_nat k) row) (pending_from idx rows).
Proof.
  revert idx k. induction rows as [|r rest IH]; intros idx k Hn Hs Hx.
  - destruct k; discriminate.
  - destruct k as [|k]; simpl in Hn.
    + injection Hn as ->. simpl. rewrite Hs, Hx. simpl. left. f_equal. lia.
    + specialize (IH (idx + 1)%Z k Hn Hs Hx).
      replace (idx + Z.of_nat (S k))%Z with (idx + 1 + Z.of_nat k)%Z by lia.
      simpl. destruct (status_empty r && survives_exclusion r); [now right|assumption].
Qed.

Lemma all_pending_iff all_rows c :
  In c (all_pending all_rows) <->
  exists k row,
    nth_error all_rows (S k) = Some row /\
    status_empty row = true /\ survives_exclusion row = true /\
    c = contact_of_row (2 + Z.of_nat k) row.
Proof.
  unfold all_pending. split.
  - intros Hin. destruct (pending_from_source _ _ _ Hin) as [row [Hn [Hle [Hs [Hx Hc]]]]].
    exists (Z.to_nat (row_number c - 2)), row.
    repeat split; try assumption.
    + destruct all_rows; [destruct (Z.to_nat _); discriminate|exact Hn].
    + rewrite Hc at 1. f_equal. lia.
  - intros [k [row [Hn [Hs [Hx ->]]]]].
    apply pending_from_complete; try assumption.
    destruct all_rows; [discriminate|exact Hn].
Qed.

(** *** The claims about the contact source *)

(** C4, as amended: when the sort name has a comma, [extract_first_name]
    returns the trimmed text after the first comma if that text is not
    empty, and the fallback "there" if it is; a comma-free name that is
    not blank is returned trimmed; an empty or whitespace-only name gives
    "there"; "Lorenzo Nourafchan, Moshe" gives "Moshe". *)
Theorem extract_first_name_cases :
  (forall before after, ~ In comma before ->
     extract_first_name (before ++ comma :: after) =
     if truthy (strip after) then strip after else there) /\
  (forall s, contains comma s = false -> blank s = false ->
     extract_first_name s = strip s) /\
  (forall s, blank s = true -> extract_first_name s = there) /\
  extract_first_name (py "Lorenzo Nourafchan, Moshe") = py "Moshe".
Proof.
  split; [|split; [|split]].
  - exact extract_first_name_comma.
  - exact extract_first_name_plain.
  - exact extract_first_name_blank.
  - reflexivity.
Qed.

(** C10: [extract_first_name] never returns the empty string; a comma
    followed by whitespace only, as in "Smith, ", gives "there". *)
Theorem extract_first_name_nonempty :
  (forall s, truthy (extract_first_name s) = true) /\
  extract_first_name (py "Smith, ") = py "there".
Proof.
  split; [|reflexivity].
  intros s. destruct (blank s) eqn:Hb.
  - now rewrite extract_first_name_blank.
  - destruct (contains comma s) eqn:Hc.
    + destruct (contains_split _ _ Hc) as [before [after [-> Hn]]].
      rewrite extract_first_name_comma by exact Hn.
      destruct (truthy (strip after)) eqn:E; [exact E|reflexivity].
    + rewrite extract_first_name_plain by assumption.
      now rewrite truthy_strip, Hb.
Qed.

(** C5: [normalize_phone] keeps exactly the digit characters of its input,
    in their order and number: it is the filter of the input by
    [str.isdigit], which distributes over concatenation and keeps or drops
    each character on its own; "+1 347 551-1532" gives "13475511532" and
    the empty string gives the empty string. *)
Theorem normalize_phone_digits :
  (forall s, normalize_phone s = filter isdigit s) /\
  (forall s, Forall (fun c => isdigit c = true) (normalize_phone s)) /\
  (forall a b, normalize_phone (a ++ b) = normalize_phone a ++ normalize_phone b) /\
  (forall c, normalize_phone [c] = if isdigit c then [c] else []) /\
  (forall s c, isdigit c = true ->
     count_occ N.eq_dec (normalize_phone s) c = count_occ N.eq_dec s c) /\
  normalize_phone (py "+1 347 551-1532") = py "13475511532" /\
  normalize_phone [] = [].
Proof.
  split; [exact normalize_phone_filter|].
  split.
  { intros s. rewrite normalize_phone_filter. apply Forall_forall.
    intros c Hc. now apply filter_In in Hc. }
  split.
  { intros a b. rewrite !normalize_phone_filter. apply filter_app. }
  split.
  { intros c. rewrite normalize_phone_filter. reflexivity. }
  split; [|split; reflexivity].
  intros s c Hd. rewrite normalize_phone_filter.
  induction s as [|x r IH]; [reflexivity|].
  cbn [filter]. destruct (isdigit x) eqn:Ex.
  - cbn [count_occ]. destruct (N.eq_dec x c); now rewrite IH.
  - cbn [count_occ]. destruct (N.eq_dec x c) as [->|_]; [congruence|exact IH].
Qed.

(** C9: [get_pending_contacts] returns the first [limit] pending contacts
    of the sheet: the data rows (the header apart) whose status cell is
    empty and that are not excluded for want of a phone, in row order;
    it returns at most [limit] of them, and each has a non-empty
    [phone_clean]. *)
Theorem get_pending_contacts_spec limit all_rows :
  get_pending_contacts limit all_rows =
    firstn (Z.to_nat limit) (all_pending all_rows) /\
  (forall c, In c (all_pending all_rows) <->
     exists k row,
       nth_error all_rows (S k) = Some row /\
       status_empty row = true /\ survives_exclusion row = true /\
       c = contact_of_row (2 + Z.of_nat k) row) /\
  (Z.of_nat (List.length (get_pending_contacts limit all_rows)) <= Z.max 0 limit)%Z /\
  StronglySorted Z.lt (map row_number (get_pending_contacts limit all_rows)) /\
  Forall (fun c => truthy (phone_clean c) = true)
    (get_pending_contacts limit all_rows).
Proof.
  assert (E : get_pending_contacts limit all_rows =
              firstn (Z.to_nat limit) (all_pending all_rows)).
  { unfold get_pending_contacts, all_pending. rewrite pending_loop_spec.
    cbn [List.length app]. now rewrite Nat.sub_0_r. }
  split; [exact E|]. split; [apply all_pending_iff|]. rewrite E.
  split; [|split].
  - pose proof (firstn_le_length (Z.to_nat limit) (all_pending all_rows)).
    pose proof (length_firstn (Z.to_nat limit) (all_pending all_rows)). lia.
  - unfold all_pending.
    generalize (pending_from_sorted 2 (tl all_rows)).
    generalize (pending_from 2 (tl all_rows)). intros l.
    generalize (Z.to_nat limit). intros n Hs. revert n.
    induction l as [|c r IH]; intros n; [now rewrite firstn_nil|].
    destruct n; [constructor|]. cbn [firstn map] in Hs |- *.
    apply StronglySorted_inv in Hs. destruct Hs as [Hs Hc].
    constructor; [now apply IH|].
    rewrite Forall_map in Hc |- *. rewrite Forall_forall in Hc |- *.
    intros x Hx. apply Hc. apply firstn_In in Hx. exact Hx.
  - unfold all_pending. apply Forall_forall. intros c Hc.
    pose proof (pending_from_phone 2 (tl all_rows)) as H.
    rewrite Forall_forall in H. apply H.
    eapply firstn_In; exact Hc.
Qed.

End SheetFacts.

(** C4, as the claim states it, fails on "Smith, ": the text after the
    comma trims to the empty string, and the function returns "there". *)
Lemma extract_first_name_comma_blank :
  let s := py "Smith, " in
  @contains comma s = true /\
  snd (partition comma s) = Some (py " ") /\
  @strip ascii_db (py " ") = [] /\
  @extract_first_name ascii_db s = py "there" /\
  @extract_first_name ascii_db s <> @strip ascii_db (py " ").
Proof. repeat split; try reflexivity. discriminate. Qed.

(** The amended C4 at "Lauren, David", " David " and "   ". *)
Lemma extract_first_name_cases_run :
  @extract_first_name ascii_db (py "Lauren, David") = py "David" /\
  @extract_first_name ascii_db (py " David ") = py "David" /\
  @extract_first_name ascii_db (py "   ") = py "there".
Proof.
  destruct (@extract_first_name_cases ascii_db) as [Hc [Hp [Hb _]]].
  split; [|split].
  - apply (Hc (py "Lauren") (py " David")). vm_compute. intuition discriminate.
  - apply (Hp (py " David ")); reflexivity.
  - apply (Hb (py "   ")); reflexivity.
Defined.

(** ** The selector resolver *)

Section ResolverFacts.
Context {driver : WebDriver}.

(** *** Facts about the resolver *)


Lemma try_selectors_none cond message timeout locs :
  forall last b b' last',
  all_time_out cond timeout locs last b = Some (b', last') ->
  try_selectors cond message locs timeout last b =
  (b', Raise {| exn_class_of := TimeoutException;
                exn_str := selenium_str (message last') |}).
Proof.
  induction locs as [|p locs IH]; intros last b b' last' H.
  - injection H as <- <-. reflexivity.
  - simpl in H |- *.
    destruct (wait_until cond p timeout b) as [b1 [x|e]]; [discriminate|].
    destruct (is_TimeoutException e); [|discriminate].
    now apply IH.
Qed.



Lemma resolver_unfold cond selector_key timeout b selectors :
  lookup selector_key SELECTORS = Some selectors ->
  resolver cond selector_key timeout b =
  try_selectors cond (resolver_message cond selector_key) selectors timeout None b.
Proof.
  intros H. destruct cond; simpl;
    unfold find_element_with_fallbacks, find_clickable_with_fallbacks;
    now rewrite H.
Qed.


End ResolverFacts.


(** ** The session connector *)

Section ConnectorFacts.
Context {machine : Machine}.

(** *** Facts about the connector *)

Lemma tick_tick h a b c d : tick (tick h a b) c d = tick h (a + c) (b + d).
Proof. unfold tick. simpl. f_equal; lia. Qed.

Lemma wait_for_port_found port n : forall k h,
  (k < n)%nat ->
  (forall j, (j < k)%nat -> port_listening (launched h) (slept h + j) port = false) ->
  port_listening (launched h) (slept h + k) port = true ->
  wait_for_port n port h = (tick h k (k + 1), true).
Proof.
  induction n as [|n IH]; intros k h Hk Hbefore Hat; [lia|].
  cbn [wait_for_port]. unfold _is_port_open.
  destruct k as [|k].
  - rewrite Nat.add_0_r in Hat. rewrite Hat. reflexivity.
  - rewrite <- (Nat.add_0_r (slept h)) at 1. rewrite (Hbefore 0%nat) by lia.
    rewrite (IH k).
    + rewrite !tick_tick; f_equal; unfold tick; f_equal; lia.
    + lia.
    + intros j Hj. cbn [tick launched slept].
      replace (slept h + 0 + 1 + j)%nat with (slept h + S j)%nat by lia.
      apply Hbefore. lia.
    + cbn [tick launched slept].
      replace (slept h + 0 + 1 + k)%nat with (slept h + S k)%nat by lia.
      exact Hat.
Qed.

Lemma wait_for_port_never port n : forall h,
  (forall j, (j < n)%nat -> port_listening (launched h) (slept h + j) port = false) ->
  wait_for_port n port h = (tick h n n, false).
Proof.
  induction n as [|n IH]; intros h Hnever.
  - simpl. unfold tick. destruct h; simpl. f_equal. f_equal; lia.
  - cbn [wait_for_port]. unfold _is_port_open.
    rewrite <- (Nat.add_0_r (slept h)) at 1. rewrite (Hnever 0%nat) by lia.
    rewrite IH.
    + rewrite !tick_tick; f_equal; unfold tick; f_equal; lia.
    + intros j Hj. cbn [tick launched slept].
      replace (slept h + 0 + 1 + j)%nat with (slept h + S j)%nat by lia.
      apply Hnever. lia.
Qed.

Lemma makedirs_returns dir h :
  os_makedirs dir h = Return tt -> makedirs dir h = (made dir h, Return tt).
Proof. intros H. unfold makedirs. now rewrite H. Qed.

Lemma makedirs_raises dir h e :
  os_makedirs dir h = Raise e -> makedirs dir h = (h, Raise e).
Proof. intros H. unfold makedirs. now rewrite H. Qed.

Lemma popen_returns cmd h :
  subprocess_Popen cmd h = Return tt -> popen cmd h = (started cmd h, Return tt).
Proof. intros H. unfold popen. now rewrite H. Qed.

Lemma popen_raises cmd h e :
  subprocess_Popen cmd h = Raise e -> popen cmd h = (h, Raise e).
Proof. intros H. unfold popen. now rewrite H. Qed.

(** C7, as amended: one probe of the port decides.  When the port
    answers, the connector returns without starting a browser.  When it
    does not, the connector makes the profile directory and starts one
    browser with remote debugging on that port and the profile directory
    as its user-data directory; the error of [os.makedirs] or of
    [subprocess.Popen], if one raises, is raised at once and the port is
    not probed again.  Otherwise the connector probes the port every half
    second, at most twice [launch_timeout] times: it returns at the first
    probe that answers, and raises the launch error (a [RuntimeError], the
    specification's ConnectorError) once every probe has failed. *)
Theorem ensure_chrome_ready_spec debug_port chrome_path profile_dir launch_timeout h :
  let profile := resolved_profile_dir profile_dir in
  let cmd :=
    [ resolved_chrome_path chrome_path;
      "--remote-debugging-port=" ++ str_of_int debug_port;
      "--user-data-dir=" ++ profile;
      "--no-first-run";
      "--no-default-browser-check" ]%string in
  let h0 := tick h 0 1 in
  let polls := Z.to_nat (launch_timeout * 2) in
  (port_listening (launched h) (slept h) debug_port = true ->
     ensure_chrome_ready debug_port chrome_path profile_dir launch_timeout h =
     (h0, Return tt) /\
     create_driver debug_port chrome_path profile_dir h =
     webdriver_Chrome ("127.0.0.1:" ++ str_of_int debug_port)%string h0) /\
  (port_listening (launched h) (slept h) debug_port = false ->
     (forall e,
        os_makedirs profile h0 = Raise e ->
        ensure_chrome_ready debug_port chrome_path profile_dir launch_timeout h =
        (h0, Raise e)) /\
     (forall e,
        os_makedirs profile h0 = Return tt ->
        subprocess_Popen cmd (made profile h0) = Raise e ->
        ensure_chrome_ready debug_port chrome_path profile_dir launch_timeout h =
        (made profile h0, Raise e)) /\
     (os_makedirs profile h0 = Return tt ->
      subprocess_Popen cmd (made profile h0) = Return tt ->
      let h1 := started cmd (made profile h0) in
      launched h1 = launched h ++ [cmd] /\
      (forall k, (k < polls)%nat ->
         (forall j, (j < k)%nat ->
            port_listening (launched h1) (slept h + j) debug_port = false) ->
         port_listening (launched h1) (slept h + k) debug_port = true ->
         ensure_chrome_ready debug_port chrome_path profile_dir launch_timeout h =
         (tick h1 k (k + 1), Return tt)) /\
      ((forall j, (j < polls)%nat ->
          port_listening (launched h1) (slept h + j) debug_port = false) ->
       ensure_chrome_ready debug_port chrome_path profile_dir launch_timeout h =
       (tick h1 polls polls,
        Raise {| exn_class_of := RuntimeError;
                 exn_str :=
                   ("Chrome did not start with remote-debugging on port "
                    ++ str_of_int debug_port ++ " within "
                    ++ str_of_int launch_timeout
                    ++ "s.  Check CHROME_PATH in .env.")%string |})))).
Proof.
  intros profile cmd h0 polls.
  unfold create_driver, ensure_chrome_ready, _is_port_open.
  split; intros Hp; rewrite Hp; [split; reflexivity|].
  fold profile. change (launch_command (resolved_chrome_path chrome_path) debug_port profile)
    with cmd. fold h0. fold polls.
  split; [|split].
  - intros e Hm. now rewrite (makedirs_raises _ _ _ Hm).
  - intros e Hm Hl. now rewrite (makedirs_returns _ _ Hm), (popen_raises _ _ _ Hl).
  - intros Hm Hl. rewrite (makedirs_returns _ _ Hm), (popen_returns _ _ Hl).
    set (h1 := started cmd (made profile h0)).
    assert (Hs : slept h1 = slept h) by (simpl; lia).
    split; [reflexivity|]. split.
    + intros k Hk Hbefore Hat.
      rewrite (wait_for_port_found debug_port polls k h1); try assumption.
      * reflexivity.
      * intros j Hj. rewrite Hs. now apply Hbefore.
      * now rewrite Hs.
    + intros Hnever.
      rewrite (wait_for_port_never debug_port polls h1).
      * reflexivity.
      * intros j Hj. rewrite Hs. now apply Hnever.
Qed.

End ConnectorFacts.

(** C7 on that machine: one browser is started, on port 9222 and the
    profile given, and the connector returns at the fourth poll. *)
Lemma ensure_chrome_ready_run :
  @ensure_chrome_ready slow_start 9222
    (Some "chrome"%string) (Some ".tmp/chrome-whatsapp"%string) 15 fresh_host =
  ({| launched := [[ "chrome"; "--remote-debugging-port=9222";
                     "--user-data-dir=.tmp/chrome-whatsapp";
                     "--no-first-run"; "--no-default-browser-check" ]%string];
      made_dirs := [".tmp/chrome-whatsapp"%string];
      slept := 3; probes := 5 |}, Return tt).
Proof.
  pose proof (@ensure_chrome_ready_spec slow_start 9222
                (Some "chrome"%string) (Some ".tmp/chrome-whatsapp"%string)
                15 fresh_host) as [_ H].
  destruct (H eq_refl) as [_ [_ H1]].
  destruct (H1 eq_refl eq_refl) as [_ [Hfound _]].
  rewrite (Hfound 3%nat).
  - reflexivity.
  - vm_compute. lia.
  - intros j Hj. destruct j as [|[|[|j]]]; try reflexivity. lia.
  - reflexivity.
Defined.

(** C7, as the claim states it, fails on a machine that has no browser at
    the path given: the port does not answer, [subprocess.Popen] raises,
    and the connector raises that error at once; no process has been
    started, the port has not been probed again nor a sleep made, and the
    error is not the launch error. *)
Lemma launch_failure_is_no_connector_error :
  exists h' e,
    @ensure_chrome_ready no_chrome 9222 None None 15 fresh_host = (h', Raise e) /\
    exn_class_of e = Other "FileNotFoundError" /\
    launched h' = [] /\ slept h' = 0%nat /\ probes h' = 1%nat.
Proof. eexists. eexists. split; [reflexivity|]. repeat split. Defined.

(** ** The send orchestrator *)

Section OrchestratorFacts.
Context {db : UnicodeDB} {env : Env}.

(** *** Reasoning about computations *)

Section Keeps.
Variable R : Sys -> Sys -> Prop.
Hypothesis R_refl : forall s, R s s.
Hypothesis R_trans : forall s1 s2 s3, R s1 s2 -> R s2 s3 -> R s1 s3.

Lemma keeps_ret {A} (a : A) : keeps R (ret a).
Proof. intros s s' r H. injection H as <- _. apply R_refl. Qed.

Lemma keeps_raise {A} (e : exn) : keeps R (@raise A e).
Proof. intros s s' r H. injection H as <- _. apply R_refl. Qed.

Lemma keeps_lift {A} (x : result A) : keeps R (lift x).
Proof. intros s s' r H. injection H as <- _. apply R_refl. Qed.

Lemma keeps_gets {A} (f : Sys -> A) : keeps R (gets f).
Proof. intros s s' r H. injection H as <- _. apply R_refl. Qed.

Lemma keeps_modify (f : Sys -> Sys) :
  (forall s, R s (f s)) -> keeps R (modify f).
Proof. intros Hf s s' r H. injection H as <- _. apply Hf. Qed.

Lemma keeps_bind {A B} (m : M A) (f : A -> M B) :
  keeps R m -> (forall a, keeps R (f a)) -> keeps R (bind m f).
Proof.
  intros Hm Hf s s' r H. unfold bind in H.
  destruct (m s) as [[s1 [a|e]]|] eqn:E; try discriminate.
  - eapply R_trans; [eapply Hm; exact E|eapply Hf; exact H].
  - injection H as <- _. eapply Hm; exact E.
Qed.

Lemma keeps_try_except {A} (m : M A) (h : exn -> M A) :
  keeps R m -> (forall e, keeps R (h e)) -> keeps R (try_except m h).
Proof.
  intros Hm Hh s s' r H. unfold try_except in H.
  destruct (m s) as [[s1 [a|e]]|] eqn:E; try discriminate.
  - injection H as <- _. eapply Hm; exact E.
  - eapply R_trans; [eapply Hm; exact E|eapply Hh; exact H].
Qed.

Lemma keeps_try_finally {A} (m : M A) (fin : M unit) :
  keeps R m -> keeps R fin -> keeps R (try_finally m fin).
Proof.
  intros Hm Hf s s' r H. unfold try_finally in H.
  destruct (m s) as [[s1 r1]|] eqn:E; try discriminate.
  destruct (fin s1) as [[s2 [u|e]]|] eqn:F; try discriminate;
    injection H as <- _;
    (eapply R_trans; [eapply Hm; exact E|eapply Hf; exact F]).
Qed.

End Keeps.

Lemma ends_ret {A} (a : A) : ends (ret a).
Proof. intros s. discriminate. Qed.

Lemma ends_lift {A} (x : result A) : ends (lift x).
Proof. intros s. discriminate. Qed.

Lemma ends_gets {A} (f : Sys -> A) : ends (gets f).
Proof. intros s. discriminate. Qed.

Lemma ends_modify (f : Sys -> Sys) : ends (modify f).
Proof. intros s. discriminate. Qed.

Lemma ends_bind {A B} (m : M A) (f : A -> M B) :
  ends m -> (forall a, ends (f a)) -> ends (bind m f).
Proof.
  intros Hm Hf s. unfold bind.
  destruct (m s) as [[s1 [a|e]]|] eqn:E.
  - apply Hf.
  - discriminate.
  - now apply Hm in E.
Qed.

Lemma ends_try_except {A} (m : M A) (h : exn -> M A) :
  ends m -> (forall e, ends (h e)) -> ends (try_except m h).
Proof.
  intros Hm Hh s. unfold try_except.
  destruct (m s) as [[s1 [a|e]]|] eqn:E.
  - discriminate.
  - apply Hh.
  - now apply Hm in E.
Qed.

Lemma ends_try_finally {A} (m : M A) (fin : M unit) :
  ends m -> ends fin -> ends (try_finally m fin).
Proof.
  intros Hm Hf s. unfold try_finally.
  destruct (m s) as [[s1 r1]|] eqn:E; [|now apply Hm in E].
  destruct (fin s1) as [[s2 [u|e]]|] eqn:F; try discriminate.
  now apply Hf in F.
Qed.

(** *** The books of a run *)

Lemma still_refl s : still s s.
Proof. unfold still. tauto. Qed.

Lemma still_trans s1 s2 s3 : still s1 s2 -> still s2 s3 -> still s1 s3.
Proof. unfold still. intuition congruence. Qed.

Lemma accounted_same s s' :
  deliveries s' = deliveries s ->
  sheet_updates s' = sheet_updates s ->
  sent (state s') = sent (state s) ->
  failed (state s') = failed (state s) ->
  accounted s s'.
Proof.
  intros Hd Hu Hs Hf. exists []. unfold count_of. simpl.
  rewrite !app_nil_r. repeat split; try assumption; lia.
Qed.

Lemma accounted_refl s : accounted s s.
Proof. now apply accounted_same. Qed.

Lemma accounted_trans s1 s2 s3 :
  accounted s1 s2 -> accounted s2 s3 -> accounted s1 s3.
Proof.
  intros [d1 [Hd1 [Hu1 [Hs1 Hf1]]]] [d2 [Hd2 [Hu2 [Hs2 Hf2]]]].
  exists (d1 ++ d2). unfold count_of in *.
  rewrite flat_map_app, !filter_app, !length_app, !app_assoc.
  rewrite Hd2, Hd1, Hu2, Hu1, Hs2, Hs1, Hf2, Hf1.
  repeat split; lia.
Qed.

Lemma still_accounted s s' : still s s' -> accounted s s'.
Proof. unfold still. intros H. apply accounted_same; tauto. Qed.

Lemma keeps_still_accounted {A} (m : M A) : keeps still m -> keeps accounted m.
Proof. intros H s s' r E. apply still_accounted. eapply H; exact E. Qed.

(** The parts of the body that do not work on a contact. *)

Lemma still_log m : keeps still (_log m).
Proof. apply keeps_modify. intros s. unfold still. simpl. tauto. Qed.

Lemma still_sleep n : keeps still (sleep n).
Proof. apply keeps_modify. intros s. unfold still. simpl. tauto. Qed.

Lemma still_observe s : still s (observe s).
Proof. unfold still. simpl. tauto. Qed.

Lemma still_read_should_stop : keeps still read_should_stop.
Proof. intros s s' r H. injection H as <- _. apply still_observe. Qed.

Lemma still_delay_loop n : keeps still (delay_loop n).
Proof.
  induction n as [|n IH]; cbn [delay_loop].
  - apply (keeps_ret _ still_refl).
  - apply (keeps_bind _ still_trans); [apply still_read_should_stop|].
    intros [|]; [apply (keeps_ret _ still_refl)|].
    apply (keeps_bind _ still_trans); [apply still_sleep|intros _; exact IH].
Qed.

Lemma still_inter_message_delay delay i : keeps still (inter_message_delay delay i).
Proof.
  unfold inter_message_delay.
  apply (keeps_bind _ still_trans); [apply (keeps_lift _ still_refl)|intros actual_delay].
  apply (keeps_bind _ still_trans); [apply still_log|intros _; apply still_delay_loop].
Qed.

Lemma still_read_is_paused : keeps still read_is_paused.
Proof. intros s s' r H. injection H as <- _. apply still_observe. Qed.

Lemma still_wait_while_paused fuel : keeps still (wait_while_paused fuel).
Proof.
  induction fuel as [|fuel IH]; cbn [wait_while_paused];
    (apply (keeps_bind _ still_trans); [apply still_read_is_paused|]);
    intros [|]; try apply (keeps_ret _ still_refl).
  - intros s s' r H. discriminate H.
  - apply (keeps_bind _ still_trans); [apply still_sleep|intros _].
    apply (keeps_bind _ still_trans); [apply still_read_should_stop|].
    intros [|]; [apply (keeps_ret _ still_refl)|exact IH].
Qed.

(** *** One delivery attempt *)

Ltac attempt_done W :=
  eexists; eexists; eexists; (split; [reflexivity|]); simpl;
  (split; [reflexivity|]);
  (split; [first [reflexivity | rewrite <- app_assoc; reflexivity
                 | symmetry; apply app_nil_r]|]);
  (split; [cbn [app]; repeat constructor|]);
  rewrite ?W; simpl; repeat split; try reflexivity; try assumption; try lia.

(** What a delivery attempt does, whatever its calls do: the delivery
    driver is called once, and the calls of [write_status] that follow are
    for the row of the contact.  It gives an outcome, which says success
    when the call of the delivery driver and the call of [write_status]
    that followed it both returned, and which is counted in [sent] or in
    [failed]; or it leaves the loop, with [failed] one up, when WhatsApp is
    found disconnected; or it raises the error of a call of [write_status]
    made in a handler, with nothing counted. *)
Lemma attempt_general c caption s :
  let d := delivery_of c caption s in
  let t := (clock s + snd (send_whatsapp_message env c caption (clock s)))%nat in
  exists s' r ws,
    attempt c caption s = Some (s', r) /\
    deliveries s' = deliveries s ++ [d] /\
    sheet_updates s' = sheet_updates s ++ ws /\
    Forall (fun u => upd_row u = row_number c) ws /\
    local_results s' = local_results s /\
    results (state s') = results (state s) /\
    remaining (state s') = remaining (state s) /\
    total (state s') = total (state s) /\
    send_log s' = send_log s /\
    clock s' = t /\
    match r with
    | Return (Some res) =>
        contact res = c /\ timestamp res = t /\
        success res =
          delivered d
          && returned (values_update env (write_status (row_number c) true) t) /\
        sent (state s') = (sent (state s) + if success res then 1 else 0)%Z /\
        failed (state s') = (failed (state s) + if success res then 0 else 1)%Z
    | Return None =>
        is_whatsapp_connected env t = false /\
        sent (state s') = sent (state s) /\
        failed (state s') = (failed (state s) + 1)%Z
    | Raise e =>
        sent (state s') = sent (state s) /\
        failed (state s') = failed (state s)
    end.
Proof.
  intros d t. subst d t.
  unfold attempt, try_except, bind, do_send, do_write_status, delivery_of, delivered.
  destruct (send_whatsapp_message env c caption (clock s)) as [out secs].
  cbn [fst snd dl_outcome clock].
  destruct out as [b|e0].
  - destruct (values_update env (write_status (row_number c) true) (clock s + secs))
      as [u1|e1] eqn:W1.
    + attempt_done W1.
    + unfold is_ContactNotFoundError, is_WhatsAppSendError.
      destruct e1 as [cls msg]; destruct cls; cbn [exn_class_of]; cbn iota;
        unfold bind, do_write_status, incr_failed, new_result, _log, gets, modify, ret;
        cbn [clock with_state];
        try (destruct (values_update env (write_status (row_number c) false)
                         (clock s + secs)) as [u0|e2] eqn:W0; attempt_done W1);
        (destruct (is_whatsapp_connected env (clock s + secs)) eqn:Hc; attempt_done W1).
  - unfold is_ContactNotFoundError, is_WhatsAppSendError.
    destruct e0 as [cls msg]; destruct cls; cbn [exn_class_of]; cbn iota;
      unfold bind, do_write_status, incr_failed, new_result, _log, gets, modify, ret;
      cbn [clock with_state];
      try (destruct (values_update env (write_status (row_number c) false)
                       (clock s + secs)) as [u0|e2] eqn:W0; attempt_done W0);
      (destruct (is_whatsapp_connected env (clock s + secs)) eqn:Hc; attempt_done Hc).
Qed.

(** A delivery attempt whose call of [write_status] returns. *)
Tactic Notation "close_outcome" :=
  eexists; eexists; (split; [reflexivity|]); simpl;
  (split; [reflexivity|]); (split; [rewrite ?app_nil_r; reflexivity|]);
  (split; [try reflexivity; lia|]); (split; [try reflexivity; lia|]);
  (split; [reflexivity|]); (split; [reflexivity|]);
  (split; [intros res E;
           first [discriminate E | injection E as <-; split; reflexivity]|]);
  intros E; first [discriminate E | reflexivity].

Lemma attempt_outcome c caption s :
  (forall u, In u (status_of (delivery_of c caption s)) ->
     values_update env u
       (clock s + snd (send_whatsapp_message env c caption (clock s))) = Return tt) ->
  exists s' r,
    attempt c caption s = Some (s', Return r) /\
    deliveries s' = deliveries s ++ [delivery_of c caption s] /\
    sheet_updates s' = sheet_updates s ++ status_of (delivery_of c caption s) /\
    sent (state s') =
      (sent (state s) + if delivered (delivery_of c caption s) then 1 else 0)%Z /\
    failed (state s') =
      (failed (state s) + if delivered (delivery_of c caption s) then 0 else 1)%Z /\
    local_results s' = local_results s /\
    results (state s') = results (state s) /\
    (forall res, r = Some res ->
       contact res = c /\ success res = delivered (delivery_of c caption s)) /\
    (r = None -> status_of (delivery_of c caption s) = []).
Proof.
  unfold attempt, try_except, bind, do_send, do_write_status, delivery_of, status_of,
    delivered.
  destruct (send_whatsapp_message env c caption (clock s)) as [[b|[cls msg]] secs];
    cbn [fst snd dl_outcome dl_contact clock].
  - intros Hw. rewrite (Hw _ (or_introl eq_refl)). close_outcome.
  - unfold is_ContactNotFoundError, is_WhatsAppSendError. cbn [exn_class_of].
    destruct cls; cbn iota; intros Hw;
      unfold bind, do_write_status, new_result, _log, incr_failed, gets, modify, ret;
      cbn [clock with_state];
      try (rewrite (Hw _ (or_introl eq_refl)); close_outcome);
      (destruct (is_whatsapp_connected env (clock s + secs)); close_outcome).
Qed.

(** *** Runs in which every call of [write_status] returns *)

Section WritesReturn.
Hypothesis writes_return : forall u t, values_update env u t = Return tt.

Lemma accounted_attempt c caption : keeps accounted (attempt c caption).
Proof.
  intros s s' r H.
  destruct (attempt_outcome c caption s)
    as [s1 [r1 [E [Hd [Hu [Hs [Hf _]]]]]]]; [intros; apply writes_return|].
  rewrite E in H. injection H as <- _.
  exists [delivery_of c caption s]. unfold count_of. cbn [flat_map filter].
  rewrite app_nil_r.
  destruct (delivered (delivery_of c caption s)); cbn [negb List.length];
    repeat split; try assumption; lia.
Qed.

Lemma accounted_save_log : keeps accounted _save_log.
Proof.
  intros s s' r H. unfold _save_log in H.
  destruct (write_log_file env (clock s)); injection H as <- _;
    apply accounted_same; reflexivity.
Qed.

Tactic Notation "acc_step" :=
  first
    [ apply (keeps_bind _ accounted_trans); [|intros ?]
    | apply (keeps_ret _ accounted_refl)
    | apply (keeps_lift _ accounted_refl)
    | apply (keeps_gets _ accounted_refl)
    | apply accounted_attempt
    | apply accounted_save_log
    | apply keeps_still_accounted;
      first [ apply still_log | apply still_sleep | apply still_read_should_stop
            | apply still_wait_while_paused | apply still_inter_message_delay
            | apply still_delay_loop ]
    | apply keeps_modify; intros ?; apply accounted_same; reflexivity ].

Tactic Notation "acc_auto" :=
  repeat first
    [ acc_step
    | match goal with
      | |- keeps _ (if ?b then _ else _) => destruct b
      | |- keeps _ (match ?x with _ => _ end) => destruct x
      end ].

Lemma accounted_iteration fuel delay on_progress actual_count i c :
  keeps accounted (iteration fuel delay on_progress actual_count i c).
Proof. unfold iteration, append_result. acc_auto. Qed.

Lemma accounted_main_loop fuel delay on_progress actual_count contacts :
  forall i, keeps accounted (main_loop fuel delay on_progress actual_count i contacts).
Proof.
  induction contacts as [|c rest IH]; intros i; cbn [main_loop].
  - acc_step.
  - acc_step; [apply accounted_iteration|].
    destruct a; [apply IH|acc_step].
Qed.

Lemma accounted_guarded fuel count delay on_progress :
  keeps accounted (guarded fuel count delay on_progress).
Proof.
  unfold guarded.
  generalize (get_pending_contacts count (sheet env)). intros contacts.
  pose proof (accounted_main_loop fuel delay on_progress
                (Z.of_nat (List.length contacts)) contacts 0%Z) as Hloop.
  revert Hloop.
  generalize (main_loop fuel delay on_progress
                (Z.of_nat (List.length contacts)) 0 contacts).
  intros loop Hloop. acc_auto. exact Hloop.
Qed.

Lemma accounted_finalizer : keeps accounted finalizer.
Proof. unfold finalizer. repeat acc_step. Qed.

Lemma accounted_guarded_run fuel count delay on_progress :
  keeps accounted (guarded_run fuel count delay on_progress).
Proof.
  unfold guarded_run. acc_step.
  - apply (keeps_try_finally _ accounted_trans); [|apply accounted_finalizer].
    apply (keeps_try_except _ accounted_trans); [apply accounted_guarded|].
    intros e. repeat acc_step.
  - destruct a; acc_step.
Qed.

Lemma accounted_run fuel count delay state0 on_progress s s' r :
  run_send_loop fuel count delay state0 on_progress s = Some (s', r) ->
  accounted (start (Z.min count daily_limit) state0 s) s'.
Proof.
  unfold run_send_loop. generalize (start (Z.min count daily_limit) state0 s).
  intros s0. destruct (IMAGE_PATH env) as [image_path|].
  - destruct (path_exists env image_path); cbn [negb].
    + apply accounted_guarded_run.
    + unfold image_missing. revert s0 s' r. repeat acc_step.
  - intros [= <- _]. apply accounted_refl.
Qed.

End WritesReturn.

(** *** How a run ends *)

Lemma settled_refl s : settled s s.
Proof. unfold settled. pose proof (still_refl s). intuition. Qed.

Lemma settled_trans s1 s2 s3 : settled s1 s2 -> settled s2 s3 -> settled s1 s3.
Proof.
  unfold settled. intros [H1 [H2 H3]] [G1 [G2 G3]].
  split; [eapply still_trans; eassumption|]. split; congruence.
Qed.

(** The [finally] clause clears the flags and leaves the books alone; it
    returns with the log file written and the closing line logged, or it
    raises the error of the write. *)
Lemma finalizer_spec s :
  exists s' r,
    finalizer s = Some (s', r) /\
    is_running (state s') = false /\
    current_contact (state s') = None /\
    current_phone (state s') = None /\
    settled s s' /\
    clock s' = clock s /\
    match write_log_file env (clock s) with
    | LogWritten =>
        r = Return tt /\
        exists saved,
          send_log s' = Some saved /\
          log_sent saved = sent (state s') /\
          log_failed saved = failed (state s') /\
          log_total_attempted saved = (sent (state s') + failed (state s'))%Z /\
          log_log saved = log_messages (state s) /\
          log_messages (state s') =
            log_log saved ++
            [{| ts := clock s';
                text := SessionComplete (sent (state s')) (failed (state s')) |}] /\
          log_results saved = local_results s'
    | LogFailed truncated e =>
        r = Raise e /\
        send_log s' = (if truncated then None else send_log s) /\
        log_messages (state s') = log_messages (state s)
    end.
Proof.
  unfold finalizer, bind, modify, _save_log, gets, _log. cbn [clock with_state].
  destruct (write_log_file env (clock s)) as [|truncated e].
  - eexists. eexists. split; [reflexivity|]. unfold settled, still. simpl.
    do 3 (split; [reflexivity|]). split; [repeat split|].
    split; [reflexivity|]. split; [reflexivity|].
    eexists. simpl. repeat split; reflexivity.
  - eexists. eexists. split; [reflexivity|]. unfold settled, still. simpl.
    do 3 (split; [reflexivity|]). split; [repeat split|].
    repeat split; reflexivity.
Qed.

Lemma settled_finalizer : keeps settled finalizer.
Proof.
  intros s s' r H. destruct (finalizer_spec s) as [s1 [r1 [E [_ [_ [_ [S _]]]]]]].
  rewrite E in H. now injection H as <- _.
Qed.

Lemma try_finally_inv {A} (m : M A) (fin : M unit) s s' r :
  try_finally m fin s = Some (s', r) ->
  exists s1 r1,
    m s = Some (s1, r1) /\
    ((exists u, fin s1 = Some (s', Return u) /\ r = r1) \/
     (exists e, fin s1 = Some (s', Raise e) /\ r = Raise e)).
Proof.
  unfold try_finally. intros H.
  destruct (m s) as [[s1 r1]|]; [|discriminate].
  exists s1, r1. split; [reflexivity|].
  destruct (fin s1) as [[s2 [u|e]]|]; try discriminate; injection H as <- <-.
  - left. now exists u.
  - right. now exists e.
Qed.

Lemma bind_inv {A B} (m : M A) (f : A -> M B) s s' r :
  bind m f s = Some (s', r) ->
  (exists s1 a, m s = Some (s1, Return a) /\ f a s1 = Some (s', r)) \/
  (exists e, m s = Some (s', Raise e) /\ r = Raise e).
Proof.
  unfold bind. intros H. destruct (m s) as [[s1 [a|e]]|]; [| |discriminate].
  - left. now exists s1, a.
  - right. injection H as <- <-. now exists e.
Qed.

Lemma early_bind {A B} (m : M A) (f : A -> M (option B)) P :
  keeps still m -> (forall a, early_exit (f a) P) -> early_exit (bind m f) P.
Proof.
  intros Hm Hf s s' v H.
  destruct (bind_inv _ _ _ _ _ H) as [[s1 [a [E F]]]|[e [_ E]]]; [|discriminate].
  destruct (Hf a _ _ _ F) as [HP Hs]. split; [exact HP|].
  eapply still_trans; [eapply Hm; exact E|exact Hs].
Qed.

Lemma runs_on_bind {A B} (m : M A) (f : A -> M (option B)) :
  (forall a, runs_on (f a)) -> runs_on (bind m f).
Proof.
  intros Hf s s' v H.
  destruct (bind_inv _ _ _ _ _ H) as [[s1 [a [E F]]]|[e [_ E]]]; [|discriminate].
  exact (Hf a _ _ _ F).
Qed.

Lemma runs_on_early {B} (m : M (option B)) P : runs_on m -> early_exit m P.
Proof. intros H s s' v E. now apply H in E. Qed.

Lemma guarded_early fuel count delay on_progress :
  early_exit (guarded fuel count delay on_progress) (fun v => v = []).
Proof.
  unfold guarded.
  apply early_bind; [apply still_log|intros _].
  apply early_bind; [apply (keeps_lift _ still_refl)|intros _].
  apply early_bind; [apply still_log|intros _].
  apply early_bind; [apply (keeps_lift _ still_refl)|intros handles].
  apply early_bind; [apply (keeps_lift _ still_refl)|intros found].
  apply early_bind.
  { destruct found; [apply (keeps_ret _ still_refl)|].
    apply (keeps_bind _ still_trans); [apply still_log|intros _].
    apply (keeps_bind _ still_trans); [apply (keeps_lift _ still_refl)|intros _].
    apply still_sleep. }
  intros _.
  apply early_bind; [apply still_log|intros _].
  apply early_bind; [apply still_log|intros _].
  apply early_bind; [apply (keeps_lift _ still_refl)|intros _].
  destruct (Z.of_nat _ =? 0)%Z.
  - apply early_bind; [apply still_log|intros _].
    apply early_bind.
    { apply keeps_modify. intros s. unfold still. simpl. tauto. }
    intros _ s s' v [= <- <-]. split; [reflexivity|apply still_refl].
  - apply runs_on_early. do 4 (apply runs_on_bind; intros ?).
    intros s s' v. discriminate.
Qed.

(** *** A run ends when every pause does *)

Lemma ends_read_should_stop : ends read_should_stop.
Proof. intros s. discriminate. Qed.

Lemma ends_delay_loop n : ends (delay_loop n).
Proof.
  induction n as [|n IH]; cbn [delay_loop]; [apply ends_ret|].
  apply ends_bind; [apply ends_read_should_stop|].
  intros [|]; [apply ends_ret|].
  apply ends_bind; [apply ends_modify|intros _; exact IH].
Qed.

Lemma ends_attempt c caption : ends (attempt c caption).
Proof.
  intros s. destruct (attempt_general c caption s) as [s' [r [ws [E _]]]]. congruence.
Qed.

Lemma ends_save_log : ends _save_log.
Proof.
  intros s. unfold _save_log. destruct (write_log_file env (clock s)); discriminate.
Qed.

Lemma wait_while_paused_resumes fuel : forall s d,
  (d <= fuel)%nat ->
  pause_requested env (clock s + d) = false ->
  wait_while_paused fuel s <> None.
Proof.
  induction fuel as [|fuel IH]; intros s d Hd Hp; cbn [wait_while_paused];
    unfold bind at 1; unfold read_is_paused;
    cbn [observe with_state state set_flags is_paused];
    destruct (pause_requested env (clock s)) eqn:E; try discriminate.
  - replace d with 0%nat in Hp by lia. rewrite Nat.add_0_r in Hp. congruence.
  - destruct d as [|d]; [rewrite Nat.add_0_r in Hp; congruence|].
    unfold bind, sleep, modify, read_should_stop.
    cbn [observe with_state state set_flags should_stop clock].
    destruct (stop_requested env (clock s + 1)); [discriminate|].
    apply (IH _ d); [lia|]. cbn [observe with_state clock].
    replace (clock s + 1 + d)%nat with (clock s + S d)%nat by lia. exact Hp.
Qed.

Section Termination.

(** Every pause the dashboard asks for is over within [bound] seconds. *)
Variable bound : nat.
Hypothesis pauses_end :
  forall t, exists d, (d <= bound)%nat /\ pause_requested env (t + d) = false.

Lemma ends_wait_while_paused fuel :
  (bound <= fuel)%nat -> ends (wait_while_paused fuel).
Proof.
  intros Hb s. destruct (pauses_end (clock s)) as [d [Hd Hp]].
  apply (wait_while_paused_resumes fuel s d); [lia|exact Hp].
Qed.

Tactic Notation "ends_auto" constr(H) :=
  repeat first
    [ apply ends_bind; [|intros ?]
    | apply ends_ret | apply ends_lift | apply ends_gets | apply ends_modify
    | apply ends_read_should_stop | apply ends_delay_loop | apply ends_attempt
    | apply ends_save_log
    | apply ends_wait_while_paused; exact H
    | match goal with
      | |- ends (if ?b then _ else _) => destruct b
      | |- ends (match ?x with _ => _ end) => destruct x
      end ].

Lemma ends_iteration fuel delay on_progress actual_count i c :
  (bound <= fuel)%nat ->
  ends (iteration fuel delay on_progress actual_count i c).
Proof.
  intros H. unfold iteration, append_result, inter_message_delay, _log.
  ends_auto H.
Qed.

Lemma ends_main_loop fuel delay on_progress actual_count contacts :
  (bound <= fuel)%nat ->
  forall i, ends (main_loop fuel delay on_progress actual_count i contacts).
Proof.
  intros H. induction contacts as [|c rest IH]; intros i; cbn [main_loop].
  - apply ends_ret.
  - apply ends_bind; [now apply ends_iteration|].
    intros [|]; [apply IH|apply ends_ret].
Qed.

Lemma ends_guarded_run fuel count delay on_progress :
  (bound <= fuel)%nat ->
  ends (guarded_run fuel count delay on_progress).
Proof.
  intros H. unfold guarded_run.
  apply ends_bind; [|intros [v|]; [apply ends_ret|apply ends_gets]].
  apply ends_try_finally.
  - apply ends_try_except; [|intros e; unfold _log; ends_auto H].
    unfold guarded.
    generalize (get_pending_contacts count (sheet env)). intros contacts.
    pose proof (ends_main_loop fuel delay on_progress
                  (Z.of_nat (List.length contacts)) contacts H 0%Z) as Hloop.
    revert Hloop.
    generalize (main_loop fuel delay on_progress
                  (Z.of_nat (List.length contacts)) 0 contacts).
    intros loop Hloop. unfold _log, sleep. ends_auto H. exact Hloop.
  - unfold finalizer, _log. ends_auto H.
Qed.

Lemma ends_run fuel count delay state0 on_progress :
  (bound <= fuel)%nat ->
  ends (run_send_loop fuel count delay state0 on_progress).
Proof.
  intros H s. unfold run_send_loop.
  destruct (IMAGE_PATH env) as [image_path|]; [|discriminate].
  destruct (path_exists env image_path); cbn [negb].
  - now apply ends_guarded_run.
  - unfold image_missing, _log. revert s. ends_auto H.
Qed.

End Termination.

(** *** The length of a delay *)

Lemma max20_ge x : (20 <= max20 x)%Q.
Proof.
  unfold max20. destruct (Qle_bool x 20) eqn:E; [apply Qle_refl|].
  apply Qlt_le_weak, Qnot_le_lt. intros H. apply Qle_bool_iff in H. congruence.
Qed.

Lemma max20_self x : (x <= max20 x)%Q.
Proof.
  unfold max20. destruct (Qle_bool x 20) eqn:E; [|apply Qle_refl].
  now apply Qle_bool_iff.
Qed.

Lemma max20_le x b : (x <= b)%Q -> (20 <= b)%Q -> (max20 x <= b)%Q.
Proof. unfold max20. now destruct (Qle_bool x 20). Qed.

Lemma int_of_floor x : (0 <= x)%Q -> int_of x = Qfloor x.
Proof.
  destruct x as [n d]. unfold int_of, Qfloor, Qle. simpl. intros H.
  apply Z.quot_div_nonneg; lia.
Qed.

Lemma seconds_floor y :
  Z.of_nat (Z.to_nat (int_of (max20 y))) = Qfloor (max20 y) /\
  (20 <= Qfloor (max20 y))%Z.
Proof.
  assert (H20 : (20 <= Qfloor (max20 y))%Z).
  { rewrite <- (Qfloor_Z 20). apply Qfloor_resp_le. apply max20_ge. }
  split; [|exact H20].
  rewrite int_of_floor.
  - apply Z2Nat.id. lia.
  - eapply Qle_trans; [|apply max20_ge]. discriminate.
Qed.







(** *** Stopping during a delay *)




(** *** Idle steps *)

Lemma idle_refl s : idle s s.
Proof. unfold idle. pose proof (still_refl s). intuition. Qed.

Lemma idle_trans s1 s2 s3 : idle s1 s2 -> idle s2 s3 -> idle s1 s3.
Proof.
  unfold idle. intros [H1 [H2 [H3 [H4 H5]]]] [G1 [G2 [G3 [G4 G5]]]].
  split; [eapply still_trans; eassumption|].
  repeat split; try congruence; lia.
Qed.

Lemma idle_log m : keeps idle (_log m).
Proof. apply keeps_modify. intros s. unfold idle, still. simpl. intuition. Qed.

Lemma idle_sleep n : keeps idle (sleep n).
Proof. apply keeps_modify. intros s. unfold idle, still. simpl. intuition lia. Qed.

Lemma idle_observe s : idle s (observe s).
Proof. unfold idle, still. simpl. intuition. Qed.

Lemma idle_read_should_stop : keeps idle read_should_stop.
Proof. intros s s' r H. injection H as <- _. apply idle_observe. Qed.

Lemma idle_read_is_paused : keeps idle read_is_paused.
Proof. intros s s' r H. injection H as <- _. apply idle_observe. Qed.

Lemma idle_delay_loop n : keeps idle (delay_loop n).
Proof.
  induction n as [|n IH]; cbn [delay_loop].
  - apply (keeps_ret _ idle_refl).
  - apply (keeps_bind _ idle_trans); [apply idle_read_should_stop|].
    intros [|]; [apply (keeps_ret _ idle_refl)|].
    apply (keeps_bind _ idle_trans); [apply idle_sleep|intros _; exact IH].
Qed.

Lemma idle_wait_while_paused fuel : keeps idle (wait_while_paused fuel).
Proof.
  induction fuel as [|fuel IH]; cbn [wait_while_paused];
    (apply (keeps_bind _ idle_trans); [apply idle_read_is_paused|]);
    intros [|]; try apply (keeps_ret _ idle_refl).
  - intros s s' r H. discriminate H.
  - apply (keeps_bind _ idle_trans); [apply idle_sleep|intros _].
    apply (keeps_bind _ idle_trans); [apply idle_read_should_stop|].
    intros [|]; [apply (keeps_ret _ idle_refl)|exact IH].
Qed.

Lemma idle_inter_message_delay delay i : keeps idle (inter_message_delay delay i).
Proof.
  unfold inter_message_delay.
  apply (keeps_bind _ idle_trans); [apply (keeps_lift _ idle_refl)|intros actual_delay].
  apply (keeps_bind _ idle_trans); [apply idle_log|intros _; apply idle_delay_loop].
Qed.

Lemma idle_still s s' : idle s s' -> still s s'.
Proof. now intros [H _]. Qed.

Lemma idle_settled s s' : idle s s' -> settled s s'.
Proof. unfold idle, settled. tauto. Qed.

Lemma idle_modify_state f s :
  results (f (state s)) = results (state s) ->
  sent (f (state s)) = sent (state s) ->
  failed (f (state s)) = failed (state s) ->
  remaining (f (state s)) = remaining (state s) ->
  total (f (state s)) = total (state s) ->
  idle s (with_state f s).
Proof. unfold idle, still. simpl. intuition. Qed.

(** A step that is idle, and what follows it. *)
Lemma step_idle {A B} (m : M A) (f : A -> M B) s0 s s' r :
  keeps idle m -> idle s0 s -> bind m f s = Some (s', r) ->
  (exists s1 a, idle s0 s1 /\ f a s1 = Some (s', r)) \/
  (idle s0 s' /\ exists e, r = Raise e).
Proof.
  intros K I H. apply bind_inv in H.
  destruct H as [[s1 [a [E H]]]|[e [E ->]]].
  - left. exists s1, a. split; [|exact H].
    eapply idle_trans; [exact I|eapply K; exact E].
  - right. split; [|now exists e].
    eapply idle_trans; [exact I|eapply K; exact E].
Qed.

(** *** Computations that do not raise *)

Lemma returns_ret {A} (a : A) : returns (ret a).
Proof. intros s s' r [= _ <-]. now exists a. Qed.

Lemma returns_modify f : returns (modify f).
Proof. intros s s' r [= _ <-]. now exists tt. Qed.

Lemma returns_gets {A} (f : Sys -> A) : returns (gets f).
Proof. intros s s' r [= _ <-]. now exists (f s). Qed.

Lemma returns_bind {A B} (m : M A) (f : A -> M B) :
  returns m -> (forall a, returns (f a)) -> returns (bind m f).
Proof.
  intros Hm Hf s s' r H.
  destruct (bind_inv _ _ _ _ _ H) as [[s1 [a [E F]]]|[e [E ->]]].
  - eapply Hf; exact F.
  - destruct (Hm _ _ _ E) as [a Ha]. discriminate.
Qed.

Lemma returns_read_should_stop : returns read_should_stop.
Proof. intros s s' r [= _ <-]. eexists; reflexivity. Qed.

Lemma returns_read_is_paused : returns read_is_paused.
Proof. intros s s' r [= _ <-]. eexists; reflexivity. Qed.

Lemma returns_delay_loop n : returns (delay_loop n).
Proof.
  induction n as [|n IH]; cbn [delay_loop]; [apply returns_ret|].
  apply returns_bind; [apply returns_read_should_stop|].
  intros [|]; [apply returns_ret|].
  apply returns_bind; [apply returns_modify|intros _; exact IH].
Qed.

Lemma returns_wait_while_paused fuel : returns (wait_while_paused fuel).
Proof.
  induction fuel as [|fuel IH]; cbn [wait_while_paused];
    (apply returns_bind; [apply returns_read_is_paused|]);
    intros [|]; try apply returns_ret.
  - intros s s' r H. discriminate H.
  - apply returns_bind; [apply returns_modify|intros _].
    apply returns_bind; [apply returns_read_should_stop|].
    intros [|]; [apply returns_ret|exact IH].
Qed.

(** *** One pass of the loop *)

(** A delay that has run its course has lasted its seconds, unless a stop
    was asked for. *)
Lemma delay_loop_ran n : forall s s' r,
  delay_loop n s = Some (s', r) ->
  stop_requested env (clock s') = true \/ clock s' = (clock s + n)%nat.
Proof.
  induction n as [|n IH]; intros s s' r; cbn [delay_loop].
  - intros [= <- _]. right. lia.
  - unfold bind at 1. unfold read_should_stop.
    cbn [observe with_state state set_flags should_stop].
    destruct (stop_requested env (clock s)) eqn:E.
    + intros [= <- _]. left. exact E.
    + unfold bind, sleep, modify. intros H. apply IH in H.
      cbn [clock observe with_state] in H. destruct H as [H|H]; [now left|right; lia].
Qed.

Lemma inter_message_delay_ran delay i s s' u :
  inter_message_delay delay i s = Some (s', Return u) ->
  stop_requested env (clock s') = true \/ (clock s + 20 <= clock s')%nat.
Proof.
  unfold inter_message_delay. intros H.
  apply bind_inv in H. destruct H as [[s1 [actual [E H]]]|[e [_ E]]]; [|discriminate E].
  injection E as <- E. unfold actual_delay_of in E.
  destruct (float_of_int delay) as [base|e]; [|discriminate E].
  injection E as <-.
  unfold bind, _log, modify in H. apply delay_loop_ran in H.
  cbn [clock with_state] in H.
  destruct H as [H|H]; [now left|right].
  destruct (seconds_floor (float_add base (random_uniform (-5) 10 i))) as [H1 H2].
  lia.
Qed.

Lemma recorded_idle res s1 s2 s3 : recorded res s1 s2 -> idle s2 s3 -> recorded res s1 s3.
Proof.
  unfold recorded, idle, still. intros H G. decompose [and] H. decompose [and] G.
  repeat split; try congruence; lia.
Qed.

(** A pass of the loop, step by step: it leaves the loop at once when a
    stop is asked for; otherwise it waits while paused, fills in the
    template and makes its delivery attempt; the outcome, when there is
    one, is put on record, and the delay follows. *)
Lemma iteration_inv fuel delay on_progress n i c s s' r :
  iteration fuel delay on_progress n i c s = Some (s', r) ->
  (stop_requested env (clock s) = true /\ r = Return Break /\ idle s s') \/
  (stop_requested env (clock s) = false /\
   exists s1, idle s s1 /\
     ((exists e, format_template env (first_name c) = Raise e /\ r = Raise e /\ s' = s1) \/
      (exists caption s2 ra,
         format_template env (first_name c) = Return caption /\
         attempt c caption s1 = Some (s2, ra) /\
         match ra with
         | Raise e => r = Raise e /\ s' = s2
         | Return None => r = Return Break /\ s' = s2
         | Return (Some res) =>
             recorded res s2 s' /\
             (r = Return Next \/ exists e, r = Raise e) /\
             (r = Return Next -> (i <? n - 1)%Z = true ->
              stop_requested env (clock s') = true \/ (clock s2 + 20 <= clock s')%nat)
         end))).
Proof.
  intros H. unfold iteration in H.
  apply bind_inv in H. destruct H as [[s0 [stop [E H]]]|[e [E _]]]; [|discriminate E].
  injection E as <- <-.
  cbn [observe with_state state set_flags should_stop] in H.
  destruct (stop_requested env (clock s)) eqn:Hstop.
  - left. split; [reflexivity|]. injection H as <- <-. split; [reflexivity|].
    eapply idle_trans; [apply idle_observe|].
    eapply idle_log. reflexivity.
  - right. split; [reflexivity|].
    apply bind_inv in H. destruct H as [[s1 [u1 [E1 H]]]|[e [E1 _]]];
      [|apply returns_wait_while_paused in E1; destruct E1; discriminate].
    apply bind_inv in H. destruct H as [[s2 [u2 [E2 H]]]|[e [E2 _]]]; [|discriminate E2].
    apply bind_inv in H. destruct H as [[s3 [u3 [E3 H]]]|[e [E3 _]]]; [|discriminate E3].
    assert (I3 : idle s s3).
    { eapply idle_trans; [apply idle_observe|].
      eapply idle_trans; [eapply idle_wait_while_paused; exact E1|].
      injection E2 as <- _.
      eapply idle_trans; [|eapply idle_log; exact E3].
      apply idle_modify_state; reflexivity. }
    exists s3. split; [exact I3|].
    apply bind_inv in H. destruct H as [[s4 [caption [E4 H]]]|[e [E4 ->]]].
    + right. injection E4 as <- E4.
      apply bind_inv in H. destruct H as [[s5 [ra [E5 H]]]|[e [E5 ->]]].
      * exists caption, s5, (Return ra). split; [exact E4|]. split; [exact E5|].
        destruct ra as [res|]; [|injection H as <- <-; now split].
        apply bind_inv in H. destruct H as [[s6 [u6 [E6 H]]]|[e [E6 _]]]; [|discriminate E6].
        apply bind_inv in H. destruct H as [[s7 [u7 [E7 H]]]|[e [E7 _]]]; [|discriminate E7].
        apply bind_inv in H. destruct H as [[s8 [u8 [E8 H]]]|[e [E8 _]]]; [|discriminate E8].
        assert (R8 : recorded res s5 s8).
        { injection E6 as <- _. injection E7 as <- _. injection E8 as <- _.
          unfold recorded. simpl. repeat split; lia. }
        clear E6 E7 E8.
        apply bind_inv in H. destruct H as [[s9 [u9 [E9 H]]]|[e [E9 ->]]].
        -- assert (I9 : idle s8 s9).
           { destruct on_progress as [cb|].
             - apply bind_inv in E9. destruct E9 as [[sa [st [Ea Eb]]]|[e [Ea _]]];
                 [|discriminate Ea].
               injection Ea as <- _. injection Eb as <- _. apply idle_refl.
             - injection E9 as <- _. apply idle_refl. }
           apply bind_inv in H. destruct H as [[s10 [stop [E10 H]]]|[e [E10 _]]];
             [|discriminate E10].
           injection E10 as <- <-.
           cbn [observe with_state state set_flags should_stop] in H.
           apply bind_inv in H. destruct H as [[s11 [u11 [E11 H]]]|[e [E11 ->]]].
           ++ injection H as <- <-.
              assert (I11 : idle s9 s11).
              { eapply idle_trans; [apply idle_observe|].
                destruct ((i <? n - 1)%Z && negb (stop_requested env (clock s9))).
                - eapply idle_inter_message_delay; exact E11.
                - injection E11 as <- _. apply idle_refl. }
              split; [|split].
              ** eapply recorded_idle; [exact R8|]. eapply idle_trans; eassumption.
              ** now left.
              ** intros _ Hi. rewrite Hi in E11. cbn [andb] in E11.
                 destruct (stop_requested env (clock s9)) eqn:Hs9; cbn [negb] in E11.
                 --- injection E11 as <- _. left. exact Hs9.
                 --- apply inter_message_delay_ran in E11.
                     cbn [observe with_state clock] in E11.
                     destruct E11 as [G|G]; [now left|right].
                     destruct R8 as [_ [_ [_ [_ [_ [_ [_ [_ [_ R8]]]]]]]]].
                     destruct I9 as [_ [_ [_ [_ I9]]]]. lia.
           ++ assert (I11 : idle s9 s').
              { eapply idle_trans; [apply idle_observe|].
                destruct ((i <? n - 1)%Z && negb (stop_requested env (clock s9))).
                - eapply idle_inter_message_delay; exact E11.
                - discriminate E11. }
              split; [|split].
              ** eapply recorded_idle; [exact R8|]. eapply idle_trans; eassumption.
              ** right. now exists e.
              ** discriminate.
        -- split; [|split].
           ++ destruct on_progress as [cb|].
              ** apply bind_inv in E9. destruct E9 as [[sa [st [Ea Eb]]]|[e0 [Ea _]]];
                   [|discriminate Ea].
                 injection Ea as <- _. injection Eb as <- _. exact R8.
              ** discriminate E9.
           ++ right. now exists e.
           ++ discriminate.
      * exists caption, s', (Raise e). split; [exact E4|]. split; [exact E5|]. now split.
    + left. exists e. injection E4 as <- E4. now repeat split.
Qed.

(** *** The books of the loop *)

Lemma serving_idle contacts s s' : idle s s' -> serving contacts s s' [] [] [].
Proof.
  intros [[Hd [Hu [Hl [Hr [Hs Hf]]]]] [Hrem [Ht [Hlog _]]]].
  constructor; rewrite ?app_nil_r; unfold successes, failures;
    cbn [List.length Z.of_nat map firstn filter];
    first [assumption | lia | reflexivity | now left | idtac].
Qed.

Lemma served_idle contacts s s' : idle s s' -> served contacts s s'.
Proof. intros I. exists [], [], []. now apply serving_idle. Qed.

Lemma serving_cons c rest s s1 s' d res ws1 ds rs ws :
  dl_contact d = c -> captioned d -> answers d res ->
  deliveries s1 = deliveries s ++ [d] ->
  sheet_updates s1 = sheet_updates s ++ ws1 ->
  Forall (fun u => upd_row u = row_number c) ws1 ->
  total (state s1) = total (state s) ->
  send_log s1 = send_log s ->
  local_results s1 = local_results s ++ [res] ->
  results (state s1) = results (state s) ++ [res] ->
  remaining (state s1) = (remaining (state s) - 1)%Z ->
  sent (state s1) = (sent (state s) + if success res then 1 else 0)%Z ->
  failed (state s1) = (failed (state s) + if success res then 0 else 1)%Z ->
  serving rest s1 s' ds rs ws ->
  serving (c :: rest) s s' (d :: ds) (res :: rs) (ws1 ++ ws).
Proof.
  intros Hc Hcap Ha Hd Hu Hrow Ht Hlog Hl Hr Hrem Hs Hf G. destruct G.
  constructor.
  - rewrite sv_deliveries0, Hd, <- app_assoc. reflexivity.
  - rewrite sv_local0, Hl, <- app_assoc. reflexivity.
  - rewrite sv_results0, Hr, <- app_assoc. reflexivity.
  - rewrite sv_updates0, Hu, <- app_assoc. reflexivity.
  - cbn [List.length]. lia.
  - congruence.
  - congruence.
  - cbn [List.length map firstn]. now f_equal.
  - now constructor.
  - destruct sv_mirrored0 as [M|[ds' [d' [E M]]]].
    + left. now constructor.
    + right. exists (d :: ds'), d'. split; [now rewrite E|now constructor].
  - apply Forall_app. split.
    + eapply Forall_impl; [|exact Hrow]. cbn beta. intros u E. left.
      unfold row_of. congruence.
    + eapply Forall_impl; [|exact sv_rows0]. cbn beta. intros u E. now right.
  - unfold successes in *. cbn [filter].
    destruct (success res); cbn [List.length]; lia.
  - unfold failures in *. cbn [filter List.length].
    destruct (success res); cbn [negb List.length]; lia.
Qed.

Lemma serving_last c rest s s' d ws1 :
  dl_contact d = c -> captioned d ->
  deliveries s' = deliveries s ++ [d] ->
  sheet_updates s' = sheet_updates s ++ ws1 ->
  Forall (fun u => upd_row u = row_number c) ws1 ->
  total (state s') = total (state s) ->
  send_log s' = send_log s ->
  local_results s' = local_results s ->
  results (state s') = results (state s) ->
  remaining (state s') = remaining (state s) ->
  sent (state s') = sent (state s) ->
  (failed (state s) <= failed (state s') <= failed (state s) + 1)%Z ->
  serving (c :: rest) s s' [d] [] ws1.
Proof.
  intros Hc Hcap Hd Hu Hrow Ht Hlog Hl Hr Hrem Hs Hf.
  constructor; rewrite ?app_nil_r; unfold successes, failures;
    cbn [List.length Z.of_nat map firstn filter];
    first [assumption | lia | idtac].
  - now rewrite Hc.
  - constructor; [exact Hcap|constructor].
  - right. exists [], d. split; [reflexivity|constructor].
  - eapply Forall_impl; [|exact Hrow]. cbn beta. intros u E. left.
    unfold row_of. congruence.
Qed.

(** One pass of the loop serves its contact, or leaves the loop. *)
Lemma iteration_served fuel delay on_progress n i c s s' r :
  iteration fuel delay on_progress n i c s = Some (s', r) ->
  (idle s s' /\ r <> Return Next) \/
  (exists d ws,
     dl_contact d = c /\ captioned d /\
     deliveries s' = deliveries s ++ [d] /\
     sheet_updates s' = sheet_updates s ++ ws /\
     Forall (fun u => upd_row u = row_number c) ws /\
     total (state s') = total (state s) /\
     send_log s' = send_log s /\
     ((r <> Return Next /\
       local_results s' = local_results s /\
       results (state s') = results (state s) /\
       remaining (state s') = remaining (state s) /\
       sent (state s') = sent (state s) /\
       (failed (state s) <= failed (state s') <= failed (state s) + 1)%Z) \/
      (exists res,
         answers d res /\
         local_results s' = local_results s ++ [res] /\
         results (state s') = results (state s) ++ [res] /\
         remaining (state s') = (remaining (state s) - 1)%Z /\
         sent (state s') = (sent (state s) + if success res then 1 else 0)%Z /\
         failed (state s') = (failed (state s) + if success res then 0 else 1)%Z))).
Proof.
  intros H. apply iteration_inv in H.
  destruct H as [[_ [-> I]]|[_ [s1 [I1 [[e [_ [-> ->]]]|[caption [s2 [ra [Hf [Ha H]]]]]]]]]].
  - left. split; [exact I|discriminate].
  - left. split; [exact I1|discriminate].
  - right.
    destruct (attempt_general c caption s1)
      as [sx [rx [ws [Ex [Hd [Hu [Hrow [Hl [Hr [Hrem [Ht [Hlog [Hc Hra]]]]]]]]]]]]].
    rewrite Ex in Ha. injection Ha as -> ->.
    exists (delivery_of c caption s1), ws.
    destruct I1 as [[Id [Iu [Il [Ir [Is If]]]]] [Irem [It [Ilog _]]]].
    split; [reflexivity|]. split; [exact Hf|].
    destruct ra as [[res|]|e].
    + destruct H as [R _]. unfold recorded in R. decompose [and] R.
      destruct Hra as [Hc1 [Hts [Hsucc [Hsent Hfail]]]].
      repeat (split; [congruence|]).
      right. exists res. split.
      { unfold answers. cbn [dl_contact delivery_of]. split; [exact Hc1|].
        rewrite Hts. exact Hsucc. }
      repeat split; congruence.
    + destruct H as [-> ->]. destruct Hra as [_ [Hsent Hfail]].
      repeat (split; [congruence|]).
      left. split; [discriminate|]. repeat (split; [congruence|]). lia.
    + destruct H as [-> ->]. destruct Hra as [Hsent Hfail].
      repeat (split; [congruence|]).
      left. split; [discriminate|]. repeat (split; [congruence|]). lia.
Qed.

Lemma main_loop_served fuel delay on_progress n contacts : forall i s s' r,
  main_loop fuel delay on_progress n i contacts s = Some (s', r) ->
  served contacts s s'.
Proof.
  induction contacts as [|c rest IH]; intros i s s' r H; cbn [main_loop] in H.
  - injection H as <- _. apply served_idle, idle_refl.
  - assert (K : forall s1 sig,
              iteration fuel delay on_progress n i c s = Some (s1, sig) ->
              (sig <> Return Next -> served (c :: rest) s s1) /\
              (sig = Return Next ->
               forall ds rs ws, serving rest s1 s' ds rs ws -> served (c :: rest) s s')).
    { intros s1 sig E. apply iteration_served in E.
      destruct E as [[I Hn]|[d [ws1 [Hc [Hcap [Hd [Hu [Hrow [Ht [Hlog E]]]]]]]]]].
      - split; [intros _; now apply served_idle|intros G; congruence].
      - destruct E as [[Hn [Hl [Hr [Hrem [Hs Hf]]]]]|[res [Ha [Hl [Hr [Hrem [Hs Hf]]]]]]].
        + split; [|intros G; congruence]. intros _.
          exists [d], [], ws1. now apply serving_last.
        + split.
          * intros _. exists (d :: []), (res :: []), (ws1 ++ []).
            eapply serving_cons; try eassumption. apply serving_idle, idle_refl.
          * intros _ ds rs ws G. exists (d :: ds), (res :: rs), (ws1 ++ ws).
            eapply serving_cons; eassumption. }
    apply bind_inv in H. destruct H as [[s1 [sig [E H]]]|[e [E _]]].
    + destruct (K _ _ E) as [K1 K2]. destruct sig.
      * apply IH in H. destruct H as [ds [rs [ws G]]]. eapply K2; [reflexivity|exact G].
      * injection H as <- _. apply K1. discriminate.
    + destruct (K _ _ E) as [K1 _]. apply K1. discriminate.
Qed.

(** *** The books of a run *)

Lemma booked_start contacts s :
  local_results s = [] -> remaining (state s) = total (state s) -> booked contacts s s.
Proof.
  intros Hl Hr. exists [], [].
  constructor; rewrite ?Hl, ?app_nil_r; unfold successes, failures;
    cbn [List.length Z.of_nat map firstn filter];
    first [assumption | lia | reflexivity | now left | idtac].
Qed.

Lemma booked_settled contacts s0 s s' :
  booked contacts s0 s -> settled s s' -> booked contacts s0 s'.
Proof.
  intros [ds [ws G]] [[Hd [Hu [Hl [Hr [Hs Hf]]]]] [Hrem Ht]]. destruct G.
  exists ds, ws. constructor; rewrite ?Hl, ?Hd, ?Hu, ?Hr, ?Hs, ?Hf, ?Hrem, ?Ht;
    assumption.
Qed.

Lemma booked_served contacts s0 s s' :
  local_results s = [] -> deliveries s = deliveries s0 ->
  sheet_updates s = sheet_updates s0 ->
  results (state s) = results (state s0) ->
  sent (state s) = sent (state s0) -> failed (state s) = failed (state s0) ->
  remaining (state s) = total (state s) ->
  served contacts s s' -> booked contacts s0 s'.
Proof.
  intros Hl Hd Hu Hr Hs Hf Hrem [ds [rs [ws G]]]. destruct G.
  rewrite Hl in sv_local0. cbn [app] in sv_local0.
  exists ds, ws. constructor; rewrite ?sv_local0; try congruence; lia.
Qed.

(** The body of the outer [try] leaves the books alone, or comes to the
    main loop with the books as they were and ends with it. *)
Lemma guarded_inv fuel count delay on_progress s s' r :
  guarded fuel count delay on_progress s = Some (s', r) ->
  let contacts := get_pending_contacts count (sheet env) in
  (settled s s' /\ send_log s' = send_log s) \/
  exists s9 r10,
    send_log s9 = send_log s /\
    deliveries s9 = deliveries s /\
    sheet_updates s9 = sheet_updates s /\
    local_results s9 = local_results s /\
    results (state s9) = results (state s) /\
    sent (state s9) = sent (state s) /\
    failed (state s9) = failed (state s) /\
    remaining (state s9) = total (state s9) /\
    main_loop fuel delay on_progress (Z.of_nat (List.length contacts)) 0 contacts s9
      = Some (s', r10).
Proof.
  intros H contacts. unfold guarded in H. fold contacts in H.
  pose proof (idle_refl s) as I.
  apply (step_idle _ _ s) in H; [|apply idle_log|exact I].
  clear I. destruct H as [[s1 [u1 [I H]]]|[I _]]; [|left; split; [now apply idle_settled|apply I]].
  apply (step_idle _ _ s) in H; [|apply (keeps_lift _ idle_refl)|exact I].
  clear I. destruct H as [[s2 [u2 [I H]]]|[I _]]; [|left; split; [now apply idle_settled|apply I]].
  apply (step_idle _ _ s) in H; [|apply idle_log|exact I].
  clear I. destruct H as [[s3 [u3 [I H]]]|[I _]]; [|left; split; [now apply idle_settled|apply I]].
  apply (step_idle _ _ s) in H; [|apply (keeps_lift _ idle_refl)|exact I].
  clear I. destruct H as [[s4 [handles [I H]]]|[I _]]; [|left; split; [now apply idle_settled|apply I]].
  apply (step_idle _ _ s) in H; [|apply (keeps_lift _ idle_refl)|exact I].
  clear I. destruct H as [[s5 [found [I H]]]|[I _]]; [|left; split; [now apply idle_settled|apply I]].
  apply (step_idle _ _ s) in H; [| |exact I].
  2:{ destruct found; [apply (keeps_ret _ idle_refl)|].
      apply (keeps_bind _ idle_trans); [apply idle_log|intros _].
      apply (keeps_bind _ idle_trans); [apply (keeps_lift _ idle_refl)|intros _].
      apply idle_sleep. }
  clear I. destruct H as [[s6 [u6 [I H]]]|[I _]]; [|left; split; [now apply idle_settled|apply I]].
  apply (step_idle _ _ s) in H; [|apply idle_log|exact I].
  clear I. destruct H as [[s7 [u7 [I H]]]|[I _]]; [|left; split; [now apply idle_settled|apply I]].
  apply (step_idle _ _ s) in H; [|apply idle_log|exact I].
  clear I. destruct H as [[s8 [u8 [I H]]]|[I _]]; [|left; split; [now apply idle_settled|apply I]].
  apply (step_idle _ _ s) in H; [|apply (keeps_lift _ idle_refl)|exact I].
  clear I. destruct H as [[s9 [u9 [I H]]]|[I _]]; [|left; split; [now apply idle_settled|apply I]].
  destruct (Z.of_nat (List.length contacts) =? 0)%Z.
  - left.
    apply (step_idle _ _ s) in H; [|apply idle_log|exact I].
    clear I. destruct H as [[s10 [u10 [I H]]]|[I _]];
      [|split; [now apply idle_settled|apply I]].
    apply bind_inv in H. destruct H as [[s11 [u11 [E H]]]|[e [E _]]]; [|discriminate E].
    injection E as <- _. injection H as <- _. split.
    + eapply settled_trans; [apply idle_settled; exact I|].
      unfold settled, still. simpl. tauto.
    + cbn [send_log with_state]. apply I.
  - apply (step_idle _ _ s) in H; [| |exact I].
    2:{ destruct (Z.of_nat (List.length contacts) <? count)%Z;
          [apply idle_log|apply (keeps_ret _ idle_refl)]. }
    clear I. destruct H as [[s10 [u10 [I H]]]|[I _]]; [|left; split; [now apply idle_settled|apply I]].
    right.
    apply bind_inv in H. destruct H as [[s11 [u11 [E11 H]]]|[e [E11 _]]]; [|discriminate E11].
    apply bind_inv in H. destruct H as [[s12 [u12 [E12 H]]]|[e [E12 _]]]; [|discriminate E12].
    assert (F : send_log s12 = send_log s /\
                deliveries s12 = deliveries s /\ sheet_updates s12 = sheet_updates s /\
                local_results s12 = local_results s /\
                results (state s12) = results (state s) /\
                sent (state s12) = sent (state s) /\
                failed (state s12) = failed (state s) /\
                remaining (state s12) = total (state s12)).
    { destruct I as [[Id [Iu [Il [Ir [Is If]]]]] [_ [_ [Ilog _]]]].
      injection E11 as <- _. injection E12 as <- _. simpl.
      repeat split; congruence. }
    destruct F as [F0 [F1 [F2 [F3 [F4 [F5 [F6 F7]]]]]]].
    apply bind_inv in H. destruct H as [[s13 [u13 [E13 H]]]|[e [E13 _]]].
    + injection H as <- _. exists s12, (Return u13). now repeat split.
    + exists s12, (Raise e). now repeat split.
Qed.

Lemma guarded_booked fuel count delay on_progress s s' r :
  local_results s = [] -> remaining (state s) = total (state s) ->
  guarded fuel count delay on_progress s = Some (s', r) ->
  booked (get_pending_contacts count (sheet env)) s s'.
Proof.
  intros Hl Hrem H. apply guarded_inv in H.
  destruct H as [[H _]|[s9 [r10 [_ [F1 [F2 [F3 [F4 [F5 [F6 [F7 E]]]]]]]]]]].
  - eapply booked_settled; [now apply booked_start|exact H].
  - apply main_loop_served in E.
    apply (booked_served _ s s9); try assumption. congruence.
Qed.

Lemma guarded_log fuel count delay on_progress s s' r :
  guarded fuel count delay on_progress s = Some (s', r) -> send_log s' = send_log s.
Proof.
  intros H. apply guarded_inv in H.
  destruct H as [[_ H]|[s9 [r10 [F0 [_ [_ [_ [_ [_ [_ [_ E]]]]]]]]]]]; [exact H|].
  apply main_loop_served in E. destruct E as [ds [rs [ws G]]]. destruct G. congruence.
Qed.

(** A guarded run ends with its [finally] clause, which finds the log file
    as it was: the run returns the local list when the clause returns, and
    raises the error of the clause when it raises. *)
Lemma guarded_run_spec fuel count delay on_progress s s' r :
  local_results s = [] ->
  guarded_run fuel count delay on_progress s = Some (s', r) ->
  exists s1 rf,
    finalizer s1 = Some (s', rf) /\
    send_log s1 = send_log s /\
    match rf with
    | Return _ => r = Return (local_results s')
    | Raise e => r = Raise e
    end.
Proof.
  intros Hnil H. unfold guarded_run in H.
  assert (L : forall s1 r1,
            try_except (guarded fuel count delay on_progress)
              (fun e => _log (CriticalError (exn_str e)) ;; ret None) s = Some (s1, r1) ->
            send_log s1 = send_log s).
  { intros s1 r1 G. unfold try_except in G.
    destruct (guarded fuel count delay on_progress s) as [[s4 [a|e]]|] eqn:Hg;
      try discriminate.
    - injection G as <- _. eapply guarded_log; exact Hg.
    - apply guarded_log in Hg. unfold bind, _log, modify, ret in G.
      injection G as <- _. exact Hg. }
  destruct (bind_inv _ _ _ _ _ H) as [[s2 [early [E F]]]|[e [E ->]]].
  - destruct (try_finally_inv _ _ _ _ _ E) as [s1 [r1 [G [[[] [Hf Hr]]|[e [Hf Hr]]]]]];
      [|discriminate Hr].
    exists s1, (Return tt). subst r1.
    destruct early as [v|]; injection F as <- <-;
      (split; [exact Hf|]); (split; [eapply L; exact G|]); [|reflexivity].
    f_equal.
    assert (Hv : v = [] /\ still s s1).
    { unfold try_except in G.
      destruct (guarded fuel count delay on_progress s) as [[s4 [a|e]]|] eqn:Hg;
        try discriminate.
      injection G as -> ->. eapply guarded_early; exact Hg. }
    destruct Hv as [-> [_ [_ [Hl _]]]].
    apply settled_finalizer in Hf. destruct Hf as [[_ [_ [Hl2 _]]] _]. congruence.
  - destruct (try_finally_inv _ _ _ _ _ E) as [s1 [r1 [G [[u [Hf Hr]]|[e' [Hf Hr]]]]]].
    + exfalso. subst r1. unfold try_except in G.
      destruct (guarded fuel count delay on_progress s) as [[s4 [a|e0]]|];
        discriminate.
    + exists s1, (Raise e'). split; [exact Hf|]. split; [eapply L; exact G|]. congruence.
Qed.

Lemma start_books count state0 s :
  local_results (start count state0 s) = [] /\
  remaining (state (start count state0 s)) = total (state (start count state0 s)) /\
  deliveries (start count state0 s) = deliveries s /\
  results (state (start count state0 s)) = results (initial_state state0) /\
  sheet_updates (start count state0 s) = sheet_updates s /\
  sent (state (start count state0 s)) = sent (initial_state state0) /\
  failed (state (start count state0 s)) = failed (initial_state state0).
Proof. unfold start. simpl. repeat split. Qed.

Lemma guarded_run_booked fuel count delay on_progress s s' r :
  local_results s = [] -> remaining (state s) = total (state s) ->
  guarded_run fuel count delay on_progress s = Some (s', r) ->
  booked (get_pending_contacts count (sheet env)) s s'.
Proof.
  intros Hl Hrem H. unfold guarded_run in H.
  assert (B : forall s2 r2,
            try_finally
              (try_except (guarded fuel count delay on_progress)
                 (fun e => _log (CriticalError (exn_str e)) ;; ret None))
              finalizer s = Some (s2, r2) ->
            booked (get_pending_contacts count (sheet env)) s s2).
  { intros s2 r2 E. apply try_finally_inv in E.
    destruct E as [s1 [r1 [G F]]].
    assert (B1 : booked (get_pending_contacts count (sheet env)) s s1).
    { unfold try_except in G.
      destruct (guarded fuel count delay on_progress s) as [[s0 [a|e]]|] eqn:Hg;
        try discriminate.
      - injection G as <- _. eapply guarded_booked; eassumption.
      - eapply booked_settled; [eapply guarded_booked; eassumption|].
        apply idle_settled. revert G.
        apply (keeps_bind _ idle_trans); [apply idle_log|intros _].
        apply (keeps_ret _ idle_refl). }
    eapply booked_settled; [exact B1|].
    destruct F as [[u [F _]]|[e [F _]]]; eapply settled_finalizer; exact F. }
  apply bind_inv in H. destruct H as [[s2 [early [E H]]]|[e [E _]]].
  - destruct early; injection H as <- _; eapply B; exact E.
  - eapply B; exact E.
Qed.

Lemma run_booked fuel count delay state0 on_progress s s' r :
  run_send_loop fuel count delay state0 on_progress s = Some (s', r) ->
  booked (get_pending_contacts (Z.min count daily_limit) (sheet env))
    (start (Z.min count daily_limit) state0 s) s'.
Proof.
  unfold run_send_loop.
  destruct (start_books (Z.min count daily_limit) state0 s) as [Hl [Hrem _]].
  revert Hl Hrem. generalize (start (Z.min count daily_limit) state0 s).
  intros s0 Hl Hrem.
  destruct (IMAGE_PATH env) as [image_path|].
  - destruct (path_exists env image_path); cbn [negb].
    + now apply guarded_run_booked.
    + intros H. eapply booked_settled; [now apply booked_start|].
      unfold image_missing, bind, _log, modify, ret in H. injection H as <- _.
      unfold settled, still. simpl. tauto.
  - intros [= <- _]. now apply booked_start.
Qed.

Lemma run_returns_local fuel count delay state0 on_progress s s' v :
  run_send_loop fuel count delay state0 on_progress s = Some (s', Return v) ->
  v = local_results s'.
Proof.
  unfold run_send_loop.
  destruct (start_books (Z.min count daily_limit) state0 s) as [Hl _].
  revert Hl. generalize (start (Z.min count daily_limit) state0 s). intros s0 Hl.
  destruct (IMAGE_PATH env) as [image_path|]; [|discriminate].
  destruct (path_exists env image_path); cbn [negb].
  - intros H. apply guarded_run_spec in H; [|exact Hl].
    destruct H as [s1 [[u|e] [_ [_ Hr]]]]; [|discriminate Hr].
    now injection Hr as ->.
  - unfold image_missing, bind, _log, modify, ret. intros [= <- <-]. simpl. now rewrite Hl.
Qed.

(** *** The cases of a delivery attempt *)

Tactic Notation "case_done" :=
  eexists; eexists; (split; [reflexivity|]); simpl;
  (split; [reflexivity|]);
  repeat match goal with
         | |- _ /\ _ => split
         | |- _ = _ => first [reflexivity | rewrite <- app_assoc; reflexivity]
         | |- exists res, Return (Some ?x) = Return (Some res) /\ _ => exists x
         | |- Return None = Return None \/ _ => left; reflexivity
         | |- _ \/ exists res, Return (Some ?x) = Return (Some res) /\ _ => right; exists x
         end.

(** What a delivery attempt does, case by case: by what the call of the
    delivery driver does, and by what the call of [write_status] after it
    does.  [t] is the second at which the driver is done. *)
Lemma attempt_cases c caption s :
  let d := delivery_of c caption s in
  let t := (clock s + snd (send_whatsapp_message env c caption (clock s)))%nat in
  let wrote v := sheet_updates s ++ [{| upd_row := row_number c; upd_value := v |}] in
  exists s' r,
    attempt c caption s = Some (s', r) /\
    deliveries s' = deliveries s ++ [d] /\
    match dl_outcome d with
    | Return _ =>
        match values_update env {| upd_row := row_number c; upd_value := 1 |} t with
        | Return _ =>
            sheet_updates s' = wrote 1%Z /\
            sent (state s') = (sent (state s) + 1)%Z /\
            failed (state s') = failed (state s) /\
            exists res, r = Return (Some res) /\ contact res = c /\ success res = true
        | Raise e' =>
            is_WhatsAppSendError e' = false ->
            sheet_updates s' = wrote 1%Z /\
            sent (state s') = sent (state s) /\
            failed (state s') = (failed (state s) + 1)%Z /\
            (r = Return None \/
             exists res, r = Return (Some res) /\ contact res = c /\ success res = false)
        end
    | Raise e =>
        if is_WhatsAppSendError e then
          sheet_updates s' = wrote 0%Z /\
          sent (state s') = sent (state s) /\
          match values_update env {| upd_row := row_number c; upd_value := 0 |} t with
          | Return _ =>
              failed (state s') = (failed (state s) + 1)%Z /\
              exists res, r = Return (Some res) /\ contact res = c /\ success res = false
          | Raise e' => failed (state s') = failed (state s) /\ r = Raise e'
          end
        else
          sheet_updates s' = sheet_updates s /\
          sent (state s') = sent (state s) /\
          failed (state s') = (failed (state s) + 1)%Z /\
          (r = Return None \/
           exists res, r = Return (Some res) /\ contact res = c /\ success res = false)
    end.
Proof.
  intros d t wrote. subst d t wrote.
  unfold attempt, try_except, bind, do_send, do_write_status, delivery_of, write_status.
  destruct (send_whatsapp_message env c caption (clock s)) as [out secs].
  cbn [fst snd dl_outcome clock].
  destruct out as [b|e0].
  - destruct (values_update env {| upd_row := row_number c; upd_value := 1 |}
                (clock s + secs)) as [u1|e1] eqn:W1.
    + case_done.
    + unfold is_ContactNotFoundError, is_WhatsAppSendError.
      destruct e1 as [cls msg]; destruct cls; cbn [exn_class_of]; cbn iota;
        unfold bind, do_write_status, incr_failed, new_result, _log, gets, modify, ret,
          write_status;
        cbn [clock with_state];
        try (destruct (values_update env {| upd_row := row_number c; upd_value := 0 |}
                         (clock s + secs)) as [u0|e2] eqn:W0;
             eexists; eexists; (split; [reflexivity|]); simpl;
             (split; [reflexivity|]); intros Hf; discriminate Hf);
        (destruct (is_whatsapp_connected env (clock s + secs)) eqn:Hc;
         eexists; eexists; (split; [reflexivity|]); simpl;
         (split; [reflexivity|]); intros _;
         repeat match goal with
                | |- _ /\ _ => split
                | |- _ = _ => reflexivity
                | |- Return None = Return None \/ _ => left; reflexivity
                | |- _ \/ exists res, Return (Some ?x) = Return (Some res) /\ _ =>
                    right; exists x
                end).
  - unfold is_ContactNotFoundError, is_WhatsAppSendError.
    destruct e0 as [cls msg]; destruct cls; cbn [exn_class_of]; cbn iota;
      unfold bind, do_write_status, incr_failed, new_result, _log, gets, modify, ret,
        write_status;
      cbn [clock with_state];
      try (destruct (values_update env {| upd_row := row_number c; upd_value := 0 |}
                       (clock s + secs)) as [u0|e2] eqn:W0; case_done);
      (destruct (is_whatsapp_connected env (clock s + secs)) eqn:Hc; case_done).
Qed.

(** *** The claims about the orchestrator *)

(** C1, as amended: each call of the delivery driver in [run_send_loop] is
    followed by its own write-back.  When the call returns, one call of
    [write_status] is made, with the value 1; [sent] goes up by one when
    that call returns, and when it raises an error that is no send error,
    it is [failed] that goes up by one.  When the delivery raises
    [ContactNotFoundError], [SendTimeoutError] or [WhatsAppSendError], one
    call of [write_status] is made, with the value 0; [failed] goes up by
    one when that call returns, and when it raises, its error leaves the
    loop and nothing is counted.  When the delivery raises another error,
    no call is made and [failed] goes up by one.  Over a whole run in
    which every call of [write_status] returns, the calls made and the two
    counters add up to just that, call by call. *)
Theorem write_back_once :
  (forall c caption s,
     let d := delivery_of c caption s in
     let t := (clock s + snd (send_whatsapp_message env c caption (clock s)))%nat in
     let wrote v := sheet_updates s ++ [{| upd_row := row_number c; upd_value := v |}] in
     exists s' r,
       attempt c caption s = Some (s', r) /\
       deliveries s' = deliveries s ++ [d] /\
       match dl_outcome d with
       | Return _ =>
           match values_update env {| upd_row := row_number c; upd_value := 1 |} t with
           | Return _ =>
               sheet_updates s' = wrote 1%Z /\
               sent (state s') = (sent (state s) + 1)%Z /\
               failed (state s') = failed (state s) /\
               exists res, r = Return (Some res) /\ contact res = c /\ success res = true
           | Raise e' =>
               is_WhatsAppSendError e' = false ->
               sheet_updates s' = wrote 1%Z /\
               sent (state s') = sent (state s) /\
               failed (state s') = (failed (state s) + 1)%Z /\
               (r = Return None \/
                exists res,
                  r = Return (Some res) /\ contact res = c /\ success res = false)
           end
       | Raise e =>
           if is_WhatsAppSendError e then
             sheet_updates s' = wrote 0%Z /\
             sent (state s') = sent (state s) /\
             match values_update env {| upd_row := row_number c; upd_value := 0 |} t with
             | Return _ =>
                 failed (state s') = (failed (state s) + 1)%Z /\
                 exists res,
                   r = Return (Some res) /\ contact res = c /\ success res = false
             | Raise e' => failed (state s') = failed (state s) /\ r = Raise e'
             end
           else
             sheet_updates s' = sheet_updates s /\
             sent (state s') = sent (state s) /\
             failed (state s') = (failed (state s) + 1)%Z /\
             (r = Return None \/
              exists res,
                r = Return (Some res) /\ contact res = c /\ success res = false)
       end) /\
  (forall msg,
     is_WhatsAppSendError {| exn_class_of := ContactNotFoundError; exn_str := msg |} = true /\
     is_WhatsAppSendError {| exn_class_of := SendTimeoutError; exn_str := msg |} = true /\
     is_WhatsAppSendError {| exn_class_of := WhatsAppSendError; exn_str := msg |} = true) /\
  (forall fuel count delay state0 on_progress s s' r,
     (forall u t, values_update env u t = Return tt) ->
     run_send_loop fuel count delay state0 on_progress s = Some (s', r) ->
     exists ds,
       deliveries s' = deliveries s ++ ds /\
       sheet_updates s' = sheet_updates s ++ flat_map status_of ds /\
       sent (state s') =
         (sent (initial_state state0) + count_of delivered ds)%Z /\
       failed (state s') =
         (failed (initial_state state0)
          + count_of (fun d => negb (delivered d)) ds)%Z).
Proof.
  split; [|split].
  - exact attempt_cases.
  - intros msg. repeat split.
  - intros fuel count delay state0 on_progress s s' r Hw H.
    exact (accounted_run Hw _ _ _ _ _ _ _ _ H).
Qed.

(** C3, as amended: a run that finds its image file ends the same way,
    whether it ran to the end, was stopped or met an exception: the running
    flag and the current target are cleared, and the log file is written.
    When the writes of the log file return, the run returns its outcomes,
    and the file holds the two counters, their sum, the log as it stands
    then (the closing summary line is added after it) and the outcomes;
    [sent] in the file is what the record started with plus the outcomes
    that say success, and when every call of [write_status] has returned,
    the two counters in the file are those the record started with plus
    the calls of the delivery driver that returned, for [sent], and that
    raised, for [failed].  When a write of the log file raises, the run
    raises that error, and the file is as it was, or cut short.  Such a run
    ends as soon as every pause does.  A run that does not find its image
    file returns the empty list with the running flag cleared, and leaves
    the log file as it was. *)
Theorem run_persists_log fuel count delay state0 on_progress s image_path :
  IMAGE_PATH env = Some image_path ->
  (path_exists env image_path = true ->
   (forall s' r,
      run_send_loop fuel count delay state0 on_progress s = Some (s', r) ->
      is_running (state s') = false /\
      current_contact (state s') = None /\
      current_phone (state s') = None /\
      match write_log_file env (clock s') with
      | LogWritten =>
          exists saved,
            r = Return (local_results s') /\
            send_log s' = Some saved /\
            log_total_attempted saved = (log_sent saved + log_failed saved)%Z /\
            log_messages (state s') =
              log_log saved ++
              [{| ts := clock s';
                  text := SessionComplete (log_sent saved) (log_failed saved) |}] /\
            log_results saved = local_results s' /\
            log_sent saved = sent (state s') /\
            log_failed saved = failed (state s') /\
            log_sent saved =
              (sent (initial_state state0) + successes (log_results saved))%Z /\
            ((forall u t, values_update env u t = Return tt) ->
             exists ds,
               deliveries s' = deliveries s ++ ds /\
               log_sent saved =
                 (sent (initial_state state0) + count_of delivered ds)%Z /\
               log_failed saved =
                 (failed (initial_state state0)
                  + count_of (fun d => negb (delivered d)) ds)%Z)
      | LogFailed truncated e =>
          r = Raise e /\
          send_log s' = (if truncated then None else send_log s)
      end) /\
   (forall bound,
      (forall t, exists d, (d <= bound)%nat /\ pause_requested env (t + d) = false) ->
      (bound <= fuel)%nat ->
      exists s' r,
        run_send_loop fuel count delay state0 on_progress s = Some (s', r))) /\
  (path_exists env image_path = false ->
   exists s',
     run_send_loop fuel count delay state0 on_progress s = Some (s', Return []) /\
     is_running (state s') = false /\
     send_log s' = send_log s /\
     deliveries s' = deliveries s /\
     sheet_updates s' = sheet_updates s /\
     log_messages (state s') =
       log_messages (initial_state state0)
       ++ [{| ts := clock s; text := ImageNotFound image_path |}]).
Proof.
  intros Hpath. split.
  - intros Hfile. split.
    + intros s' r H.
      pose proof (run_booked _ _ _ _ _ _ _ _ H) as [ds0 [ws0 B]].
      assert (A : (forall u t, values_update env u t = Return tt) ->
                  accounted (start (Z.min count daily_limit) state0 s) s').
      { intros Hw. exact (accounted_run Hw _ _ _ _ _ _ _ _ H). }
      destruct (start_books (Z.min count daily_limit) state0 s)
        as [Hl0 [_ [Hd0 [_ [_ [Hs0 Hf0]]]]]].
      unfold run_send_loop in H. rewrite Hpath, Hfile in H. cbn [negb] in H.
      apply guarded_run_spec in H; [|exact Hl0].
      destruct H as [s1 [rf [Hfin [Hlog1 Hr]]]].
      destruct (finalizer_spec s1) as [s2 [r2 [E [Hrun [Hc [Hp [_ [Hclock Hm]]]]]]]].
      rewrite E in Hfin. injection Hfin as -> ->.
      split; [exact Hrun|]. split; [exact Hc|]. split; [exact Hp|].
      rewrite <- Hclock in Hm.
      destruct (write_log_file env (clock s')) as [|truncated e].
      * destruct Hm as [-> [saved [G1 [G2 [G3 [G4 [G5 [G6 G7]]]]]]]].
        exists saved. split; [exact Hr|]. split; [exact G1|].
        split; [rewrite G2, G3; exact G4|]. split; [rewrite G2, G3; exact G6|].
        split; [exact G7|]. split; [exact G2|]. split; [exact G3|].
        split; [rewrite G2, G7; destruct B; congruence|].
        intros Hw. destruct (A Hw) as [ds [A1 [_ [A3 A4]]]].
        exists ds. rewrite G2, G3, <- Hd0, <- Hs0, <- Hf0. now repeat split.
      * destruct Hm as [-> [G1 _]]. split; [exact Hr|].
        rewrite G1, Hlog1. reflexivity.
    + intros bound Hb Hfuel.
      pose proof (ends_run bound Hb fuel count delay state0 on_progress Hfuel s) as He.
      destruct (run_send_loop fuel count delay state0 on_progress s) as [[s' r]|];
        [now exists s', r|congruence].
  - intros Hfile. unfold run_send_loop. rewrite Hpath, Hfile. cbn [negb].
    eexists. split; [reflexivity|]. simpl. repeat split.
Qed.

(** C8: when the contact source has no pending contact, the run ends with
    [sent] and [failed] at 0, as the record started with them, the running
    flag cleared, and without a call of the delivery driver.  It returns
    the empty list, unless a write of the log file raises: then it raises
    that error. *)
Theorem no_pending_contacts fuel count delay state0 on_progress s image_path :
  IMAGE_PATH env = Some image_path ->
  get_pending_contacts (Z.min count daily_limit) (sheet env) = [] ->
  sent (initial_state state0) = 0%Z ->
  failed (initial_state state0) = 0%Z ->
  exists s' r,
    run_send_loop fuel count delay state0 on_progress s = Some (s', r) /\
    (r = Return [] \/
     exists truncated e,
       write_log_file env (clock s') = LogFailed truncated e /\ r = Raise e) /\
    sent (state s') = 0%Z /\
    failed (state s') = 0%Z /\
    is_running (state s') = false /\
    deliveries s' = deliveries s.
Proof.
  intros Hpath Hnone Hs Hf.
  unfold run_send_loop. rewrite Hpath.
  destruct (start_books (Z.min count daily_limit) state0 s)
    as [Hl0 [_ [Hd0 [_ [_ [Hs0 Hf0]]]]]].
  revert Hl0 Hd0 Hs0 Hf0. generalize (start (Z.min count daily_limit) state0 s).
  intros s0 Hl0 Hd0 Hs0 Hf0.
  destruct (path_exists env image_path); cbn [negb].
  - assert (G : exists s1 early,
              try_except (guarded fuel (Z.min count daily_limit) delay on_progress)
                (fun e => _log (CriticalError (exn_str e)) ;; ret None) s0
                = Some (s1, Return early) /\
              settled s0 s1 /\ (early = Some [] \/ early = None)).
    { unfold guarded. rewrite Hnone.
      unfold try_except, bind, lift, _log, sleep, modify, ret.
      cbn [List.length Z.of_nat Z.eqb].
      destruct (connect env) as [[]|e0];
        [destruct (windows env) as [handles|e1];
         [destruct (find_tab handles) as [[|]|e2];
          [|destruct (open_whatsapp env) as [[]|e3]|];
          try (destruct (sheet_read env) as [[]|e4])|]|];
        (eexists; eexists; split; [reflexivity|]; unfold settled, still; simpl;
         tauto). }
    destruct G as [s1 [early [G [[[Sd [_ [Sl [_ [Ss Sf]]]]] _] Hearly]]]].
    destruct (finalizer_spec s1)
      as [s2 [rf [E [Hrun [_ [_ [[[Td [_ [Tl [_ [Ts Tf]]]]] _] [Hclock Hm]]]]]]]].
    assert (Hbooks : sent (state s2) = 0%Z /\ failed (state s2) = 0%Z /\
                     is_running (state s2) = false /\ deliveries s2 = deliveries s).
    { repeat split; congruence. }
    assert (Hl2 : local_results s2 = []) by congruence.
    unfold guarded_run. unfold bind at 1. unfold try_finally. rewrite G, E.
    rewrite <- Hclock in Hm.
    destruct (write_log_file env (clock s2)) as [|truncated e] eqn:W.
    + destruct Hm as [-> _]. exists s2, (Return []). split.
      * destruct Hearly as [-> | ->]; unfold ret, gets; [reflexivity|].
        now rewrite Hl2.
      * split; [now left|exact Hbooks].
    + destruct Hm as [-> _]. exists s2, (Raise e). split; [reflexivity|].
      split; [right; now exists truncated, e|exact Hbooks].
  - eexists. eexists. split; [reflexivity|]. simpl.
    split; [now left|]. repeat split; congruence.
Qed.


End OrchestratorFacts.

(** The run on the three contacts: the first message is sent in 30
    seconds, the second times out after 40, each followed by a delay of 20
    seconds; the stop asked for at second 100 ends the second delay and the
    run before the third contact.  Two status cells are written, 1 for row
    2 and 0 for row 3, and the log file holds one message sent and one
    failed. *)
Example three_contacts_run :
  exists s' saved v,
    @run_send_loop ascii_db three_contacts 0 5 18 None None empty_sys =
      Some (s', Return v) /\
    v = local_results s' /\
    clock s' = 100%nat /\
    map (fun d => row_number (dl_contact d)) (deliveries s') = [2; 3]%Z /\
    sheet_updates s' =
      [ {| upd_row := 2; upd_value := 1 |}; {| upd_row := 3; upd_value := 0 |} ] /\
    map success (local_results s') = [true; false] /\
    send_log s' = Some saved /\
    log_sent saved = 1%Z /\ log_failed saved = 1%Z /\
    is_running (state s') = false.
Proof.
  eexists. eexists. eexists. split; [vm_compute; reflexivity|].
  repeat (split; [vm_compute; reflexivity|]). reflexivity.
Qed.

(** C1, as the claim states it, fails when the Sheets service is out of
    reach.  The delivery to the first of the three contacts returns, and
    the call of [write_status] for row 2, with the value 1, raises: the
    contact is counted in [failed], not in [sent], and its outcome says
    failure.  The delivery to the second contact times out, and the call
    of [write_status] for row 3, with the value 0, raises in the handler:
    the error ends the loop, and the contact is counted nowhere. *)
Lemma write_failure_counts_as_failed :
  exists s' v,
    @run_send_loop ascii_db sheet_down 0 5 18 None None empty_sys =
      Some (s', Return v) /\
    map (fun d => (row_number (dl_contact d), delivered d)) (deliveries s') =
      [(2%Z, true); (3%Z, false)] /\
    sheet_updates s' =
      [ {| upd_row := 2; upd_value := 1 |}; {| upd_row := 3; upd_value := 0 |} ] /\
    map success v = [false] /\
    sent (state s') = 0%Z /\
    failed (state s') = 1%Z.
Proof.
  eexists. eexists. split; [vm_compute; reflexivity|].
  repeat (split; [vm_compute; reflexivity|]). reflexivity.
Defined.

(** C1, as amended, on the three contacts, where every call of
    [write_status] returns: the calls made are those of the two
    deliveries, and one delivery is counted in [sent], the other in
    [failed]. *)
Lemma write_back_once_run :
  exists s' r ds,
    @run_send_loop ascii_db three_contacts 0 5 18 None None empty_sys = Some (s', r) /\
    deliveries s' = ds /\
    sheet_updates s' = flat_map status_of ds /\
    sent (state s') = count_of delivered ds /\
    failed (state s') = count_of (fun d => negb (delivered d)) ds /\
    sheet_updates s' =
      [ {| upd_row := 2; upd_value := 1 |}; {| upd_row := 3; upd_value := 0 |} ].
Proof.
  assert (E : exists s' r,
            @run_send_loop ascii_db three_contacts 0 5 18 None None empty_sys
              = Some (s', r)).
  { eexists. eexists. vm_compute. reflexivity. }
  destruct E as [s' [r E]].
  destruct (proj2 (proj2 (@write_back_once ascii_db three_contacts))
              0%nat 5%Z 18%Z None None empty_sys s' r (fun _ _ => eq_refl) E)
    as [ds [Hd [Hu [Hs Hf]]]].
  exists s', r, ds. split; [exact E|].
  split; [exact Hd|]. split; [exact Hu|]. split; [exact Hs|]. split; [exact Hf|].
  vm_compute in E. injection E as <- _. reflexivity.
Defined.

(** With [IMAGE_PATH] not set, [Path(image_path)] raises outside the
    [try]: the run ends by that error and the running flag stays set. *)
Example image_unset_run :
  exists s' e,
    @run_send_loop ascii_db image_unset 0 5 60 None None empty_sys =
      Some (s', Raise e) /\
    exn_class_of e = TypeError /\
    is_running (state s') = true /\
    send_log s' = None.
Proof. eexists. eexists. split; [reflexivity|]. repeat split. Qed.

(** When the log file cannot be written, the run on the three contacts
    ends by the error of the write, with the running flag cleared and no
    log file. *)
Example log_unwritable_run :
  exists s' e,
    @run_send_loop ascii_db log_unwritable 0 5 18 None None empty_sys =
      Some (s', Raise e) /\
    exn_class_of e = Other "OSError" /\
    is_running (state s') = false /\
    sent (state s') = 1%Z /\
    send_log s' = None.
Proof.
  eexists. eexists. split; [vm_compute; reflexivity|]. repeat split.
Qed.

(** C3, as the claim states it, fails when the image file is missing: the
    run returns the empty list with the running flag cleared, and no log
    file has been written. *)
Lemma no_log_without_image :
  exists s',
    @run_send_loop ascii_db image_gone 0 5 60 None None empty_sys =
      Some (s', Return []) /\
    is_running (state s') = false /\
    send_log s' = None.
Proof. eexists. split; [reflexivity|]. split; reflexivity. Defined.

(** C3, as amended, on the three contacts: the run ends, and the log file
    holds the counters of the record, which are the numbers of deliveries
    that returned and that raised. *)
Lemma run_persists_log_run :
  exists s' saved ds,
    @run_send_loop ascii_db three_contacts 0 5 18 None None empty_sys =
      Some (s', Return (local_results s')) /\
    is_running (state s') = false /\
    send_log s' = Some saved /\
    log_sent saved = sent (state s') /\
    log_failed saved = failed (state s') /\
    deliveries s' = ds /\
    log_sent saved = count_of delivered ds /\
    log_failed saved = count_of (fun d => negb (delivered d)) ds.
Proof.
  destruct (@run_persists_log ascii_db three_contacts 0 5 18 None None empty_sys
              "image.png" eq_refl) as [Hfound _].
  destruct (Hfound eq_refl) as [Hpost Hends].
  destruct (Hends 0%nat) as [s' [r E]].
  - intros t. exists 0%nat. split; [lia|reflexivity].
  - lia.
  - destruct (Hpost s' r E) as [Hrun [_ [_ H]]].
    cbn [write_log_file three_contacts] in H.
    destruct H as [saved [-> [G1 [_ [_ [_ [G2 [G3 [_ G4]]]]]]]]].
    destruct (G4 (fun _ _ => eq_refl)) as [ds [Hd [Hs Hf]]].
    exists s', saved, ds. repeat split; assumption.
Defined.

(** C8 on the sheet that has its header only. *)
Lemma no_pending_contacts_run :
  exists s',
    @run_send_loop ascii_db nothing_pending 0 5 60 None None empty_sys =
      Some (s', Return []) /\
    sent (state s') = 0%Z /\
    failed (state s') = 0%Z /\
    is_running (state s') = false /\
    deliveries s' = [].
Proof.
  destruct (@no_pending_contacts ascii_db nothing_pending 0 5 60 None None empty_sys
              "image.png" eq_refl eq_refl eq_refl eq_refl)
    as [s' [r [E [[->|[truncated [e [W _]]]] H]]]].
  - exists s'. split; [exact E|exact H].
  - cbn [write_log_file nothing_pending] in W. discriminate W.
Defined.


(** A draw for which the sum is rounded up: the jitter is a float just
    below 1, the sum of 30 and the jitter is below 31, and the float
    nearest to it is 31, so that the delay is of 31 seconds. *)
Example delay_rounded_up :
  let draw := (3602879701896396 # 9007199254740992)%Q in
  let jitter := float_add (inject_Z (-5)) (float_mul (inject_Z 15) draw) in
  (jitter < 1)%Q /\
  Qfloor (max20 (inject_Z 30 + jitter)) = 30%Z /\
  actual_delay_of 30 jitter = Return 31%Q.
Proof. intros draw jitter. split; [|split]; vm_compute; reflexivity. Qed.

(** A delay too large for a float: the sum raises [OverflowError], and so
    does the delay between two messages. *)
Example delay_too_large :
  actual_delay_of (2 ^ 1024) 0 =
    Raise {| exn_class_of := Other "OverflowError";
             exn_str := "int too large to convert to float" |} /\
  exists s' e,
    @inter_message_delay three_contacts (2 ^ 1024) 0 empty_sys = Some (s', Raise e) /\
    exn_class_of e = Other "OverflowError".
Proof.
  split; [vm_compute; reflexivity|].
  eexists. eexists. split; [vm_compute; reflexivity|reflexivity].
Qed.

(** * Further properties of the code *)

(** ** The contact source *)

(** *** The sheet named by an address *)

Lemma strip_prefix_iff p : forall s r, strip_prefix p s = Some r <-> s = p ++ r.
Proof.
  induction p as [|a p IH]; intros s r; simpl.
  - split; congruence.
  - destruct s as [|b s]; [split; discriminate|].
    destruct (N.eqb_spec a b) as [->|Hne].
    + rewrite IH. split; congruence.
    + split; [discriminate|congruence].
Qed.

Lemma take_while_iff f s id :
  take_while f s = id <->
  exists rest, s = id ++ rest /\ forallb f id = true /\
    match rest with [] => True | c :: _ => f c = false end.
Proof.
  revert id. induction s as [|c r IH]; intros id; simpl.
  - split.
    + intros <-. exists []. repeat split.
    + intros [rest [H _]]. symmetry in H. apply app_eq_nil in H. now destruct H.
  - destruct (f c) eqn:E.
    + split.
      * intros <-. destruct (proj1 (IH _) eq_refl) as [rest [H1 [H2 H3]]].
        exists rest. simpl. rewrite E, H2. repeat split; [now f_equal|exact H3].
      * intros [rest [H1 [H2 H3]]]. destruct id as [|x id].
        { simpl in H1. subst rest. congruence. }
        simpl in H1, H2. injection H1 as <- ->. apply andb_prop in H2.
        f_equal. apply IH. exists rest. repeat split; tauto.
    + split.
      * intros <-. exists (c :: r). repeat split. exact E.
      * intros [rest [H1 [H2 H3]]]. destruct id as [|x id]; [reflexivity|].
        simpl in H1, H2. injection H1 as <- _. rewrite E in H2. discriminate.
Qed.

Lemma match_here_some s id :
  match_here s = Some id <->
  exists rest, s = spreadsheets_d ++ id ++ rest /\ id <> [] /\
    forallb sheet_id_char id = true /\ ends_id rest.
Proof.
  unfold match_here. split.
  - destruct (strip_prefix spreadsheets_d s) as [r|] eqn:E; [|discriminate].
    apply strip_prefix_iff in E.
    destruct (take_while sheet_id_char r) as [|x l] eqn:T; [discriminate|].
    intros [= <-]. apply take_while_iff in T. destruct T as [rest [H1 [H2 H3]]].
    exists rest. subst. repeat split; try assumption. discriminate.
  - intros [rest [H1 [H2 [H3 H4]]]].
    assert (E : strip_prefix spreadsheets_d s = Some (id ++ rest))
      by now apply strip_prefix_iff.
    rewrite E.
    assert (T : take_while sheet_id_char (id ++ rest) = id).
    { apply take_while_iff. now exists rest. }
    rewrite T. destruct id; [congruence|reflexivity].
Qed.

Lemma match_here_none s :
  match_here s = None <->
  forall c rest, s = spreadsheets_d ++ c :: rest -> sheet_id_char c = false.
Proof.
  unfold match_here. split.
  - intros H c rest ->.
    assert (E : strip_prefix spreadsheets_d (spreadsheets_d ++ c :: rest) = Some (c :: rest))
      by now apply strip_prefix_iff.
    rewrite E in H. simpl in H. destruct (sheet_id_char c); [discriminate|reflexivity].
  - intros H. destruct (strip_prefix spreadsheets_d s) as [r|] eqn:E; [|reflexivity].
    apply strip_prefix_iff in E. destruct r as [|c r]; [reflexivity|].
    simpl. now rewrite (H c r E).
Qed.

(** X1: [extract_sheet_id] returns the id that follows the first
    "/spreadsheets/d/" of the address that is followed by a character of
    an id: the longest run of letters, digits, "_" and "-" that starts
    there, which is never empty.  It returns that id in no other case;
    the address of the docstring gives "SHEET_ID". *)
Theorem extract_sheet_id_leftmost_longest :
  (forall url id,
     extract_sheet_id url = Some id <->
     exists pre rest,
       url = pre ++ spreadsheets_d ++ id ++ rest /\ id <> [] /\
       forallb sheet_id_char id = true /\ ends_id rest /\
       forall pre' c rest',
         url = pre' ++ spreadsheets_d ++ c :: rest' -> sheet_id_char c = true ->
         (List.length pre <= List.length pre')%nat) /\
  extract_sheet_id (py "https://docs.google.com/spreadsheets/d/SHEET_ID/edit#gid=0")
    = Some (py "SHEET_ID").
Proof.
  split; [|reflexivity]. unfold extract_sheet_id.
  intros s. induction s as [|a s IH]; intros id.
  - simpl. split; [discriminate|].
    intros [pre [rest [H _]]]. destruct pre; discriminate.
  - cbn [re_search]. destruct (match_here (a :: s)) as [id0|] eqn:E.
    + split.
      * intros [= ->]. apply match_here_some in E.
        destruct E as [rest [H1 [H2 [H3 H4]]]].
        exists [], rest. repeat split; try assumption. cbn [List.length]. intros. lia.
      * intros [pre [rest [H1 [H2 [H3 [H4 H5]]]]]].
        apply match_here_some in E. destruct E as [rest0 [G1 [G2 [G3 G4]]]].
        destruct id0 as [|c0 id0]; [congruence|].
        cbn [forallb] in G3. apply andb_prop in G3.
        specialize (H5 [] c0 (id0 ++ rest0) G1 (proj1 G3)).
        destruct pre; [|cbn [List.length] in H5; lia].
        cbn [app] in H1. rewrite H1 in G1.
        assert (M : match_here (spreadsheets_d ++ id ++ rest) = Some id).
        { apply match_here_some. now exists rest. }
        assert (M' : match_here (spreadsheets_d ++ id ++ rest) = Some (c0 :: id0)).
        { rewrite G1. apply match_here_some. exists rest0.
          repeat split; try assumption.
          cbn [forallb]. now apply andb_true_intro. }
        congruence.
    + rewrite IH. pose proof (proj1 (match_here_none _) E) as Hn. split.
      * intros [pre [rest [H1 [H2 [H3 [H4 H5]]]]]].
        exists (a :: pre), rest. repeat split; try assumption.
        { cbn [app]. now f_equal. }
        intros pre' c rest' G1 G2. destruct pre' as [|a' pre'].
        { cbn [app] in G1. rewrite (Hn c rest' G1) in G2. discriminate. }
        cbn [app] in G1. injection G1 as _ G1. cbn [List.length].
        specialize (H5 pre' c rest' G1 G2). lia.
      * intros [pre [rest [H1 [H2 [H3 [H4 H5]]]]]].
        destruct pre as [|a' pre].
        { exfalso. cbn [app] in H1. destruct id as [|c id]; [congruence|].
          cbn [forallb] in H3. apply andb_prop in H3.
          rewrite (Hn c (id ++ rest) H1) in H3. destruct H3. discriminate. }
        cbn [app] in H1. injection H1 as _ H1.
        exists pre, rest. repeat split; try assumption.
        intros pre' c rest' G1 G2.
        specialize (H5 (a :: pre') c rest').
        cbn [List.length] in H5.
        assert (G : a :: s = (a :: pre') ++ spreadsheets_d ++ c :: rest')
          by (cbn [app]; now f_equal).
        specialize (H5 G G2). lia.
Qed.

(** X2: [extract_sheet_id] returns [None] exactly when no
    "/spreadsheets/d/" of the address is followed by a character of an
    id; so it does for an address without that text, and for one that
    ends with it. *)
Theorem extract_sheet_id_none :
  (forall url,
     extract_sheet_id url = None <->
     forall pre c rest,
       url = pre ++ spreadsheets_d ++ c :: rest -> sheet_id_char c = false) /\
  extract_sheet_id (py "https://docs.google.com/spreadsheets/d/") = None /\
  extract_sheet_id (py "https://example.com/d/abc") = None.
Proof.
  split; [|split; reflexivity]. unfold extract_sheet_id.
  intros s. induction s as [|a s IH].
  - simpl. split; [|reflexivity]. intros _ pre c rest H. destruct pre; discriminate.
  - cbn [re_search]. destruct (match_here (a :: s)) as [id0|] eqn:E.
    + split; [discriminate|]. intros H. exfalso.
      apply match_here_some in E. destruct E as [rest [H1 [H2 [H3 H4]]]].
      destruct id0 as [|c id0]; [congruence|].
      cbn [forallb] in H3. apply andb_prop in H3.
      rewrite (H [] c (id0 ++ rest) H1) in H3. destruct H3. discriminate.
    + rewrite IH. pose proof (proj1 (match_here_none _) E) as Hn. split.
      * intros H pre c rest G. destruct pre as [|a' pre].
        { exact (Hn c rest G). }
        cbn [app] in G. injection G as _ G. exact (H pre c rest G).
      * intros H pre c rest G. apply (H (a :: pre) c rest). cbn [app]. now f_equal.
Qed.

Section SheetMore.
Context {db : UnicodeDB}.

(** *** More facts about stripping *)

Lemma lstrip_lstrip s : lstrip (lstrip s) = lstrip s.
Proof.
  induction s as [|c r IH]; simpl; [reflexivity|].
  destruct (isspace c) eqn:E; [exact IH|]. simpl. now rewrite E.
Qed.

Lemma lstrip_snoc l c : isspace c = false -> lstrip (l ++ [c]) = lstrip l ++ [c].
Proof.
  intros Hc. induction l as [|x l IH]; simpl.
  - now rewrite Hc.
  - destruct (isspace x); [exact IH|reflexivity].
Qed.

Lemma lstrip_head s : match lstrip s with [] => True | c :: _ => isspace c = false end.
Proof.
  induction s as [|c r IH]; simpl; [exact I|].
  destruct (isspace c) eqn:E; [exact IH|exact E].
Qed.

Lemma lstrip_id s :
  match s with [] => True | c :: _ => isspace c = false end -> lstrip s = s.
Proof. destruct s as [|c r]; simpl; [reflexivity|]. now intros ->. Qed.

Lemma rstrip_rstrip s : rstrip (rstrip s) = rstrip s.
Proof. unfold rstrip. now rewrite rev_involutive, lstrip_lstrip. Qed.

Lemma rstrip_head s :
  match s with [] => True | c :: _ => isspace c = false end ->
  match rstrip s with [] => True | c :: _ => isspace c = false end.
Proof.
  destruct s as [|c r]; [intros _; exact I|]. intros Hc.
  unfold rstrip. cbn [rev]. rewrite lstrip_snoc by exact Hc.
  rewrite rev_app_distr. simpl. exact Hc.
Qed.

Lemma strip_strip s : strip (strip s) = strip s.
Proof.
  unfold strip. rewrite (lstrip_id (rstrip (lstrip s))).
  - apply rstrip_rstrip.
  - apply rstrip_head, lstrip_head.
Qed.

Lemma filter_id {A} (f : A -> bool) l : Forall (fun x => f x = true) l -> filter f l = l.
Proof.
  induction 1 as [|x l Hx _ IH]; simpl; [reflexivity|]. now rewrite Hx, IH.
Qed.

(** *** First names and phone numbers *)

(** X6: the first name [extract_first_name] returns is trimmed: it is
    left as it is by [strip], so it neither starts nor ends with
    whitespace; and it is not blank. *)
Theorem extract_first_name_trimmed s :
  strip (extract_first_name s) = extract_first_name s /\
  blank (extract_first_name s) = false.
Proof.
  assert (T : strip (extract_first_name s) = extract_first_name s).
  { unfold extract_first_name.
    destruct (negb (truthy s) || negb (truthy (strip s))); [reflexivity|].
    destruct (contains comma s); [|apply strip_strip].
    destruct (truthy (strip (nth 1 (split1 comma s) []))); [apply strip_strip|reflexivity]. }
  split; [exact T|].
  destruct (blank (extract_first_name s)) eqn:B; [|reflexivity].
  apply strip_nil_iff in B. rewrite T in B.
  unfold extract_first_name in B.
  destruct (negb (truthy s) || negb (truthy (strip s))) eqn:E1; [discriminate B|].
  apply orb_false_elim in E1. destruct E1 as [_ E1]. apply negb_false_iff in E1.
  destruct (contains comma s).
  - destruct (truthy (strip (nth 1 (split1 comma s) []))) eqn:E2; [|discriminate B].
    rewrite B in E2. discriminate.
  - rewrite B in E1. discriminate.
Qed.

(** X5: [normalize_phone] changes nothing in a number it has normalized:
    applied twice it gives what it gives applied once, and the strings it
    leaves as they are are those made of digits only, as "16145541758". *)
Theorem normalize_phone_fixed_points :
  (forall s, normalize_phone (normalize_phone s) = normalize_phone s) /\
  (forall s, normalize_phone s = s <-> forallb isdigit s = true) /\
  normalize_phone (py "16145541758") = py "16145541758".
Proof.
  assert (Fix : forall s, normalize_phone s = s <-> forallb isdigit s = true).
  { intros s. rewrite normalize_phone_filter. split.
    - intros H. rewrite <- H. apply forallb_forall. intros c Hc.
      now apply filter_In in Hc.
    - intros H. apply filter_id. apply Forall_forall. now apply forallb_forall. }
  split; [|split; [exact Fix|reflexivity]].
  intros s. apply Fix. rewrite normalize_phone_filter.
  apply forallb_forall. intros c Hc. now apply filter_In in Hc.
Qed.

(** *** Pending contacts *)

Lemma get_pending_contacts_firstn limit all_rows :
  get_pending_contacts limit all_rows = firstn (Z.to_nat limit) (all_pending all_rows).
Proof.
  unfold get_pending_contacts, all_pending. rewrite pending_loop_spec.
  cbn [List.length app]. now rewrite Nat.sub_0_r.
Qed.

Lemma pending_from_fields idx rows :
  Forall (fun c =>
    (idx <= row_number c < idx + Z.of_nat (List.length rows))%Z /\
    first_name c = extract_first_name (sort_name c) /\
    phone_clean c = normalize_phone (phone_raw c) /\
    strip (sort_name c) = sort_name c /\
    strip (phone_raw c) = phone_raw c /\
    truthy (phone_raw c) = true)
  (pending_from idx rows).
Proof.
  revert idx. induction rows as [|row rest IH]; intros idx; cbn [pending_from].
  - constructor.
  - assert (H : Forall (fun c =>
      (idx <= row_number c < idx + Z.of_nat (List.length (row :: rest)))%Z /\
      first_name c = extract_first_name (sort_name c) /\
      phone_clean c = normalize_phone (phone_raw c) /\
      strip (sort_name c) = sort_name c /\
      strip (phone_raw c) = phone_raw c /\
      truthy (phone_raw c) = true) (pending_from (idx + 1) rest)).
    { eapply Forall_impl; [|apply IH]. cbn [List.length]. intros c Hc.
      repeat split; try tauto; lia. }
    destruct (status_empty row); cbn [andb]; [|exact H].
    unfold survives_exclusion.
    destruct (truthy (cell 3 row)) eqn:E; cbn [andb]; [|exact H].
    destruct (truthy (normalize_phone (cell 3 row))); [|exact H].
    constructor; [|exact H].
    cbn [contact_of_row row_number first_name sort_name phone_clean phone_raw List.length].
    unfold cell in *. rewrite !strip_strip.
    repeat split; try reflexivity; try assumption; lia.
Qed.

(** X3: every contact [get_pending_contacts] returns is built from one
    data row of the sheet: its row number lies between 2 and the number of
    rows, so the header is never returned; its sort name and its raw
    phone are trimmed and the phone is not empty; its first name is what
    [extract_first_name] gives for the sort name, and is not empty; its
    clean phone is what [normalize_phone] gives for the raw phone, and
    holds digits only. *)
Theorem pending_contact_fields limit all_rows :
  Forall (fun c =>
    (2 <= row_number c <= Z.of_nat (List.length all_rows))%Z /\
    strip (sort_name c) = sort_name c /\
    strip (phone_raw c) = phone_raw c /\
    truthy (phone_raw c) = true /\
    first_name c = extract_first_name (sort_name c) /\
    truthy (first_name c) = true /\
    phone_clean c = normalize_phone (phone_raw c) /\
    forallb isdigit (phone_clean c) = true)
  (get_pending_contacts limit all_rows).
Proof.
  rewrite get_pending_contacts_firstn. apply Forall_forall. intros c Hc.
  apply firstn_In in Hc. unfold all_pending in Hc.
  pose proof (pending_from_fields 2 (tl all_rows)) as H.
  rewrite Forall_forall in H. destruct (H c Hc) as [H1 [H2 [H3 [H4 [H5 H6]]]]].
  assert (L : (List.length (tl all_rows) <= List.length all_rows - 1)%nat)
    by (destruct all_rows; simpl; lia).
  assert (N : all_rows <> []) by (intros ->; destruct Hc).
  assert (L' : (0 < List.length all_rows)%nat) by (destruct all_rows; simpl; [congruence|lia]).
  repeat split; try assumption; try lia.
  - rewrite H2. clear. unfold extract_first_name.
    destruct (negb (truthy (sort_name c)) || negb (truthy (strip (sort_name c)))) eqn:E1;
      [reflexivity|].
    apply orb_false_elim in E1. destruct E1 as [_ E1]. apply negb_false_iff in E1.
    destruct (contains comma (sort_name c)); [|exact E1].
    destruct (truthy (strip (nth 1 (split1 comma (sort_name c)) []))) eqn:E2;
      [exact E2|reflexivity].
  - rewrite H3, normalize_phone_filter. apply forallb_forall.
    intros x Hx. now apply filter_In in Hx.
Qed.

(** *** The sheet after a status cell has been written *)

Lemma pending_from_mark rows : forall idx k v,
  blank v = false ->
  pending_from idx (mark_row k v rows) =
  filter (other_row (idx + Z.of_nat k)) (pending_from idx rows).
Proof.
  induction rows as [|row rest IH]; intros idx k v Hv; [reflexivity|].
  assert (Hrest : filter (other_row idx) (pending_from (idx + 1) rest)
                  = pending_from (idx + 1) rest).
  { apply filter_id. eapply Forall_impl; [|apply pending_from_rows].
    intros c Hc. unfold other_row. simpl in Hc.
    destruct (Z.eqb_spec (row_number c) idx); [lia|reflexivity]. }
  destruct k as [|k]; cbn [mark_row pending_from].
  - replace (idx + Z.of_nat 0)%Z with idx by lia.
    assert (Hs : status_empty (v :: tl row) = false).
    { unfold status_empty, cell. cbn [nth]. now rewrite truthy_strip, Hv. }
    rewrite Hs. cbn [andb].
    destruct (status_empty row && survives_exclusion row); cbn [filter].
    + unfold other_row at 1. cbn [row_number contact_of_row].
      rewrite Z.eqb_refl. cbn [negb]. now rewrite Hrest.
    + now rewrite Hrest.
  - replace (idx + Z.of_nat (S k))%Z with (idx + 1 + Z.of_nat k)%Z by lia.
    destruct (status_empty row && survives_exclusion row); cbn [filter].
    + unfold other_row at 1. cbn [row_number contact_of_row].
      destruct (Z.eqb_spec idx (idx + 1 + Z.of_nat k)); [lia|]. cbn [negb].
      f_equal. now apply IH.
    + now apply IH.
Qed.

Lemma all_pending_with_status r v all_rows :
  blank v = false ->
  all_pending (with_status r v all_rows) = filter (other_row r) (all_pending all_rows).
Proof.
  intros Hv. unfold with_status, all_pending.
  assert (Id : forall rows, (r < 2)%Z ->
            pending_from 2 rows = filter (other_row r) (pending_from 2 rows)).
  { intros rows Hr. symmetry. apply filter_id.
    eapply Forall_impl; [|apply pending_from_rows].
    intros c Hc. unfold other_row. simpl in Hc.
    destruct (Z.eqb_spec (row_number c) r); [lia|reflexivity]. }
  destruct (Z.leb_spec 1 r) as [Hr|Hr]; [|apply Id; lia].
  destruct all_rows as [|header rest]; [destruct (Z.to_nat (r - 1)); reflexivity|].
  destruct (Z.to_nat (r - 1)) as [|k] eqn:E; cbn [mark_row tl].
  - apply Id. lia.
  - rewrite pending_from_mark by exact Hv. f_equal. f_equal. lia.
Qed.

(** X4: once the status cell of a row holds a text that is not blank,
    [get_pending_contacts] no longer returns that row; the other pending
    contacts are returned as before, in the same order, up to the
    limit. *)
Theorem status_written_not_pending r v limit all_rows :
  blank v = false ->
  all_pending (with_status r v all_rows) = filter (other_row r) (all_pending all_rows) /\
  get_pending_contacts limit (with_status r v all_rows) =
    firstn (Z.to_nat limit) (filter (other_row r) (all_pending all_rows)) /\
  Forall (fun c => row_number c <> r)
    (get_pending_contacts limit (with_status r v all_rows)).
Proof.
  intros Hv. pose proof (all_pending_with_status r v all_rows Hv) as E.
  split; [exact E|]. rewrite get_pending_contacts_firstn, E. split; [reflexivity|].
  apply Forall_forall. intros c Hc. apply firstn_In in Hc.
  apply filter_In in Hc. destruct Hc as [_ Hc]. unfold other_row in Hc.
  destruct (Z.eqb_spec (row_number c) r); [discriminate|assumption].
Qed.

End SheetMore.

(** X4 on the sheet of the three contacts, once row 3 holds "1": rows 2
    and 4 are pending. *)
Lemma status_written_not_pending_run :
  map row_number
    (@get_pending_contacts ascii_db 5 (with_status 3 (py "1") (sheet three_contacts)))
  = [2; 4]%Z.
Proof.
  destruct (@status_written_not_pending ascii_db 3 (py "1") 5 (sheet three_contacts)
              eq_refl) as [_ [H _]].
  rewrite H. reflexivity.
Defined.

(** ** The selector resolver and the session connector *)

Section ResolverMore.
Context {driver : WebDriver}.

Lemma try_selectors_error cond message timeout pre loc post :
  forall last b b1 last1 b2 e,
  all_time_out cond timeout pre last b = Some (b1, last1) ->
  wait_until cond loc timeout b1 = (b2, Raise e) ->
  is_TimeoutException e = false ->
  try_selectors cond message (pre ++ loc :: post) timeout last b = (b2, Raise e).
Proof.
  induction pre as [|p pre IH]; intros last b b1 last1 b2 e Hpre Hw He.
  - injection Hpre as <- _. simpl. now rewrite Hw, He.
  - simpl in Hpre |- *.
    destruct (wait_until cond p timeout b) as [b' [x|e']]; [discriminate|].
    destruct (is_TimeoutException e'); [|discriminate].
    eapply IH; eassumption.
Qed.

Lemma try_selectors_raises cond message timeout locs :
  forall last b b' e,
  try_selectors cond message locs timeout last b = (b', Raise e) ->
  (exists pre loc post b1 last1,
     locs = pre ++ loc :: post /\
     all_time_out cond timeout pre last b = Some (b1, last1) /\
     wait_until cond loc timeout b1 = (b', Raise e) /\
     is_TimeoutException e = false) \/
  (exists last',
     all_time_out cond timeout locs last b = Some (b', last') /\
     e = {| exn_class_of := TimeoutException;
            exn_str := selenium_str (message last') |}).
Proof.
  induction locs as [|p locs IH]; intros last b b' e H.
  - injection H as <- <-. right. now exists last.
  - simpl in H. destruct (wait_until cond p timeout b) as [b1 [x|e1]] eqn:Hw; [discriminate|].
    destruct (is_TimeoutException e1) eqn:He.
    + destruct (IH _ _ _ _ H) as [[pre [loc [post [c1 [l1 [-> [Hp [Hl Hn]]]]]]]]|[last' [Ha ->]]].
      * left. exists (p :: pre), loc, post, c1, l1. repeat split; try assumption.
        simpl. now rewrite Hw, He.
      * right. exists last'. split; [|reflexivity]. simpl. now rewrite Hw, He.
    + injection H as <- <-. left. exists [], p, locs, b, last. now repeat split.
Qed.

(** X7: the other ways out of a resolver.  For a target name that is not
    registered it raises [KeyError] and makes no wait.  When a wait raises
    an error that is not a [TimeoutException], the locators before it
    having timed out, the resolver raises that error at once and tries no
    further locator.  And an error of a resolver for a registered name is
    one of the two: such an error of a wait, or the resolver's own
    [TimeoutException] after every locator has timed out. *)
Theorem resolver_errors cond selector_key timeout b :
  (lookup selector_key SELECTORS = None ->
   resolver cond selector_key timeout b = (b, Raise (key_error selector_key))) /\
  (forall selectors pre loc post b1 last1 b2 e,
     lookup selector_key SELECTORS = Some selectors ->
     selectors = pre ++ loc :: post ->
     all_time_out cond timeout pre None b = Some (b1, last1) ->
     wait_until cond loc timeout b1 = (b2, Raise e) ->
     is_TimeoutException e = false ->
     resolver cond selector_key timeout b = (b2, Raise e)) /\
  (forall selectors b' e,
     lookup selector_key SELECTORS = Some selectors ->
     resolver cond selector_key timeout b = (b', Raise e) ->
     (exists pre loc post b1 last1,
        selectors = pre ++ loc :: post /\
        all_time_out cond timeout pre None b = Some (b1, last1) /\
        wait_until cond loc timeout b1 = (b', Raise e) /\
        is_TimeoutException e = false) \/
     (exists last,
        all_time_out cond timeout selectors None b = Some (b', last) /\
        e = {| exn_class_of := TimeoutException;
               exn_str := selenium_str (resolver_message cond selector_key last) |})).
Proof.
  split; [|split].
  - intros H. destruct cond; cbn [resolver];
      unfold find_element_with_fallbacks, find_clickable_with_fallbacks;
      now rewrite H.
  - intros selectors pre loc post b1 last1 b2 e Hk -> Hpre Hw He.
    rewrite (resolver_unfold cond _ timeout b _ Hk).
    eapply try_selectors_error; eassumption.
  - intros selectors b' e Hk H.
    rewrite (resolver_unfold cond _ timeout b _ Hk) in H.
    now apply try_selectors_raises in H.
Qed.

End ResolverMore.

Section ConnectorMore.
Context {machine : Machine}.

Lemma wait_for_port_inv port n : forall h h' ok,
  wait_for_port n port h = (h', ok) ->
  launched h' = launched h /\ made_dirs h' = made_dirs h /\
  (slept h' <= slept h + n)%nat /\ (probes h' <= probes h + n)%nat /\
  (forall j, (slept h <= j < slept h')%nat -> port_listening (launched h) j port = false) /\
  if ok then port_listening (launched h) (slept h') port = true /\ (slept h' < slept h + n)%nat
  else slept h' = (slept h + n)%nat.
Proof.
  induction n as [|n IH]; intros h h' ok H; cbn [wait_for_port] in H.
  - injection H as <- <-. repeat split; lia.
  - unfold _is_port_open in H.
    destruct (port_listening (launched h) (slept h) port) eqn:E.
    + injection H as <- <-. cbn [tick launched made_dirs slept probes].
      repeat split; try lia. now rewrite Nat.add_0_r.
    + apply IH in H. cbn [tick launched made_dirs slept probes] in H.
      destruct H as [H1 [H2 [H3 [H4 [H5 H6]]]]].
      repeat split; try assumption; try lia.
      * intros j Hj. destruct (Nat.eq_dec j (slept h)) as [->|Hne]; [exact E|].
        apply H5. lia.
      * destruct ok; [destruct H6; split; [assumption|lia]|lia].
Qed.

(** X8: the connector attaches to a port that answers, and only to that.
    [ensure_chrome_ready] returns at once, having started nothing, only if
    the first probe of the port was answered.  Otherwise it makes the
    profile directory and starts one browser; when [os.makedirs] or
    [subprocess.Popen] raises, it raises that error, having started
    nothing and slept no time; when they return, it sleeps at most twice
    [launch_timeout] half seconds, a probe failing before each of them, and
    returns only if a probe was answered then; when it raises then, it
    raises the [RuntimeError] that names the port and the timeout, having
    slept all of them.  So [create_driver], which allows 15 seconds, either
    raises the error of the launch, or raises that [RuntimeError] after
    thirty half seconds, or calls [webdriver.Chrome] with the debugger
    address on a machine whose port has just answered, less than thirty
    half seconds after the start. *)
Theorem connector_attaches_to_a_listening_port debug_port chrome_path profile_dir h :
  let profile := resolved_profile_dir profile_dir in
  let cmd :=
    [ resolved_chrome_path chrome_path;
      "--remote-debugging-port=" ++ str_of_int debug_port;
      "--user-data-dir=" ++ profile;
      "--no-first-run";
      "--no-default-browser-check" ]%string in
  let h0 := tick h 0 1 in
  (forall launch_timeout h' r,
     ensure_chrome_ready debug_port chrome_path profile_dir launch_timeout h = (h', r) ->
     let polls := Z.to_nat (launch_timeout * 2) in
     (r = Return tt /\
      port_listening (launched h) (slept h) debug_port = true /\
      launched h' = launched h /\ made_dirs h' = made_dirs h /\ slept h' = slept h) \/
     (port_listening (launched h) (slept h) debug_port = false /\
      ((exists e,
          r = Raise e /\ os_makedirs profile h0 = Raise e /\
          launched h' = launched h /\ made_dirs h' = made_dirs h /\
          slept h' = slept h /\ probes h' = (probes h + 1)%nat) \/
       (exists e,
          r = Raise e /\ subprocess_Popen cmd (made profile h0) = Raise e /\
          launched h' = launched h /\ made_dirs h' = made_dirs h ++ [profile] /\
          slept h' = slept h /\ probes h' = (probes h + 1)%nat) \/
       (launched h' = launched h ++ [cmd] /\
        made_dirs h' = made_dirs h ++ [profile] /\
        (slept h' <= slept h + polls)%nat /\
        (forall j, (slept h <= j < slept h')%nat ->
           port_listening (launched h') j debug_port = false) /\
        match r with
        | Return _ => port_listening (launched h') (slept h') debug_port = true
        | Raise e =>
            e = {| exn_class_of := RuntimeError;
                   exn_str :=
                     ("Chrome did not start with remote-debugging on port "
                      ++ str_of_int debug_port ++ " within "
                      ++ str_of_int launch_timeout
                      ++ "s.  Check CHROME_PATH in .env.")%string |} /\
            slept h' = (slept h + polls)%nat
        end)))) /\
  (forall h' r,
     create_driver debug_port chrome_path profile_dir h = (h', r) ->
     (exists e,
        r = Raise e /\ launched h' = launched h /\ slept h' = slept h /\
        (os_makedirs profile h0 = Raise e \/
         subprocess_Popen cmd (made profile h0) = Raise e)) \/
     (r = Raise {| exn_class_of := RuntimeError;
                   exn_str :=
                     ("Chrome did not start with remote-debugging on port "
                      ++ str_of_int debug_port
                      ++ " within 15s.  Check CHROME_PATH in .env.")%string |} /\
      launched h' = launched h ++ [cmd] /\ slept h' = (slept h + 30)%nat) \/
     (exists h1,
        port_listening (launched h1) (slept h1) debug_port = true /\
        (launched h1 = launched h \/ launched h1 = launched h ++ [cmd]) /\
        (slept h1 < slept h + 30)%nat /\
        webdriver_Chrome ("127.0.0.1:" ++ str_of_int debug_port)%string h1 = (h', r))).
Proof.
  intros profile cmd h0.
  assert (Sound : forall launch_timeout h' r,
     ensure_chrome_ready debug_port chrome_path profile_dir launch_timeout h = (h', r) ->
     (r = Return tt /\
      port_listening (launched h) (slept h) debug_port = true /\
      launched h' = launched h /\ made_dirs h' = made_dirs h /\ slept h' = slept h) \/
     (port_listening (launched h) (slept h) debug_port = false /\
      ((exists e,
          r = Raise e /\ os_makedirs profile h0 = Raise e /\
          launched h' = launched h /\ made_dirs h' = made_dirs h /\
          slept h' = slept h /\ probes h' = (probes h + 1)%nat) \/
       (exists e,
          r = Raise e /\ subprocess_Popen cmd (made profile h0) = Raise e /\
          launched h' = launched h /\ made_dirs h' = made_dirs h ++ [profile] /\
          slept h' = slept h /\ probes h' = (probes h + 1)%nat) \/
       (launched h' = launched h ++ [cmd] /\
        made_dirs h' = made_dirs h ++ [profile] /\
        (slept h' <= slept h + Z.to_nat (launch_timeout * 2))%nat /\
        (forall j, (slept h <= j < slept h')%nat ->
           port_listening (launched h') j debug_port = false) /\
        (slept h' < slept h + Z.to_nat (launch_timeout * 2) \/ r <> Return tt)%nat /\
        match r with
        | Return _ => port_listening (launched h') (slept h') debug_port = true
        | Raise e =>
            e = launch_error debug_port launch_timeout /\
            slept h' = (slept h + Z.to_nat (launch_timeout * 2))%nat
        end)))).
  { intros launch_timeout h' r H. unfold ensure_chrome_ready, _is_port_open in H.
    destruct (port_listening (launched h) (slept h) debug_port) eqn:E.
    - injection H as <- <-. left. now repeat split.
    - right. split; [reflexivity|]. fold profile in H.
      change (launch_command (resolved_chrome_path chrome_path) debug_port profile)
        with cmd in H.
      fold h0 in H. unfold makedirs in H.
      destruct (os_makedirs profile h0) as [[]|e] eqn:Hm.
      2:{ injection H as <- <-. left. exists e. cbn.
          repeat split; try assumption; lia. }
      unfold popen in H.
      destruct (subprocess_Popen cmd (made profile h0)) as [[]|e] eqn:Hl.
      2:{ injection H as <- <-. right. left. exists e. cbn.
          repeat split; try assumption; lia. }
      right. right.
      destruct (wait_for_port (Z.to_nat (launch_timeout * 2)) debug_port
                  (started cmd (made profile h0)))
        as [h1 ok] eqn:W.
      apply wait_for_port_inv in W.
      cbn [started made h0 tick launched made_dirs slept probes] in W.
      destruct W as [W1 [W2 [W3 [W4 [W5 W6]]]]].
      rewrite Nat.add_0_r in *.
      destruct ok; injection H as <- <-.
      + destruct W6 as [W6 W7]. rewrite W1.
        repeat split; try assumption. now left.
      + rewrite W1. repeat split; try assumption. right. discriminate. }
  split.
  - intros launch_timeout h' r H polls.
    destruct (Sound _ _ _ H) as [S|[S0 [S|[S|[S1 [S2 [S3 [S4 [_ S5]]]]]]]]];
      [now left|right; split; [exact S0|now left]
      |right; split; [exact S0|right; now left]|].
    right. split; [exact S0|]. right. right.
    repeat (split; [assumption|]). exact S5.
  - intros h' r H. unfold create_driver in H.
    destruct (ensure_chrome_ready debug_port chrome_path profile_dir 15 h)
      as [h1 [[]|e]] eqn:E.
    + right. right. exists h1.
      destruct (Sound _ _ _ E)
        as [[_ [S1 [S2 [_ S3]]]]
           |[_ [[e [S _]]|[[e [S _]]|[S1 [_ [_ [_ [S5 S6]]]]]]]]]; try discriminate S.
      * rewrite S2, S3. repeat split; try assumption; [now left|lia].
      * repeat split; try assumption; [now right|].
        destruct S5 as [S5|S5]; [|congruence]. change (Z.to_nat (15 * 2)) with 30%nat in S5.
        exact S5.
    + injection H as <- <-.
      destruct (Sound _ _ _ E)
        as [[S _]
           |[_ [[e' [S [Hm [L [_ [T _]]]]]]
               |[[e' [S [Hl [L [_ [T _]]]]]]
                |[S1 [_ [_ [_ [_ [-> S7]]]]]]]]]].
      * discriminate S.
      * injection S as ->. left. exists e'. repeat split; try assumption. now left.
      * injection S as ->. left. exists e'. repeat split; try assumption. now right.
      * right. left. now repeat split.
Qed.

End ConnectorMore.

(** ** The delivery driver *)

Section DeliveryFacts.
Context {driver : WebDriver} {desk : Desktop}.
Local Open Scope web_scope.

(** *** Reasoning about computations on a session *)

Lemma wbind_inv {A B} (m : W A) (f : A -> W B) s s' r :
  wbind m f s = (s', r) ->
  (exists s1 a, m s = (s1, Return a) /\ f a s1 = (s', r)) \/
  (exists e, m s = (s', Raise e) /\ r = Raise e).
Proof.
  unfold wbind. destruct (m s) as [s1 [a|e]]; intros H.
  - left. now exists s1, a.
  - right. injection H as <- <-. now exists e.
Qed.

Lemma wtry_inv {A} (m : W A) (h : exn -> W A) s s' r :
  wtry m h s = (s', r) ->
  (exists a, m s = (s', Return a) /\ r = Return a) \/
  (exists s1 e, m s = (s1, Raise e) /\ h e s1 = (s', r)).
Proof.
  unfold wtry. destruct (m s) as [s1 [a|e]]; intros H.
  - left. injection H as <- <-. now exists a.
  - right. now exists s1, e.
Qed.

Lemma wbind_returns {A B} (m : W A) (f : A -> W B) s s1 a x :
  m s = (s1, Return a) -> f a s1 = x -> wbind m f s = x.
Proof. intros E F. unfold wbind. now rewrite E. Qed.

Lemma wbind_raises {A B} (m : W A) (f : A -> W B) s s' e :
  m s = (s', Raise e) -> wbind m f s = (s', Raise e).
Proof. intros E. unfold wbind. now rewrite E. Qed.

Lemma looking_inv {A} (f : Browser -> Browser * result A) s s' r :
  looking f s = (s', r) ->
  done s' = done s /\ f (page s) = (page s', r).
Proof.
  unfold looking. destruct (f (page s)) as [b x]. intros [= <- <-]. now split.
Qed.

Lemma acting_inv a f s s' r :
  acting a f s = (s', r) ->
  done s' = done s ++ [a] /\ f (page s) = (page s', r).
Proof.
  unfold acting. destruct (f (page s)) as [b x]. intros [= <- <-]. now split.
Qed.

Lemma sleep_for_inv q s s' r :
  sleep_for q s = (s', r) -> done s' = done s ++ [Sleep q] /\ r = Return tt.
Proof. unfold sleep_for. intros [= <- <-]. now split. Qed.

(** *** Polling *)

Lemma polled_refl s : polled s s.
Proof. exists []. now rewrite app_nil_r. Qed.

Lemma polled_trans s1 s2 s3 : polled s1 s2 -> polled s2 s3 -> polled s1 s3.
Proof.
  intros [a1 [H1 F1]] [a2 [H2 F2]]. exists (a1 ++ a2).
  rewrite H2, H1, app_assoc, forallb_app, F1, F2. now split.
Qed.

Lemma polled_same s s' : done s' = done s -> polled s s'.
Proof. intros H. exists []. now rewrite app_nil_r. Qed.

Lemma polled_one s s' a : done s' = done s ++ [a] -> is_polling a = true -> polled s s'.
Proof. intros H Ha. exists [a]. split; [exact H|]. simpl. now rewrite Ha. Qed.

(** *** Errors *)

Lemma foreign_timeout msg :
  is_WhatsAppSendError {| exn_class_of := TimeoutException; exn_str := msg |} = false.
Proof. reflexivity. Qed.

Lemma try_selectors_foreign cond message timeout selectors :
  (forall c l t b, foreign (snd (wait_until c l t b))) ->
  forall last b, foreign (snd (try_selectors cond message selectors timeout last b)).
Proof.
  intros Hw. induction selectors as [|loc rest IH]; intros last b; cbn [try_selectors].
  - reflexivity.
  - specialize (Hw cond loc timeout b).
    destruct (wait_until cond loc timeout b) as [b' [el|e]]; cbn [snd] in *.
    + exact I.
    + destruct (is_TimeoutException e); [apply IH|exact Hw].
Qed.

Lemma resolver_foreign cond key timeout b :
  (forall c l t b, foreign (snd (wait_until c l t b))) ->
  foreign (snd (resolver cond key timeout b)).
Proof.
  intros Hw. destruct cond; cbn [resolver];
    unfold find_element_with_fallbacks, find_clickable_with_fallbacks;
    (destruct (lookup key SELECTORS); [now apply try_selectors_foreign|reflexivity]).
Qed.


(** *** Invariants of computations on a session *)

Section WKeeps.
Variable R : Session -> Session -> Prop.
Hypothesis R_refl : forall s, R s s.
Hypothesis R_trans : forall s1 s2 s3, R s1 s2 -> R s2 s3 -> R s1 s3.

Lemma wkeeps_ret {A} (a : A) : wkeeps R (wret a).
Proof. intros s s' r [= <- _]. apply R_refl. Qed.

Lemma wkeeps_raise {A} (e : exn) : wkeeps R (wraise e : W A).
Proof. intros s s' r [= <- _]. apply R_refl. Qed.

Lemma wkeeps_bind {A B} (m : W A) (f : A -> W B) :
  wkeeps R m -> (forall a, wkeeps R (f a)) -> wkeeps R (wbind m f).
Proof.
  intros Hm Hf s s' r H.
  destruct (wbind_inv _ _ _ _ _ H) as [[s1 [a [E F]]]|[e [E _]]].
  - eapply R_trans; [eapply Hm; exact E|eapply Hf; exact F].
  - eapply Hm; exact E.
Qed.

Lemma wkeeps_try {A} (m : W A) (h : exn -> W A) :
  wkeeps R m -> (forall e, wkeeps R (h e)) -> wkeeps R (wtry m h).
Proof.
  intros Hm Hh s s' r H.
  destruct (wtry_inv _ _ _ _ _ H) as [[a [E _]]|[s1 [e [E F]]]].
  - eapply Hm; exact E.
  - eapply R_trans; [eapply Hm; exact E|eapply Hh; exact F].
Qed.

End WKeeps.

Lemma wraises_ret P {A} (a : A) : wraises P (wret a).
Proof. intros s s' e H. discriminate H. Qed.

Lemma wraises_raise (P : exn -> Prop) {A} e : P e -> wraises P (wraise e : W A).
Proof. intros He s s' e' [= _ <-]. exact He. Qed.

Lemma wraises_bind P {A B} (m : W A) (f : A -> W B) :
  wraises P m -> (forall a, wraises P (f a)) -> wraises P (wbind m f).
Proof.
  intros Hm Hf s s' e H.
  destruct (wbind_inv _ _ _ _ _ H) as [[s1 [a [E F]]]|[e' [E [= ->]]]].
  - eapply Hf; exact F.
  - eapply Hm; exact E.
Qed.

Lemma wraises_try (Q P : exn -> Prop) {A} (m : W A) (h : exn -> W A) :
  wraises Q m -> (forall e, Q e -> wraises P (h e)) -> wraises P (wtry m h).
Proof.
  intros Hm Hh s s' e H.
  destruct (wtry_inv _ _ _ _ _ H) as [[a [_ E]]|[s1 [e' [E F]]]]; [discriminate E|].
  eapply Hh; [eapply Hm; exact E|exact F].
Qed.

Lemma wraises_weaken (P Q : exn -> Prop) {A} (m : W A) :
  (forall e, P e -> Q e) -> wraises P m -> wraises Q m.
Proof. intros HPQ Hm s s' e H. apply HPQ. eapply Hm; exact H. Qed.

Lemma wraises_sleep P q : wraises P (sleep_for q).
Proof. intros s s' e H. discriminate H. Qed.

Lemma wraises_looking (P : exn -> Prop) {A} (f : Browser -> Browser * result A) :
  (forall b e, snd (f b) = Raise e -> P e) -> wraises P (looking f).
Proof.
  intros Hf s s' e H. apply looking_inv in H. destruct H as [_ H].
  apply (Hf (page s)). now rewrite H.
Qed.

Lemma wraises_acting (P : exn -> Prop) a (f : Browser -> Browser * result unit) :
  (forall b e, snd (f b) = Raise e -> P e) -> wraises P (acting a f).
Proof.
  intros Hf s s' e H. apply acting_inv in H. destruct H as [_ H].
  apply (Hf (page s)). now rewrite H.
Qed.

Lemma wkeeps_looking (R : Session -> Session -> Prop) {A}
  (f : Browser -> Browser * result A) :
  (forall s s', done s' = done s -> R s s') -> wkeeps R (looking f).
Proof. intros HR s s' r H. apply looking_inv in H. apply HR. tauto. Qed.

Lemma polled_looking {A} (f : Browser -> Browser * result A) : wkeeps polled (looking f).
Proof. apply wkeeps_looking. exact polled_same. Qed.

Lemma polled_acting a f : is_polling a = true -> wkeeps polled (acting a f).
Proof.
  intros Ha s s' r H. apply acting_inv in H. eapply polled_one; [apply H|exact Ha].
Qed.

Lemma polled_sleep q : wkeeps polled (sleep_for q).
Proof.
  intros s s' r H. apply sleep_for_inv in H. eapply polled_one; [apply H|reflexivity].
Qed.

Lemma foreign_raise {A} (f : Browser -> Browser * result A) :
  (forall b, foreign (snd (f b))) ->
  forall b e, snd (f b) = Raise e -> is_WhatsAppSendError e = false.
Proof. intros Hf b e H. specialize (Hf b). now rewrite H in Hf. Qed.

Ltac polling :=
  repeat
    match goal with
    | |- wkeeps _ (wbind _ _) => apply (wkeeps_bind _ polled_trans); [|intros ?]
    | |- wkeeps _ (wret _) => apply (wkeeps_ret _ polled_refl)
    | |- wkeeps _ (wraise _) => apply (wkeeps_raise _ polled_refl)
    | |- wkeeps _ (looking _) => apply polled_looking
    | |- wkeeps _ (sleep_for _) => apply polled_sleep
    | |- wkeeps _ (acting _ _) => apply polled_acting; reflexivity
    | |- wkeeps _ (wtry _ _) => apply (wkeeps_try _ polled_trans); [|intros ?]
    | |- wkeeps _ (if ?b then _ else _) => destruct b
    | |- wkeeps _ (match ?x with _ => _ end) => destruct x
    end.

(** *** The popup, the button for unsaved contacts and the message input *)

Lemma polled_dismiss_popup : wkeeps polled _dismiss_popup.
Proof. unfold _dismiss_popup. polling. Qed.

Lemma polled_selectors_of key : wkeeps polled (selectors_of key).
Proof. unfold selectors_of. polling. Qed.

Lemma polled_popup_loop phone selectors : wkeeps polled (popup_loop phone selectors).
Proof.
  induction selectors as [|loc rest IH]; cbn [popup_loop]; polling;
    [exact IH|apply polled_dismiss_popup].
Qed.

Lemma polled_check_popup phone : wkeeps polled (check_popup phone).
Proof.
  unfold check_popup, selectors_of. polling. apply polled_popup_loop.
Qed.

Lemma polled_continue_loop selectors : wkeeps polled (continue_loop selectors).
Proof. induction selectors as [|loc rest IH]; cbn [continue_loop]; polling. exact IH. Qed.

Lemma polled_check_continue : wkeeps polled check_continue.
Proof.
  unfold check_continue, selectors_of. polling. apply polled_continue_loop.
Qed.

Lemma polled_input_loop selectors : wkeeps polled (input_loop selectors).
Proof. induction selectors as [|loc rest IH]; cbn [input_loop]; polling. exact IH. Qed.

Lemma polled_check_input : wkeeps polled check_input.
Proof.
  unfold check_input, selectors_of. polling. apply polled_input_loop.
Qed.

Lemma polled_wait_for_chat n phone : wkeeps polled (wait_for_chat n phone).
Proof.
  induction n as [|n IH]; cbn [wait_for_chat]; polling;
    first [apply polled_check_popup|apply polled_check_continue
          |apply polled_check_input|exact IH].
Qed.


(** *** The errors of each step *)

Section Errors.
Hypothesis foreign_calls : selenium_errors.

Ltac raising :=
  repeat
    match goal with
    | |- wraises _ (wbind _ _) => apply wraises_bind; [|intros ?]
    | |- wraises _ (wret _) => apply wraises_ret
    | |- wraises _ (sleep_for _) => apply wraises_sleep
    | |- wraises _ (run_script _ _) => unfold run_script
    | |- wraises _ (looking (find_elements _)) =>
        apply wraises_looking, foreign_raise, (find_foreign foreign_calls)
    | |- wraises _ (looking (find_clickable_with_fallbacks ?k ?t)) =>
        apply wraises_looking, foreign_raise;
        exact (fun b => resolver_foreign element_to_be_clickable k t b
                          (wait_foreign foreign_calls))
    | |- wraises _ (looking (find_element_with_fallbacks ?k ?t)) =>
        apply wraises_looking, foreign_raise;
        exact (fun b => resolver_foreign presence_of_element_located k t b
                          (wait_foreign foreign_calls))
    | |- wraises _ (acting _ (driver_get _)) =>
        apply wraises_acting, foreign_raise, (get_foreign foreign_calls)
    | |- wraises _ (acting _ (element_click _)) =>
        apply wraises_acting, foreign_raise, (click_foreign foreign_calls)
    | |- wraises _ (acting _ (element_clear _)) =>
        apply wraises_acting, foreign_raise, (clear_foreign foreign_calls)
    | |- wraises _ (acting _ (element_send_keys _ _)) =>
        apply wraises_acting, foreign_raise, (keys_foreign foreign_calls)
    | |- wraises _ (acting _ (execute_script _ _)) =>
        apply wraises_acting, foreign_raise, (script_foreign foreign_calls)
    | |- wraises _ (acting _ send_escape) =>
        apply wraises_acting, foreign_raise, (escape_foreign foreign_calls)
    | |- wraises _ (acting _ (pyperclip_copy _)) =>
        apply wraises_acting, foreign_raise, (copy_foreign foreign_calls)
    | |- wraises _ (acting _ (pyautogui_hotkey _)) =>
        apply wraises_acting, foreign_raise, (hotkey_foreign foreign_calls)
    | |- wraises _ (acting _ (pyautogui_press _)) =>
        apply wraises_acting, foreign_raise, (press_foreign foreign_calls)
    | |- wraises _ (if ?b then _ else _) => destruct b eqn:?
    | |- wraises _ (match ?x with _ => _ end) => destruct x
    end.

Lemma foreign_selectors_of key : wraises not_send_error (selectors_of key).
Proof.
  unfold selectors_of. destruct (lookup key SELECTORS); [apply wraises_ret|].
  now apply wraises_raise.
Qed.

Lemma foreign_type_message el text : wraises not_send_error (_type_message el text).
Proof.
  unfold _type_message.
  apply (wraises_try (fun _ => True)); [intros s s' e _; exact I|].
  intros e _. raising.
Qed.

Lemma foreign_dismiss_popup : wraises not_send_error _dismiss_popup.
Proof.
  unfold _dismiss_popup. apply (wraises_try not_send_error); [raising|].
  intros e He. raising. now apply wraises_raise.
Qed.

Lemma foreign_attach_image image_path : wraises not_send_error (attach_image image_path).
Proof. unfold attach_image. raising. Qed.

Lemma foreign_write_caption caption : wraises not_send_error (write_caption caption).
Proof. unfold write_caption. raising. apply foreign_type_message. Qed.

Lemma foreign_click_send : wraises not_send_error click_send.
Proof. unfold click_send. raising. Qed.

(** The popup check raises the error of a number that is not on WhatsApp,
    and no other. *)
Lemma raises_popup_loop phone selectors :
  wraises (fun e => not_send_error e \/ e = not_on_whatsapp phone)
    (popup_loop phone selectors).
Proof.
  induction selectors as [|loc rest IH]; cbn [popup_loop]; [apply wraises_ret|].
  apply wraises_bind.
  - eapply wraises_weaken; [|raising]. intros e He. now left.
  - intros [|el els]; [exact IH|].
    apply wraises_bind.
    + eapply wraises_weaken; [|apply foreign_dismiss_popup]. intros e He. now left.
    + intros _. apply wraises_raise. now right.
Qed.

Lemma raises_check_popup phone :
  wraises (eq (not_on_whatsapp phone)) (check_popup phone).
Proof.
  unfold check_popup.
  apply (wraises_try (fun e => not_send_error e \/ e = not_on_whatsapp phone)).
  - apply wraises_bind.
    + eapply wraises_weaken; [|apply foreign_selectors_of]. intros e He. now left.
    + intros selectors. apply raises_popup_loop.
  - intros e [He| ->].
    + unfold not_send_error, is_WhatsAppSendError in He.
      unfold is_ContactNotFoundError.
      destruct (exn_class_of e); try discriminate He; apply wraises_ret.
    + now apply wraises_raise.
Qed.

Lemma raises_check_continue P : wraises P check_continue.
Proof.
  unfold check_continue. apply (wraises_try (fun _ => True)).
  - intros s s' e _. exact I.
  - intros e _. apply wraises_ret.
Qed.

Lemma raises_check_input P : wraises P check_input.
Proof.
  unfold check_input. apply (wraises_try (fun _ => True)).
  - intros s s' e _. exact I.
  - intros e _. apply wraises_ret.
Qed.

Lemma raises_wait_for_chat n phone :
  wraises (eq (not_on_whatsapp phone)) (wait_for_chat n phone).
Proof.
  induction n as [|n IH]; cbn [wait_for_chat]; [apply wraises_ret|].
  apply wraises_bind; [apply raises_check_popup|intros _].
  apply wraises_bind; [apply raises_check_continue|intros _].
  apply wraises_bind; [apply raises_check_input|intros [|]]; [apply wraises_ret|].
  apply wraises_bind; [apply wraises_sleep|intros _; exact IH].
Qed.

End Errors.

(** *** What each step does *)

Ltac wstep H E :=
  let s1 := fresh "s" in let a := fresh "a" in let e := fresh "e" in
  apply wbind_inv in H; destruct H as [[s1 [a [E H]]]|[e [E H]]].

Lemma open_chat_trace phone timeout s s' r :
  open_chat phone timeout s = (s', r) ->
  match r with
  | Return _ =>
      exists polling,
        done s' = done s ++ Navigate (send_url phone) :: polling ++ [Sleep 1] /\
        forallb is_polling polling = true
  | Raise e =>
      opened phone s s' /\
      (selenium_errors -> is_WhatsAppSendError e = true ->
       e = not_on_whatsapp phone \/ e = chat_did_not_load phone timeout)
  end.
Proof.
  unfold open_chat. intros H. wstep H E1.
  - apply acting_inv in E1. destruct E1 as [D1 _].
    wstep H E2.
    + destruct (polled_wait_for_chat _ _ _ _ _ E2) as [polling [D2 F2]].
      destruct a0; cbn [negb] in H.
      * apply sleep_for_inv in H. destruct H as [D3 ->].
        exists polling. split; [|exact F2].
        rewrite D3, D2, D1, <- !app_assoc. reflexivity.
      * injection H as <- <-. split.
        -- exists polling. split; [|exact F2]. rewrite D2, D1, <- app_assoc. reflexivity.
        -- intros _ _. now right.
    + destruct (polled_wait_for_chat _ _ _ _ _ E2) as [polling [D2 F2]].
      subst r. split.
      * exists polling. split; [|exact F2]. rewrite D2, D1, <- app_assoc. reflexivity.
      * intros Hf _. left. symmetry. eapply raises_wait_for_chat; eassumption.
  - subst r. pose proof E1 as E1'. apply acting_inv in E1. destruct E1 as [D1 E1]. split.
    + exists []. split; [exact D1|reflexivity].
    + intros Hf He. exfalso.
      pose proof (get_foreign Hf (send_url phone) (page s)) as G.
      rewrite E1 in G. cbn [snd foreign] in G. congruence.
Qed.

Lemma attach_image_trace image_path s s' u :
  attach_image image_path s = (s', Return u) ->
  exists attach_btn photos_btn,
    done s' = done s ++ attaching image_path attach_btn photos_btn /\
    resolves element_to_be_clickable "attach_button" 10 attach_btn /\
    resolves element_to_be_clickable "photos_and_videos" 5 photos_btn.
Proof.
  unfold attach_image. intros H.
  wstep H E1; [|discriminate H]. apply looking_inv in E1. destruct E1 as [D1 R1].
  wstep H E2; [|discriminate H]. apply acting_inv in E2. destruct E2 as [D2 _].
  wstep H E3; [|discriminate H]. apply sleep_for_inv in E3. destruct E3 as [D3 _].
  wstep H E4; [|discriminate H]. apply looking_inv in E4. destruct E4 as [D4 R4].
  wstep H E5; [|discriminate H]. apply acting_inv in E5. destruct E5 as [D5 _].
  wstep H E6; [|discriminate H]. apply sleep_for_inv in E6. destruct E6 as [D6 _].
  wstep H E7; [|discriminate H]. apply acting_inv in E7. destruct E7 as [D7 _].
  wstep H E8; [|discriminate H]. apply acting_inv in E8. destruct E8 as [D8 _].
  wstep H E9; [|discriminate H]. apply sleep_for_inv in E9. destruct E9 as [D9 _].
  wstep H E10; [|discriminate H]. apply acting_inv in E10. destruct E10 as [D10 _].
  apply sleep_for_inv in H. destruct H as [D11 _].
  exists a, a2. split; [|split].
  - unfold attaching.
    rewrite D11, D10, D9, D8, D7, D6, D5, D4, D3, D2, D1, <- !app_assoc. reflexivity.
  - eexists. eexists. exact R1.
  - eexists. eexists. exact R4.
Qed.

Lemma type_message_trace el text s s' u :
  _type_message el text s = (s', Return u) ->
  exists typing, done s' = done s ++ typing /\ typed_in el text typing.
Proof.
  unfold _type_message, run_script. intros H.
  apply wtry_inv in H. destruct H as [[a [E _]]|[s1 [e [E H]]]].
  - apply acting_inv in E. destruct E as [D _].
    exists [pasted el text]. split; [exact D|now left].
  - apply acting_inv in E. destruct E as [D1 _].
    wstep H E2; [|discriminate H]. apply acting_inv in E2. destruct E2 as [D2 _].
    apply acting_inv in H. destruct H as [D3 _].
    exists [pasted el text; Clear el; SendKeys el text]. split; [|now right].
    rewrite D3, D2, D1, <- !app_assoc. reflexivity.
Qed.

Lemma write_caption_trace caption s s' u :
  write_caption caption s = (s', Return u) ->
  exists caption_box typing,
    done s' = done s ++ captioning caption_box typing /\
    resolves presence_of_element_located "caption_input" 10 caption_box /\
    typed_in caption_box caption typing.
Proof.
  unfold write_caption, run_script. intros H.
  wstep H E1; [|discriminate H]. apply looking_inv in E1. destruct E1 as [D1 R1].
  wstep H E2; [|discriminate H]. apply acting_inv in E2. destruct E2 as [D2 _].
  wstep H E3; [|discriminate H]. apply sleep_for_inv in E3. destruct E3 as [D3 _].
  wstep H E4; [|discriminate H]. apply type_message_trace in E4.
  destruct E4 as [typing [D4 T]].
  apply sleep_for_inv in H. destruct H as [D5 _].
  exists a, typing. split; [|split; [eexists; eexists; exact R1|exact T]].
  unfold captioning.
  rewrite D5, D4, D3, D2, D1, <- !app_assoc. reflexivity.
Qed.

Lemma click_send_trace s s' u :
  click_send s = (s', Return u) ->
  exists send_btn,
    done s' = done s ++ sending send_btn /\
    resolves presence_of_element_located "send_button" 10 send_btn.
Proof.
  unfold click_send, run_script. intros H.
  wstep H E1; [|discriminate H]. apply looking_inv in E1. destruct E1 as [D1 R1].
  wstep H E2; [|discriminate H]. apply acting_inv in E2. destruct E2 as [D2 _].
  apply sleep_for_inv in H. destruct H as [D3 _].
  exists a. split; [|eexists; eexists; exact R1].
  unfold sending. rewrite D3, D2, D1, <- !app_assoc. reflexivity.
Qed.

Lemma verify_sent_inv s s' r :
  verify_sent s = (s', r) ->
  done s' = done s /\
  match r with
  | Return b => b = true
  | Raise e =>
      selenium_errors -> is_WhatsAppSendError e = true -> e = not_verified
  end.
Proof.
  unfold verify_sent. intros H.
  apply wtry_inv in H. destruct H as [[a [E ->]]|[s1 [e [E H]]]].
  - wstep E E1; [|discriminate E]. apply looking_inv in E1. destruct E1 as [D1 _].
    injection E as <- <-. now split.
  - wstep E E1; [discriminate E|]. injection E as <-.
    pose proof E1 as E1'. apply looking_inv in E1. destruct E1 as [D1 E1].
    destruct (is_TimeoutException e) eqn:Ht; injection H as <- <-.
    + split; [exact D1|]. reflexivity.
    + split; [exact D1|]. intros Hf He. exfalso.
      pose proof (resolver_foreign presence_of_element_located "message_input" 10
                    (page s) (wait_foreign Hf)) as G.
      cbn [resolver] in G. rewrite E1 in G. cbn [snd foreign] in G. congruence.
Qed.

(** A delivery ends in one of three ways: the chat did not open; a step
    after it raised an error that is not a send error; every step was
    gone through, and the check at the end returned or raised. *)
Lemma send_whatsapp_message_inv phone caption image_path timeout s s' r :
  WhatsAppSender.send_whatsapp_message phone caption image_path timeout s = (s', r) ->
  (exists e, r = Raise e /\ open_chat phone timeout s = (s', Raise e)) \/
  (exists e, r = Raise e /\ (selenium_errors -> is_WhatsAppSendError e = false)) \/
  (gone_through phone caption image_path s s' /\
   match r with
   | Return b => b = true
   | Raise e => selenium_errors -> is_WhatsAppSendError e = true -> e = not_verified
   end).
Proof.
  unfold WhatsAppSender.send_whatsapp_message. intros H.
  wstep H E1; [|left; exists e; now split].
  wstep H E2; [|right; left; exists e; split; [exact H|];
                intros Hf; eapply (foreign_attach_image Hf); exact E2].
  wstep H E3; [|right; left; exists e; split; [exact H|];
                intros Hf; eapply (foreign_write_caption Hf); exact E3].
  wstep H E4; [|right; left; exists e; split; [exact H|];
                intros Hf; eapply (foreign_click_send Hf); exact E4].
  right. right.
  apply open_chat_trace in E1. destruct E1 as [polling [D1 F1]].
  apply attach_image_trace in E2. destruct E2 as [attach_btn [photos_btn [D2 [Ra Rp]]]].
  apply write_caption_trace in E3. destruct E3 as [caption_box [typing [D3 [Rc T3]]]].
  apply click_send_trace in E4. destruct E4 as [send_btn [D4 Rs]].
  apply verify_sent_inv in H. destruct H as [D5 H]. split; [|exact H].
  exists polling, attach_btn, photos_btn, caption_box, typing, send_btn.
  split; [|now repeat split].
  rewrite D5, D4, D3, D2, D1.
  repeat (rewrite <- app_assoc || rewrite <- app_comm_cons). reflexivity.
Qed.

(** *** When nothing shows on the page *)

Section Quiet.

(** No lookup finds an element; a lookup may raise an error of the
    driver. *)
Hypothesis nothing_found : forall loc b,
  match snd (find_elements loc b) with
  | Return elements => elements = []
  | Raise e => is_ContactNotFoundError e = false
  end.

Lemma quiet_look loc s :
  exists s' r,
    looking (find_elements loc) s = (s', r) /\ done s' = done s /\
    match r with
    | Return elements => elements = []
    | Raise e => is_ContactNotFoundError e = false
    end.
Proof.
  unfold looking. pose proof (nothing_found loc (page s)) as H.
  destruct (find_elements loc (page s)) as [b r]. cbn [snd] in H.
  eexists. exists r. split; [reflexivity|]. split; [reflexivity|exact H].
Qed.

Lemma quiet_popup_loop phone selectors : forall s,
  exists s' r,
    popup_loop phone selectors s = (s', r) /\ done s' = done s /\
    match r with
    | Return _ => True
    | Raise e => is_ContactNotFoundError e = false
    end.
Proof.
  induction selectors as [|loc rest IH]; intros s; cbn [popup_loop].
  - exists s, (Return tt). repeat split.
  - destruct (quiet_look loc s) as [s1 [r1 [E [D H]]]].
    unfold wbind at 1. rewrite E. destruct r1 as [elements|e].
    + subst elements. destruct (IH s1) as [s2 [r2 [E2 [D2 H2]]]].
      exists s2, r2. split; [exact E2|]. split; [congruence|exact H2].
    + exists s1, (Raise e). repeat split; assumption.
Qed.

Lemma quiet_check_popup phone s :
  exists s', check_popup phone s = (s', Return tt) /\ done s' = done s.
Proof.
  unfold check_popup, wtry, selectors_of.
  destruct (lookup "invalid_phone_popup" SELECTORS) as [selectors|].
  - unfold wbind at 1. cbn [wret].
    destruct (quiet_popup_loop phone selectors s) as [s1 [r1 [E [D H]]]].
    rewrite E. destruct r1 as [[]|e].
    + now exists s1.
    + rewrite H. now exists s1.
  - cbn. now exists s.
Qed.

Lemma quiet_continue_loop selectors : forall s,
  exists s' r, continue_loop selectors s = (s', r) /\ done s' = done s.
Proof.
  induction selectors as [|loc rest IH]; intros s; cbn [continue_loop].
  - exists s, (Return tt). now split.
  - destruct (quiet_look loc s) as [s1 [r1 [E [D H]]]].
    unfold wbind at 1. rewrite E. destruct r1 as [elements|e].
    + subst elements. destruct (IH s1) as [s2 [r2 [E2 D2]]].
      exists s2, r2. split; [exact E2|congruence].
    + exists s1, (Raise e). now split.
Qed.

Lemma quiet_check_continue s :
  exists s', check_continue s = (s', Return tt) /\ done s' = done s.
Proof.
  unfold check_continue, wtry, selectors_of.
  destruct (lookup "continue_to_chat" SELECTORS) as [selectors|].
  - unfold wbind at 1. cbn [wret].
    destruct (quiet_continue_loop selectors s) as [s1 [r1 [E D]]].
    rewrite E. destruct r1 as [[]|e]; now exists s1.
  - cbn. now exists s.
Qed.

Lemma quiet_input_loop selectors : forall s,
  exists s' r,
    input_loop selectors s = (s', r) /\ done s' = done s /\ r <> Return true.
Proof.
  induction selectors as [|loc rest IH]; intros s; cbn [input_loop].
  - exists s, (Return false). repeat split. discriminate.
  - destruct (quiet_look loc s) as [s1 [r1 [E [D H]]]].
    unfold wbind at 1. rewrite E. destruct r1 as [elements|e].
    + subst elements. destruct (IH s1) as [s2 [r2 [E2 [D2 H2]]]].
      exists s2, r2. split; [exact E2|]. split; [congruence|exact H2].
    + exists s1, (Raise e). repeat split; [assumption|discriminate].
Qed.

Lemma quiet_check_input s :
  exists s', check_input s = (s', Return false) /\ done s' = done s.
Proof.
  unfold check_input, wtry, selectors_of.
  destruct (lookup "message_input" SELECTORS) as [selectors|].
  - unfold wbind at 1. cbn [wret].
    destruct (quiet_input_loop selectors s) as [s1 [r1 [E [D H]]]].
    rewrite E. destruct r1 as [[|]|e]; [congruence| |]; now exists s1.
  - cbn. now exists s.
Qed.

Lemma quiet_wait_for_chat phone n : forall s,
  exists s',
    wait_for_chat n phone s = (s', Return false) /\
    done s' = done s ++ repeat (Sleep (1 # 2)) n.
Proof.
  induction n as [|n IH]; intros s; cbn [wait_for_chat repeat].
  - exists s. split; [reflexivity|now rewrite app_nil_r].
  - destruct (quiet_check_popup phone s) as [s1 [E1 D1]].
    destruct (quiet_check_continue s1) as [s2 [E2 D2]].
    destruct (quiet_check_input s2) as [s3 [E3 D3]].
    unfold wbind at 1. rewrite E1. unfold wbind at 1. rewrite E2.
    unfold wbind at 1. rewrite E3. unfold wbind at 1. cbn [sleep_for].
    match goal with |- context [wait_for_chat n phone ?x] => destruct (IH x) as [s4 [E4 D4]] end.
    exists s4. split; [exact E4|]. rewrite D4. cbn [done].
    rewrite D3, D2, D1, <- app_assoc. reflexivity.
Qed.

End Quiet.

(** *** The delivery driver: its outcomes *)

(** X9: a call of [send_whatsapp_message] that returns has returned
    [True], and by then every step has been gone through once, in the
    order of the source: the chat asked for by its address and waited
    for, the attachment button and the menu item clicked, the absolute
    path of the image pasted into the file dialog and confirmed, the
    caption box focused and the caption typed into it, by the paste script
    or else by [clear] and [send_keys], and the send button clicked. *)
Theorem send_whatsapp_message_returns phone caption image_path timeout s s' b :
  WhatsAppSender.send_whatsapp_message phone caption image_path timeout s = (s', Return b) ->
  b = true /\ gone_through phone caption image_path s s'.
Proof.
  intros H. apply send_whatsapp_message_inv in H.
  destruct H as [[e [H _]]|[[e [H _]]|[G H]]]; try discriminate H. now split.
Qed.

(** X10: where the send errors come from, when the driver and the desktop
    raise none of their own.  [ContactNotFoundError] and the
    [SendTimeoutError] of a chat that did not load are raised while the
    chat is waited for: nothing has been attached, typed or sent.  The
    only other send error is the [SendTimeoutError] of the check at the
    end, and it is raised after the send button has been clicked. *)
Theorem send_errors_of_delivery phone caption image_path timeout s s' e :
  selenium_errors ->
  WhatsAppSender.send_whatsapp_message phone caption image_path timeout s = (s', Raise e) ->
  is_WhatsAppSendError e = true ->
  (opened phone s s' /\
   (e = not_on_whatsapp phone \/ e = chat_did_not_load phone timeout)) \/
  (gone_through phone caption image_path s s' /\ e = not_verified).
Proof.
  intros Hf H He. apply send_whatsapp_message_inv in H.
  destruct H as [[e' [[= <-] H]]|[[e' [[= <-] H]]|[G H]]].
  - left. apply open_chat_trace in H. destruct H as [Ho Hc]. split; [exact Ho|].
    now apply Hc.
  - specialize (H Hf). congruence.
  - right. split; [exact G|]. now apply H.
Qed.

(** X11: when no lookup ever finds an element, so neither the popup nor
    the message input shows, and the address loads, the call raises the
    [SendTimeoutError] of a chat that did not load, after twice
    [timeout] looks at the page with a sleep of half a second after
    each, and having done nothing else. *)
Theorem chat_never_loads phone caption image_path timeout s :
  (forall loc b,
     match snd (find_elements loc b) with
     | Return elements => elements = []
     | Raise e => is_ContactNotFoundError e = false
     end) ->
  snd (driver_get (send_url phone) (page s)) = Return tt ->
  exists s',
    WhatsAppSender.send_whatsapp_message phone caption image_path timeout s =
      (s', Raise (chat_did_not_load phone timeout)) /\
    done s' =
      done s ++ Navigate (send_url phone)
                :: repeat (Sleep (1 # 2)) (Z.to_nat (timeout * 2)).
Proof.
  intros Hq Hg.
  destruct (driver_get (send_url phone) (page s)) as [b1 r1] eqn:E1.
  cbn [snd] in Hg. subst r1.
  destruct (quiet_wait_for_chat Hq phone (Z.to_nat (timeout * 2))
              {| page := b1; done := done s ++ [Navigate (send_url phone)] |})
    as [s2 [E2 D2]].
  exists s2. split.
  - unfold WhatsAppSender.send_whatsapp_message. apply wbind_raises.
    unfold open_chat. eapply wbind_returns.
    { unfold acting. rewrite E1. reflexivity. }
    eapply wbind_returns; [exact E2|]. reflexivity.
  - rewrite D2. cbn [done]. now rewrite <- app_assoc.
Qed.

(** X12: a timeout of the resolver in a step after the chat has loaded is
    not turned into a send error.  When every locator of the attachment
    button times out, the call raises the resolver's [TimeoutException],
    whose text names the button and ends with the text of the last wait
    error, with nothing done since the chat loaded.  When a delivery raises
    that error, the delivery attempt of the orchestrator makes no call of
    [write_status]: it counts the contact in [failed], and gives an outcome
    that says failure or leaves the loop. *)
Theorem resolver_timeout_is_no_send_error
  phone caption image_path timeout s s1 selectors b' last :
  open_chat phone timeout s = (s1, Return tt) ->
  lookup "attach_button" SELECTORS = Some selectors ->
  all_time_out element_to_be_clickable 10 selectors None (page s1) = Some (b', last) ->
  exists e,
    WhatsAppSender.send_whatsapp_message phone caption image_path timeout s =
      ({| page := b'; done := done s1 |}, Raise e) /\
    exn_class_of e = TimeoutException /\
    exn_str e =
      ("Message: Could not find clickable element 'attach_button'. Last error: "
       ++ match last with
          | None => "None"
          | Some last_error => exn_str last_error
          end
       ++ String "010" EmptyString)%string /\
    is_WhatsAppSendError e = false /\
    forall (env : Env) c text seconds s0,
      SendMessages.send_whatsapp_message env c text (clock s0) = (Raise e, seconds) ->
      exists s0' r,
        @attempt env c text s0 = Some (s0', r) /\
        deliveries s0' =
          deliveries s0
          ++ [{| dl_contact := c; dl_caption := text; dl_outcome := Raise e |}] /\
        sheet_updates s0' = sheet_updates s0 /\
        sent (state s0') = sent (state s0) /\
        failed (state s0') = (failed (state s0) + 1)%Z /\
        (r = Return None \/
         exists res, r = Return (Some res) /\ contact res = c /\ success res = false).
Proof.
  intros Ho Hl Ht.
  exists {| exn_class_of := TimeoutException;
            exn_str := selenium_str (not_clickable_message "attach_button" last) |}.
  split; [|split; [reflexivity|split; [|split; [reflexivity|]]]].
  - unfold WhatsAppSender.send_whatsapp_message.
    eapply wbind_returns; [exact Ho|]. apply wbind_raises.
    unfold attach_image. apply wbind_raises.
    unfold looking, find_clickable_with_fallbacks. rewrite Hl.
    rewrite (try_selectors_none _ _ _ _ _ _ _ _ Ht). reflexivity.
  - cbn [exn_str]. unfold selenium_str, not_clickable_message, str_of.
    rewrite ?string_app_assoc. reflexivity.
  - intros env c text seconds s0 Hs.
    destruct (attempt_cases (env := env) c text s0) as [s0' [r [E [Hd H]]]].
    unfold delivery_of in Hd, H. rewrite Hs in Hd, H.
    cbn [fst dl_outcome is_WhatsAppSendError exn_class_of] in Hd, H.
    destruct H as [Hu [Hsent [Hfailed Hr]]].
    exists s0', r. repeat (split; [assumption|]). exact Hr.
Qed.

(** X13: when the first look at the page finds the popup of an invalid
    number and the popup is dismissed, the call raises
    [ContactNotFoundError] for the number at once, in the session the
    dismissal left. *)
Theorem invalid_number_is_reported
  phone caption image_path timeout s b1 loc rest b2 el els s3 :
  (0 < timeout)%Z ->
  driver_get (send_url phone) (page s) = (b1, Return tt) ->
  lookup "invalid_phone_popup" SELECTORS = Some (loc :: rest) ->
  find_elements loc b1 = (b2, Return (el :: els)) ->
  _dismiss_popup {| page := b2; done := done s ++ [Navigate (send_url phone)] |} =
    (s3, Return tt) ->
  WhatsAppSender.send_whatsapp_message phone caption image_path timeout s =
    (s3, Raise (not_on_whatsapp phone)).
Proof.
  intros Ht Hg Hl Hf Hd.
  unfold WhatsAppSender.send_whatsapp_message. apply wbind_raises.
  unfold open_chat. eapply wbind_returns.
  { unfold acting. rewrite Hg. reflexivity. }
  apply wbind_raises.
  destruct (Z.to_nat (timeout * 2)) as [|n] eqn:En; [lia|].
  cbn [wait_for_chat]. apply wbind_raises.
  unfold check_popup, wtry, selectors_of. rewrite Hl.
  assert (E : (selectors <- wret (loc :: rest) ;; popup_loop phone selectors)
                {| page := b1; done := done s ++ [Navigate (send_url phone)] |}
              = (s3, Raise (not_on_whatsapp phone))).
  { eapply wbind_returns; [reflexivity|]. cbn [popup_loop].
    eapply wbind_returns.
    { unfold looking. cbn [page done]. rewrite Hf. reflexivity. }
    cbn iota. eapply wbind_returns; [exact Hd|]. reflexivity. }
  rewrite E. reflexivity.
Qed.

(** X14: [is_whatsapp_connected] never raises and does nothing to the
    page; it returns [True] exactly when both lookups return and neither
    finds an element. *)
Theorem is_whatsapp_connected_never_raises s :
  exists s' connected,
    WhatsAppSender.is_whatsapp_connected s = (s', Return connected) /\
    done s' = done s /\
    (connected = true <->
     exists b1 b2,
       find_elements qr_code (page s) = (b1, Return []) /\
       find_elements phone_not_connected b1 = (b2, Return [])).
Proof.
  unfold WhatsAppSender.is_whatsapp_connected, wtry, wbind, looking, wret.
  destruct (find_elements qr_code (page s)) as [b1 [qr|e1]] eqn:E1; cbn [page done].
  - destruct (find_elements phone_not_connected b1) as [b2 [dis|e2]] eqn:E2.
    + eexists. eexists. split; [reflexivity|]. split; [reflexivity|].
      split.
      * intros H. apply andb_prop in H. destruct H as [H1 H2].
        destruct qr; [|discriminate]. destruct dis; [|discriminate].
        exists b1, b2. now split.
      * intros [c1 [c2 [H1 H2]]]. inversion H1; subst.
        rewrite E2 in H2. inversion H2; subst. reflexivity.
    + eexists. eexists. split; [reflexivity|]. split; [reflexivity|].
      split; [discriminate|].
      intros [c1 [c2 [H1 H2]]]. inversion H1; subst.
      rewrite E2 in H2. discriminate.
  - eexists. eexists. split; [reflexivity|]. split; [reflexivity|].
    split; [discriminate|]. intros [c1 [c2 [H1 _]]]. discriminate.
Qed.

End DeliveryFacts.

(** ** The send orchestrator *)

Section OrchestratorMore.
Context {db : UnicodeDB} {env : Env}.

(** *** The calls of a run *)

Lemma firstn_sorted {A} (R : A -> A -> Prop) (l : list A) : forall n,
  StronglySorted R l -> StronglySorted R (firstn n l).
Proof.
  induction l as [|x l IH]; intros n Hs; [now rewrite firstn_nil|].
  destruct n; [constructor|]. cbn [firstn].
  apply StronglySorted_inv in Hs. destruct Hs as [Hs Hx].
  constructor; [now apply IH|].
  rewrite Forall_forall in Hx |- *. intros y Hy. apply Hx.
  eapply firstn_In; exact Hy.
Qed.

(** X15: the calls of the delivery driver in a run follow the sheet.  The
    contacts called for are the first of the pending contacts fetched for
    the run, in their order and each once, by increasing row; there are no
    more of them than [count] and than the daily limit; and each call is
    given the template filled in with the first name of its contact. *)
Theorem deliveries_follow_the_sheet fuel count delay state0 on_progress s s' r :
  run_send_loop fuel count delay state0 on_progress s = Some (s', r) ->
  let contacts := get_pending_contacts (Z.min count daily_limit) (sheet env) in
  exists ds,
    deliveries s' = deliveries s ++ ds /\
    map dl_contact ds = firstn (List.length ds) contacts /\
    (Z.of_nat (List.length ds) <= Z.max 0 (Z.min count daily_limit))%Z /\
    StronglySorted Z.lt (map (fun d => row_number (dl_contact d)) ds) /\
    Forall captioned ds.
Proof.
  intros H contacts. apply run_booked in H.
  destruct H as [ds [ws [G1 _ G2 G3 _ _ _ _ _ _]]]. fold contacts in G2.
  exists ds. destruct (start_books (Z.min count daily_limit) state0 s) as [_ [_ [Hd _]]].
  rewrite Hd in G1. split; [exact G1|]. split; [exact G2|]. split; [|split; [|exact G3]].
  - assert (L : (List.length ds <= List.length contacts)%nat).
    { rewrite <- (length_map dl_contact ds), G2, length_firstn. lia. }
    unfold contacts in L. rewrite get_pending_contacts_firstn, length_firstn in L.
    lia.
  - rewrite <- (map_map dl_contact row_number), G2. unfold contacts.
    rewrite get_pending_contacts_firstn, <- !firstn_map.
    apply firstn_sorted, firstn_sorted. apply pending_from_sorted.
Qed.

(** X16: the outcomes a run returns mirror its calls of the delivery
    driver: there is one outcome for each call, in order, with the contact
    of the call, and it says success when the call returned and the call
    of [write_status] after it returned as well; save that the last call
    may have left no outcome.  The shared record holds the same outcomes
    after those it started with, [remaining] is [total] less their number,
    [sent] has gone up by the outcomes that say success, and [failed] by
    the others, and by one more at most for a call that left no outcome.
    In a run in which every call of [write_status] returns, [sent] and
    [failed] together have gone up by the number of calls. *)
Theorem outcomes_mirror_deliveries fuel count delay state0 on_progress s s' r :
  run_send_loop fuel count delay state0 on_progress s = Some (s', r) ->
  exists ds,
    deliveries s' = deliveries s ++ ds /\
    mirrored ds (local_results s') /\
    (List.length (local_results s') <= List.length ds
     <= List.length (local_results s') + 1)%nat /\
    (forall v, r = Return v -> v = local_results s') /\
    results (state s') = results (initial_state state0) ++ local_results s' /\
    remaining (state s') =
      (total (state s') - Z.of_nat (List.length (local_results s')))%Z /\
    sent (state s') =
      (sent (initial_state state0) + successes (local_results s'))%Z /\
    (failed (initial_state state0) + failures (local_results s')
     <= failed (state s')
     <= failed (initial_state state0) + failures (local_results s')
        + (Z.of_nat (List.length ds)
           - Z.of_nat (List.length (local_results s'))))%Z /\
    ((forall u t, values_update env u t = Return tt) ->
     (sent (state s') + failed (state s') =
      sent (initial_state state0) + failed (initial_state state0)
      + Z.of_nat (List.length ds))%Z).
Proof.
  intros H.
  pose proof (run_booked _ _ _ _ _ _ _ _ H)
    as [ds [ws [G1 _ _ _ G4 _ G5 G6 G7 G8]]].
  destruct (start_books (Z.min count daily_limit) state0 s)
    as [_ [_ [Hd [Hr [_ [Hs Hf]]]]]].
  rewrite Hd in G1. rewrite Hr in G5. rewrite Hs in G7. rewrite Hf in G8.
  exists ds. split; [exact G1|]. split; [exact G4|].
  split; [|split; [|split; [exact G5|split; [exact G6|split; [exact G7|split; [exact G8|]]]]]].
  - destruct G4 as [M|[ds' [d [-> M]]]]; apply Forall2_length in M.
    + lia.
    + rewrite length_app. cbn [List.length]. lia.
  - intros v ->. eapply run_returns_local; exact H.
  - intros Hw. destruct (accounted_run Hw _ _ _ _ _ _ _ _ H) as [ds' [A1 [_ [A3 A4]]]].
    rewrite Hd, G1 in A1. apply app_inv_head in A1. subst ds'.
    rewrite A3, A4, Hs, Hf. unfold count_of.
    assert (L : (List.length (filter delivered ds)
                 + List.length (filter (fun d => negb (delivered d)) ds)
                 = List.length ds)%nat).
    { clear. induction ds as [|d ds IH]; [reflexivity|].
      cbn [filter]. destruct (delivered d); cbn [negb List.length]; lia. }
    lia.
Qed.

Lemma sorted_snoc {A} (R : A -> A -> Prop) l a :
  StronglySorted R l -> Forall (fun x => R x a) l -> StronglySorted R (l ++ [a]).
Proof.
  induction l as [|x l IH]; intros Hs Hf; cbn [app].
  - constructor; constructor.
  - apply StronglySorted_inv in Hs. destruct Hs as [Hs Hx].
    apply Forall_inv_tail in Hf as Ht. apply Forall_inv in Hf.
    constructor; [now apply IH|].
    apply Forall_app. split; [exact Hx|]. constructor; [exact Hf|constructor].
Qed.

Lemma paced_later s s' :
  local_results s' = local_results s -> (clock s <= clock s')%nat ->
  paced s -> paced s'.
Proof.
  intros Hl Hc [Hs Hf]. unfold paced. rewrite Hl. split; [exact Hs|].
  eapply Forall_impl; [|exact Hf]. simpl. intros. lia.
Qed.

Lemma paced_idle s s' : idle s s' -> paced s -> paced s'.
Proof.
  intros [[_ [_ [Hl _]]] [_ [_ [_ Hc]]]]. now apply paced_later.
Qed.

Lemma main_loop_paced fuel delay on_progress n contacts : forall i s s' r,
  (i + Z.of_nat (List.length contacts) = n)%Z ->
  paced s -> rested s ->
  main_loop fuel delay on_progress n i contacts s = Some (s', r) ->
  paced s'.
Proof.
  induction contacts as [|c rest IH]; intros i s s' r Hn Hp Hr H; cbn [main_loop] in H.
  - injection H as <- _. exact Hp.
  - assert (K : forall s1 sig,
              iteration fuel delay on_progress n i c s = Some (s1, sig) ->
              paced s1 /\ (sig = Return Next -> rest <> [] -> rested s1)).
    { intros s1 sig E. apply iteration_inv in E.
      destruct E as [[_ [-> I]]|[Hstop [s2 [I2 E]]]].
      - split; [now apply (paced_idle s)|discriminate].
      - destruct Hr as [Hr|Hr]; [congruence|].
        destruct E as [[e [_ [-> ->]]]|[caption [s3 [ra [_ [Ha E]]]]]].
        + split; [now apply (paced_idle s)|discriminate].
        + pose proof (paced_idle _ _ I2 Hp) as P2.
          destruct (attempt_general c caption s2)
            as [sx [rx [ws [Ex [_ [_ [_ [Hl [_ [_ [_ [_ [Hc Hra]]]]]]]]]]]]].
          rewrite Ex in Ha. injection Ha as -> ->.
          assert (P3 : paced s3) by (apply (paced_later s2); [exact Hl|lia|exact P2]).
          destruct I2 as [[_ [_ [Il _]]] [_ [_ [_ Ic]]]].
          destruct ra as [[res|]|e].
          * destruct Hra as [_ [Hra _]]. rewrite <- Hc in Hra.
            destruct E as [R [_ Hrest]].
            destruct R as [Rl [_ [_ [_ [_ [_ [_ [_ [_ Rc]]]]]]]]].
            assert (Hold : Forall (fun x => (timestamp x + 20 <= timestamp res)%nat)
                             (local_results s3)).
            { rewrite Hl, Il. eapply Forall_impl; [|exact Hr]. simpl. intros. lia. }
            split.
            -- destruct P3 as [Ps Pf]. unfold paced. rewrite Rl. split.
               ++ now apply sorted_snoc.
               ++ apply Forall_app. split.
                  ** eapply Forall_impl; [|exact Pf]. simpl. intros. lia.
                  ** constructor; [lia|constructor].
            -- intros -> Hne.
               assert (Hi : (i <? n - 1)%Z = true).
               { apply Z.ltb_lt. destruct rest; [congruence|]. cbn [List.length] in Hn. lia. }
               destruct (Hrest eq_refl Hi) as [G|G]; [now left|right].
               rewrite Rl. apply Forall_app. split.
               ++ eapply Forall_impl; [|exact Hold]. simpl. intros. lia.
               ++ constructor; [lia|constructor].
          * destruct E as [-> ->]. split; [exact P3|discriminate].
          * destruct E as [-> ->]. split; [exact P3|discriminate]. }
    apply bind_inv in H. destruct H as [[s1 [sig [E H]]]|[e [E _]]].
    + destruct (K _ _ E) as [P1 R1]. destruct sig; [|injection H as <- _; exact P1].
      destruct rest as [|c' rest'].
      * injection H as <- _. exact P1.
      * eapply (IH (i + 1)%Z s1); [cbn [List.length] in *; lia|exact P1| |exact H].
        apply R1; [reflexivity|discriminate].
    + now destruct (K _ _ E).
Qed.

(** X17: whatever the delay asked for and whatever the jitter drawn, any
    two outcomes of a run are at least twenty seconds apart, the earlier
    one first. *)
Theorem outcomes_twenty_seconds_apart fuel count delay state0 on_progress s s' r :
  run_send_loop fuel count delay state0 on_progress s = Some (s', r) ->
  StronglySorted apart (local_results s').
Proof.
  unfold run_send_loop.
  destruct (start_books (Z.min count daily_limit) state0 s) as [Hl _].
  revert Hl. generalize (start (Z.min count daily_limit) state0 s). intros s0 Hl.
  assert (Nil : forall x, settled s0 x -> StronglySorted apart (local_results x)).
  { intros x [[_ [_ [Hx _]]] _]. rewrite Hx, Hl. constructor. }
  destruct (IMAGE_PATH env) as [image_path|].
  - destruct (path_exists env image_path); cbn [negb].
    + intros H. unfold guarded_run in H.
      assert (B : forall s2 r2,
                try_finally
                  (try_except (guarded fuel (Z.min count daily_limit) delay on_progress)
                     (fun e => _log (CriticalError (exn_str e)) ;; ret None))
                  finalizer s0 = Some (s2, r2) ->
                StronglySorted apart (local_results s2)).
      { intros s2 r2 E. apply try_finally_inv in E.
        destruct E as [s1 [r1 [G F]]].
        assert (L2 : local_results s2 = local_results s1).
        { destruct F as [[u [F _]]|[e [F _]]];
            apply settled_finalizer in F; now destruct F as [[_ [_ [F _]]] _]. }
        rewrite L2. clear F L2.
        assert (G' : forall sg rg,
                  guarded fuel (Z.min count daily_limit) delay on_progress s0
                    = Some (sg, rg) ->
                  StronglySorted apart (local_results sg)).
        { intros sg rg Hg. apply guarded_inv in Hg.
          destruct Hg as [[Hg _]|[s9 [r10 [_ [_ [_ [F2 [_ [_ [_ [_ E]]]]]]]]]]];
            [now apply Nil|].
          assert (P : paced sg).
          { eapply main_loop_paced; [| | |exact E].
            - lia.
            - unfold paced. rewrite F2, Hl. split; constructor.
            - right. rewrite F2, Hl. constructor. }
          apply P. }
        unfold try_except in G.
        destruct (guarded fuel (Z.min count daily_limit) delay on_progress s0)
          as [[sg [a|e]]|] eqn:Hg; try discriminate.
        - injection G as <- _. eapply G'; reflexivity.
        - unfold bind, _log, modify, ret in G. injection G as <- _.
          cbn [local_results with_state]. eapply G'; reflexivity. }
      apply bind_inv in H. destruct H as [[s2 [early [E H]]]|[e [E _]]].
      * destruct early; injection H as <- _; eapply B; exact E.
      * eapply B; exact E.
    + unfold image_missing, bind, _log, modify, ret. intros [= <- _].
      cbn [local_results with_state]. rewrite Hl. constructor.
  - intros [= <- _]. rewrite Hl. constructor.
Qed.

Lemma wait_while_paused_until fuel : forall s t,
  (clock s <= t)%nat -> (t - clock s <= fuel)%nat ->
  (forall u, (clock s <= u < t)%nat -> pause_requested env u = true) ->
  (forall u, (clock s < u < t)%nat -> stop_requested env u = false) ->
  pause_requested env t = false \/
    ((clock s < t)%nat /\ stop_requested env t = true) ->
  exists s',
    wait_while_paused fuel s = Some (s', Return tt) /\
    clock s' = t /\ still s s'.
Proof.
  induction fuel as [|fuel IH]; intros s t Ht Hfuel Hpause Hstop Hend;
    cbn [wait_while_paused]; unfold bind at 1; unfold read_is_paused;
    cbn [observe with_state state set_flags is_paused].
  - assert (t = clock s) by lia. subst t.
    destruct Hend as [Hend|[Hlt _]]; [|lia]. rewrite Hend.
    eexists. split; [reflexivity|]. split; [reflexivity|apply still_observe].
  - destruct (Nat.eq_dec t (clock s)) as [->|Hne].
    + destruct Hend as [Hend|[Hlt _]]; [|lia]. rewrite Hend.
      eexists. split; [reflexivity|]. split; [reflexivity|apply still_observe].
    + rewrite (Hpause (clock s)) by lia.
      unfold bind at 1. unfold sleep, modify.
      unfold bind at 1. unfold read_should_stop.
      cbn [observe with_state state set_flags should_stop clock].
      destruct (stop_requested env (clock s + 1)) eqn:E.
      * assert (t = clock s + 1)%nat.
        { destruct (Nat.eq_dec t (clock s + 1)); [assumption|].
          rewrite Hstop in E by lia. discriminate. }
        subst t. eexists. split; [reflexivity|]. split; [reflexivity|].
        unfold still. simpl. tauto.
      * match goal with
        | |- context [wait_while_paused fuel ?x] =>
            destruct (IH x t) as [s' [E' [Hc Hs]]]
        end.
        -- simpl. lia.
        -- simpl. lia.
        -- intros u Hu. apply Hpause. simpl in Hu. lia.
        -- intros u Hu. apply Hstop. simpl in Hu. lia.
        -- destruct Hend as [Hend|[Hlt Hend]]; [now left|right].
           split; [|exact Hend]. simpl.
           destruct (Nat.eq_dec t (clock s + 1)); [congruence|lia].
        -- exists s'. split; [exact E'|]. split; [exact Hc|].
           eapply still_trans; [|exact Hs]. unfold still. simpl. tauto.
Qed.

(** X18: a pause holds the loop.  While the pause flag is set the loop
    sleeps a second at a time; it goes on at the first second at which the
    flag is found cleared, or at which a stop is found asked for after a
    sleep; it never raises, and no contact is worked on meanwhile. *)
Theorem pause_holds_the_loop fuel s :
  (forall t,
     (clock s <= t)%nat -> (t - clock s <= fuel)%nat ->
     (forall u, (clock s <= u < t)%nat -> pause_requested env u = true) ->
     (forall u, (clock s < u < t)%nat -> stop_requested env u = false) ->
     pause_requested env t = false \/
       ((clock s < t)%nat /\ stop_requested env t = true) ->
     exists s',
       wait_while_paused fuel s = Some (s', Return tt) /\
       clock s' = t /\ still s s') /\
  (forall s' r,
     wait_while_paused fuel s = Some (s', r) ->
     r = Return tt /\ still s s' /\ (clock s <= clock s')%nat).
Proof.
  split.
  - intros t. apply wait_while_paused_until.
  - intros s' r H. split; [|split].
    + destruct (returns_wait_while_paused _ _ _ _ H) as [[] ->]. reflexivity.
    + eapply still_wait_while_paused; exact H.
    + apply idle_wait_while_paused in H. apply H.
Qed.

Lemma same_deliveries_refl s : same_deliveries s s.
Proof. reflexivity. Qed.

Lemma same_deliveries_trans s1 s2 s3 :
  same_deliveries s1 s2 -> same_deliveries s2 s3 -> same_deliveries s1 s3.
Proof. unfold same_deliveries. congruence. Qed.

Lemma same_deliveries_still {A} (m : M A) : keeps still m -> keeps same_deliveries m.
Proof. intros H s s' r E. apply H in E. apply E. Qed.

Lemma after_attempt_ends delay on_progress n i r : ends (after_attempt delay on_progress n i r).
Proof.
  unfold after_attempt, append_result, inter_message_delay, _log.
  repeat first
    [ apply ends_bind; [|intros ?]
    | apply ends_ret | apply ends_lift | apply ends_gets | apply ends_modify
    | apply ends_read_should_stop | apply ends_delay_loop
    | match goal with
      | |- ends (if ?b then _ else _) => destruct b
      | |- ends (match ?x with _ => _ end) => destruct x
      end ].
Qed.

Lemma after_attempt_deliveries delay on_progress n i r :
  keeps same_deliveries (after_attempt delay on_progress n i r).
Proof.
  unfold after_attempt, append_result.
  repeat first
    [ apply (keeps_bind _ same_deliveries_trans); [|intros ?]
    | apply (keeps_ret _ same_deliveries_refl)
    | apply (keeps_lift _ same_deliveries_refl)
    | apply (keeps_gets _ same_deliveries_refl)
    | apply same_deliveries_still;
      first [ apply still_read_should_stop | apply still_inter_message_delay
            | apply still_delay_loop | apply still_log ]
    | apply keeps_modify; intros ?; reflexivity
    | match goal with
      | |- keeps _ (if ?b then _ else _) => destruct b
      | |- keeps _ (match ?x with _ => _ end) => destruct x
      end ].
Qed.

(** X19: a stop asked for during a pause ends the pause, not the pass:
    when the loop comes to a contact with no stop asked for, is then held
    by a pause, and a stop is asked for at second [t] of the pause, the
    delivery driver is still called for that contact, at second [t]. *)
Theorem stop_while_paused_still_sends fuel delay on_progress n i c s t caption :
  stop_requested env (clock s) = false ->
  (clock s < t)%nat -> (t - clock s <= fuel)%nat ->
  (forall u, (clock s <= u < t)%nat -> pause_requested env u = true) ->
  (forall u, (clock s < u < t)%nat -> stop_requested env u = false) ->
  stop_requested env t = true ->
  format_template env (first_name c) = Return caption ->
  exists s' r,
    iteration fuel delay on_progress n i c s = Some (s', r) /\
    deliveries s' =
      deliveries s ++
        [{| dl_contact := c; dl_caption := caption;
            dl_outcome := fst (send_whatsapp_message env c caption t) |}].
Proof.
  intros Hs0 Ht Hfuel Hpause Hstop Hs Hf.
  destruct (wait_while_paused_until fuel (observe s) t) as [s1 [E1 [Hc1 S1]]];
    try assumption; try (cbn [observe with_state clock]; lia).
  { right. split; [cbn [observe with_state clock]; lia|exact Hs]. }
  set (s3 := with_state (add_log {| ts := clock (with_state (set_current (Some (first_name c)) (Some (phone_raw c))) s1);
                                    text := SendingTo (i + 1) n (first_name c) (phone_raw c) |})
               (with_state (set_current (Some (first_name c)) (Some (phone_raw c))) s1)).
  assert (Hc3 : clock s3 = t) by (unfold s3; cbn [clock with_state]; exact Hc1).
  assert (Hd3 : deliveries s3 = deliveries s).
  { unfold s3. cbn [deliveries with_state]. destruct S1 as [S1 _].
    rewrite S1. reflexivity. }
  assert (Hit : iteration fuel delay on_progress n i c s =
                (r <- attempt c caption ;;
                 after_attempt delay on_progress n i r) s3).
  { unfold iteration. unfold bind at 1. unfold read_should_stop.
    cbn [observe with_state state set_flags should_stop]. rewrite Hs0.
    unfold bind at 1. rewrite E1.
    unfold bind at 1. unfold modify at 1.
    unfold bind at 1. unfold _log at 1. unfold modify at 1.
    unfold bind at 1. unfold lift at 1. rewrite Hf.
    fold s3. reflexivity. }
  destruct (attempt_general c caption s3) as [s4 [ra [ws [E4 [D4 _]]]]].
  unfold delivery_of in D4. rewrite Hc3, Hd3 in D4.
  unfold bind at 1 in Hit. rewrite E4 in Hit.
  destruct ra as [ra|e].
  - pose proof (after_attempt_ends delay on_progress n i ra s4) as E5.
    destruct (after_attempt delay on_progress n i ra s4) as [[s5 r5]|] eqn:E6;
      [|congruence].
    exists s5, r5. split; [exact Hit|].
    apply after_attempt_deliveries in E6. unfold same_deliveries in E6.
    now rewrite E6.
  - exists s4, (Raise e). split; [exact Hit|exact D4].
Qed.

(** X21: when the template cannot be filled in for any name, as when
    [MESSAGE_TEMPLATE] is not set, a run calls the delivery driver for no
    one, writes no status cell and has no outcome. *)
Theorem unformattable_template_sends_nothing fuel count delay state0 on_progress s s' r :
  (forall name, exists e, format_template env name = Raise e) ->
  run_send_loop fuel count delay state0 on_progress s = Some (s', r) ->
  deliveries s' = deliveries s /\
  sheet_updates s' = sheet_updates s /\
  local_results s' = [].
Proof.
  intros Hf H.
  pose proof (run_booked _ _ _ _ _ _ _ _ H) as [ds [ws [G1 G2 _ G3 G4 G5 _ _ _ _]]].
  destruct (start_books (Z.min count daily_limit) state0 s) as [_ [_ [Hd [_ [Hu _]]]]].
  assert (ds = []).
  { destruct ds as [|d ds]; [reflexivity|]. apply Forall_inv in G3.
    unfold captioned in G3. destruct (Hf (first_name (dl_contact d))) as [e He].
    congruence. }
  subst ds.
  assert (ws = []).
  { destruct ws as [|u ws]; [reflexivity|]. apply Forall_inv in G5. destruct G5. }
  subst ws. rewrite app_nil_r in G1, G2.
  split; [congruence|]. split; [congruence|].
  destruct G4 as [G4|[ds' [d [G4 _]]]].
  - inversion G4. reflexivity.
  - destruct ds'; discriminate.
Qed.


(** *** The sheet after a run *)

Lemma filter_filter {A} (f g : A -> bool) l :
  filter f (filter g l) = filter (fun x => g x && f x) l.
Proof.
  induction l as [|x l IH]; [reflexivity|].
  cbn [filter]. destruct (g x); cbn [andb filter]; [|exact IH].
  destruct (f x); now rewrite IH.
Qed.

Lemma all_pending_sheet_after updates : forall all_rows,
  Forall (fun u => blank (status_text (upd_value u)) = false) updates ->
  all_pending (sheet_after updates all_rows) =
  filter (fun c => negb (written updates c)) (all_pending all_rows).
Proof.
  unfold sheet_after.
  induction updates as [|u us IH]; intros all_rows Hv; cbn [fold_left].
  - symmetry. apply filter_id. apply Forall_forall. intros c _. reflexivity.
  - apply Forall_inv_tail in Hv as Hus. apply Forall_inv in Hv.
    rewrite IH by exact Hus. rewrite all_pending_with_status by exact Hv.
    rewrite filter_filter. apply filter_ext. intros c.
    unfold written, other_row. cbn [existsb].
    rewrite negb_orb, (Z.eqb_sym (row_number c)). reflexivity.
Qed.

Lemma status_of_values d :
  Forall (fun u => blank (status_text (upd_value u)) = false /\
                   upd_row u = row_number (dl_contact d)) (status_of d).
Proof.
  unfold status_of. destruct (dl_outcome d) as [b|e].
  - constructor; [split; reflexivity|constructor].
  - destruct (is_WhatsAppSendError e); [|constructor].
    constructor; [split; reflexivity|constructor].
Qed.

Lemma written_iff ds c :
  written (flat_map status_of ds) c = true <->
  exists d, In d ds /\ status_of d <> [] /\
            row_number (dl_contact d) = row_number c.
Proof.
  unfold written. rewrite existsb_exists. split.
  - intros [u [Hu Hr]]. apply in_flat_map in Hu. destruct Hu as [d [Hd Hu]].
    exists d. split; [exact Hd|]. split.
    + intros E. rewrite E in Hu. destruct Hu.
    + pose proof (status_of_values d) as V. rewrite Forall_forall in V.
      destruct (V u Hu) as [_ V2]. apply Z.eqb_eq in Hr. congruence.
  - intros [d [Hd [Hs Hr]]]. destruct (status_of d) as [|u us] eqn:E; [congruence|].
    exists u. split.
    + apply in_flat_map. exists d. split; [exact Hd|]. rewrite E. now left.
    + pose proof (status_of_values d) as V. rewrite E in V. apply Forall_inv in V.
      apply Z.eqb_eq. destruct V as [_ V]. congruence.
Qed.

Lemma sorted_injective {A} (f : A -> Z) l :
  StronglySorted Z.lt (map f l) ->
  forall x y, In x l -> In y l -> f x = f y -> x = y.
Proof.
  induction l as [|a l IH]; intros Hs x y Hx Hy E; [destruct Hx|].
  cbn [map] in Hs. apply StronglySorted_inv in Hs. destruct Hs as [Hs Ha].
  rewrite Forall_map, Forall_forall in Ha.
  destruct Hx as [<-|Hx], Hy as [<-|Hy].
  - reflexivity.
  - specialize (Ha _ Hy). lia.
  - specialize (Ha _ Hx). lia.
  - now apply IH.
Qed.

(** X22: what a run leaves for the next one.  Whatever calls of
    [write_status] have reached the sheet, the pending contacts are those
    of before less the rows of those calls, in the same order; so a contact
    for whose row no call has reached the sheet, as when the call raised,
    is fetched again.  In a run in which every call of [write_status]
    returns, the calls that reach the sheet are those the deliveries lead
    to: a contact whose delivery returned or raised a send error is not
    fetched again, and a contact whose delivery raised another error, for
    which no call is made, is still pending. *)
Theorem settled_rows_leave_the_pending_list
  fuel count delay state0 on_progress s s' r limit :
  (forall updates,
     Forall (fun u => exists ok, u = write_status (upd_row u) ok) updates ->
     let after := sheet_after updates (sheet env) in
     all_pending after =
       filter (fun c => negb (written updates c)) (all_pending (sheet env)) /\
     forall c,
       In c (all_pending (sheet env)) -> written updates c = false ->
       In c (all_pending after)) /\
  ((forall u t, values_update env u t = Return tt) ->
   run_send_loop fuel count delay state0 on_progress s = Some (s', r) ->
   exists ds,
     deliveries s' = deliveries s ++ ds /\
     sheet_updates s' = sheet_updates s ++ flat_map status_of ds /\
     let after := sheet_after (flat_map status_of ds) (sheet env) in
     all_pending after =
       filter (fun c => negb (written (flat_map status_of ds) c))
         (all_pending (sheet env)) /\
     get_pending_contacts limit after =
       firstn (Z.to_nat limit)
         (filter (fun c => negb (written (flat_map status_of ds) c))
            (all_pending (sheet env))) /\
     Forall (fun d =>
       match status_of d with
       | [] => In (dl_contact d) (all_pending after)
       | _ :: _ =>
           Forall (fun c => row_number c <> row_number (dl_contact d))
             (all_pending after)
       end) ds).
Proof.
  split.
  { intros updates Hup after.
    assert (E : all_pending after =
                filter (fun c => negb (written updates c)) (all_pending (sheet env))).
    { apply all_pending_sheet_after. eapply Forall_impl; [|exact Hup].
      cbn beta. intros u [ok ->]. now destruct ok. }
    split; [exact E|]. intros c Hc Hw. rewrite E. apply filter_In.
    split; [exact Hc|]. now rewrite Hw. }
  intros Hw H.
  destruct (accounted_run Hw _ _ _ _ _ _ _ _ H) as [ds [A1 [A2 _]]].
  pose proof (run_booked _ _ _ _ _ _ _ _ H) as [ds' [ws' [G1 _ G2 _ _ _ _ _ _ _]]].
  destruct (start_books (Z.min count daily_limit) state0 s) as [_ [_ [Hd [_ [Hu _]]]]].
  rewrite Hd in A1, G1. rewrite Hu in A2.
  rewrite A1 in G1. apply app_inv_head in G1. subst ds'.
  exists ds. split; [exact A1|]. split; [exact A2|]. intros after.
  assert (E : all_pending after =
              filter (fun c => negb (written (flat_map status_of ds) c))
                (all_pending (sheet env))).
  { apply all_pending_sheet_after. apply Forall_forall. intros u Hu'.
    apply in_flat_map in Hu'. destruct Hu' as [d [_ Hu']].
    pose proof (status_of_values d) as V. rewrite Forall_forall in V.
    now destruct (V u Hu'). }
  split; [exact E|]. split; [rewrite get_pending_contacts_firstn, E; reflexivity|].
  assert (Sorted : StronglySorted Z.lt (map (fun d => row_number (dl_contact d)) ds)).
  { rewrite <- (map_map dl_contact row_number), G2.
    rewrite get_pending_contacts_firstn, <- !firstn_map.
    apply firstn_sorted, firstn_sorted. apply pending_from_sorted. }
  apply Forall_forall. intros d Hd'.
  destruct (status_of d) as [|u us] eqn:Es.
  - rewrite E. apply filter_In. split.
    + assert (Hin : In (dl_contact d) (map dl_contact ds)) by now apply in_map.
      rewrite G2 in Hin. apply firstn_In in Hin.
      rewrite get_pending_contacts_firstn in Hin. now apply firstn_In in Hin.
    + destruct (written (flat_map status_of ds) (dl_contact d)) eqn:W; [|reflexivity].
      apply written_iff in W. destruct W as [d' [Hd'' [Hs Hr]]].
      assert (d' = d) by (eapply sorted_injective; eassumption).
      subst d'. congruence.
  - rewrite E. apply Forall_forall. intros c Hc. apply filter_In in Hc.
    destruct Hc as [_ Hc]. apply negb_true_iff in Hc. intros Hr.
    assert (W : written (flat_map status_of ds) c = true).
    { apply written_iff. exists d. split; [exact Hd'|]. split; [congruence|now symmetry]. }
    congruence.
Qed.

End OrchestratorMore.

(** ** Runs *)

Local Open Scope string_scope.

(** *** The delivery driver on the pages of the model *)

Lemma showing_errors n shown : @selenium_errors (resolving_after n) (showing n shown).
Proof.
  constructor; intros; try exact I.
  cbn [wait_until resolving_after snd]. destruct (Nat.ltb b n); [reflexivity|exact I].
Qed.

Lemma showing_first_errors n shown :
  @selenium_errors (resolving_first n) (showing_first n shown).
Proof.
  constructor; intros; try exact I.
  cbn [wait_until resolving_first snd]. destruct (Nat.ltb b n); [exact I|reflexivity].
Qed.

(** X9 on a page that shows the chat, the third wait of the driver being
    the first to resolve. *)
Lemma send_whatsapp_message_returns_run :
  exists s',
    @WhatsAppSender.send_whatsapp_message (resolving_after 2) (showing 2 chat_page)
      "15551234567" (py "Hi David") "image.png" 30 (new_session 2) = (s', Return true) /\
    @gone_through (resolving_after 2) (showing 2 chat_page)
      "15551234567" (py "Hi David") "image.png" (new_session 2) s'.
Proof.
  destruct (@WhatsAppSender.send_whatsapp_message (resolving_after 2) (showing 2 chat_page)
              "15551234567" (py "Hi David") "image.png" 30 (new_session 2))
    as [s' [b|e]] eqn:E.
  - destruct (@send_whatsapp_message_returns (resolving_after 2) (showing 2 chat_page)
                _ _ _ _ _ _ _ E) as [-> G].
    exists s'. now split.
  - exfalso. revert E. vm_compute. discriminate.
Defined.

(** X10 on a page that shows the chat, with a driver whose first four
    waits resolve and whose later waits time out: every step is gone
    through, and the check at the end raises its [SendTimeoutError]. *)
Lemma send_errors_of_delivery_run :
  exists s',
    @WhatsAppSender.send_whatsapp_message (resolving_first 4) (showing_first 4 chat_page)
      "15551234567" (py "Hi David") "image.png" 30 (first_session 4)
      = (s', Raise {| exn_class_of := SendTimeoutError;
                      exn_str := "Could not verify message was sent" |}) /\
    @gone_through (resolving_first 4) (showing_first 4 chat_page)
      "15551234567" (py "Hi David") "image.png" (first_session 4) s'.
Proof.
  destruct (@WhatsAppSender.send_whatsapp_message (resolving_first 4)
              (showing_first 4 chat_page)
              "15551234567" (py "Hi David") "image.png" 30 (first_session 4))
    as [s' [b|e]] eqn:E.
  - exfalso. revert E. vm_compute. discriminate.
  - assert (He : e = {| exn_class_of := SendTimeoutError;
                        exn_str := "Could not verify message was sent" |}).
    { revert E. vm_compute. intros [= _ <-]. reflexivity. }
    subst e. exists s'. split; [reflexivity|].
    destruct (@send_errors_of_delivery (resolving_first 4) (showing_first 4 chat_page)
                _ _ _ _ _ _ _ (showing_first_errors 4 chat_page) E eq_refl)
      as [[_ [G|G]]|[G _]]; [discriminate G|discriminate G|exact G].
Defined.

(** X11 on a page that shows nothing, with a bound of one second: the
    chat does not load, and two sleeps of half a second is all that was
    done after the address was asked for. *)
Lemma chat_never_loads_run :
  exists s',
    @WhatsAppSender.send_whatsapp_message (resolving_after 0) (showing 0 blank_page)
      "15551234567" (py "Hi David") "image.png" 1 (new_session 0)
      = (s', Raise (chat_did_not_load "15551234567" 1)) /\
    done s' =
      [ Navigate "https://web.whatsapp.com/send?phone=15551234567";
        Sleep (1 # 2); Sleep (1 # 2) ].
Proof.
  apply (@chat_never_loads (resolving_after 0) (showing 0 blank_page)
           "15551234567" (py "Hi David") "image.png" 1 (new_session 0)).
  - intros loc b. reflexivity.
  - reflexivity.
Defined.

(** X12 on a page that shows the chat, with a driver none of whose first
    five waits resolves; and for the orchestrator, on the first of the
    three contacts, with a delivery that raises that error. *)
Lemma resolver_timeout_is_no_send_error_run :
  let c := {| row_number := 2; sort_name := py "Lauren, David";
              first_name := py "David"; phone_raw := py "+1 347 551-1532";
              phone_clean := py "13475511532" |} in
  exists e s0' res,
    snd (@WhatsAppSender.send_whatsapp_message (resolving_after 5) (showing 5 chat_page)
           "15551234567" (py "Hi David") "image.png" 30 (new_session 5)) = Raise e /\
    e = {| exn_class_of := TimeoutException;
           exn_str :=
             "Message: Could not find clickable element 'attach_button'. "
             ++ "Last error: Message: " ++ nl ++ nl |} /\
    is_WhatsAppSendError e = false /\
    @attempt button_missing c (py "Hi David") empty_sys = Some (s0', Return (Some res)) /\
    sheet_updates s0' = [] /\
    failed (state s0') = 1%Z /\
    success res = false.
Proof.
  intros c.
  destruct (@resolver_timeout_is_no_send_error (resolving_after 5) (showing 5 chat_page)
              "15551234567" (py "Hi David") "image.png" 30 (new_session 5)
              (fst (@open_chat (resolving_after 5) (showing 5 chat_page)
                      "15551234567" 30 (new_session 5)))
              _ 5%nat
              (Some {| exn_class_of := TimeoutException; exn_str := "Message: " ++ nl |})
              eq_refl eq_refl eq_refl)
    as [e [E [Hc [Hs [He Ha]]]]].
  assert (Hval : e = {| exn_class_of := TimeoutException;
                        exn_str :=
                          "Message: Could not find clickable element 'attach_button'. "
                          ++ "Last error: Message: " ++ nl ++ nl |}).
  { destruct e as [cls msg]. cbn [exn_class_of exn_str] in Hc, Hs. now subst. }
  destruct (Ha button_missing c (py "Hi David") 35%nat empty_sys)
    as [s0' [r [Ea [_ [Hu [_ [Hf Hr]]]]]]].
  { rewrite Hval. reflexivity. }
  assert (Hres : exists res, r = Return (Some res) /\ success res = false).
  { destruct Hr as [->|[res [-> [_ Hsucc]]]]; [|now exists res].
    exfalso. revert Ea. vm_compute. discriminate. }
  destruct Hres as [res [-> Hsucc]].
  exists e, s0', res. rewrite E. split; [reflexivity|]. split; [exact Hval|].
  split; [exact He|]. split; [exact Ea|]. split; [exact Hu|]. split; [exact Hf|exact Hsucc].
Defined.

(** X13 on a page that shows the popup. *)
Lemma invalid_number_is_reported_run :
  exists s',
    @WhatsAppSender.send_whatsapp_message (resolving_after 0) (showing 0 popup_page)
      "15551234567" (py "Hi David") "image.png" 30 (new_session 0)
      = (s', Raise (not_on_whatsapp "15551234567")) /\
    done s' =
      [ Navigate "https://web.whatsapp.com/send?phone=15551234567";
        Click ("//div[@role=" ++ q "button" ++ " and .//div[text()=" ++ q "OK" ++ "]]")%string;
        Sleep (1 # 2) ].
Proof.
  eexists. split; [|].
  - eapply (@invalid_number_is_reported (resolving_after 0) (showing 0 popup_page)
              "15551234567" (py "Hi David") "image.png" 30 (new_session 0)
              0%nat _ _ 0%nat _ []).
    + reflexivity.
    + reflexivity.
    + reflexivity.
    + reflexivity.
    + vm_compute. reflexivity.
  - reflexivity.
Defined.

(** *** The resolver and the connector *)

(** X7 for a name the registry does not have. *)
Lemma resolver_errors_run :
  @find_element_with_fallbacks third_resolves "no_such_target" 10 0%nat =
  (0%nat, Raise {| exn_class_of := KeyError; exn_str := "'no_such_target'" |}).
Proof.
  exact (proj1 (@resolver_errors third_resolves presence_of_element_located
                  "no_such_target" 10 0%nat) eq_refl).
Defined.

(** X8 on the machine whose port answers one and a half seconds after the
    start, with a bound of one second: one browser is started, the two
    probes that follow fail, and the launch error is raised after the two
    sleeps. *)
Lemma connector_attaches_to_a_listening_port_run :
  exists h',
    @ensure_chrome_ready slow_start 9222 (Some "chrome") (Some "profile") 1 fresh_host
      = (h', Raise {| exn_class_of := RuntimeError;
                      exn_str :=
                        "Chrome did not start with remote-debugging on port 9222 within 1s.  Check CHROME_PATH in .env." |}) /\
    launched h' =
      [[ "chrome"; "--remote-debugging-port=9222"; "--user-data-dir=profile";
         "--no-first-run"; "--no-default-browser-check" ]] /\
    slept h' = 2%nat.
Proof.
  destruct (@ensure_chrome_ready slow_start 9222 (Some "chrome") (Some "profile") 1
              fresh_host) as [h' r] eqn:E.
  destruct (proj1 (@connector_attaches_to_a_listening_port slow_start 9222
                     (Some "chrome") (Some "profile") fresh_host) 1%Z h' r E)
    as [[_ [H _]]|[_ [[e [_ [H _]]]|[[e [_ [H _]]]|[H1 [_ [_ [_ H2]]]]]]]];
    try discriminate H.
  destruct r as [[]|e].
  - exfalso. revert E. vm_compute. discriminate.
  - destruct H2 as [-> H2]. exists h'. split; [reflexivity|]. split; assumption.
Defined.

(** *** The orchestrator on the three contacts *)

Lemma three_contacts_ends :
  @run_send_loop ascii_db three_contacts 0 5 18 None None empty_sys <> None.
Proof. vm_compute. discriminate. Qed.

(** X15 on the three contacts: the two calls made before the stop are for
    rows 2 and 3, the first two pending contacts. *)
Lemma deliveries_follow_the_sheet_run :
  exists s' r ds,
    @run_send_loop ascii_db three_contacts 0 5 18 None None empty_sys = Some (s', r) /\
    deliveries s' = ds /\
    map dl_contact ds =
      firstn (List.length ds) (@get_pending_contacts ascii_db 5 (sheet three_contacts)) /\
    (Z.of_nat (List.length ds) <= 5)%Z.
Proof.
  destruct (@run_send_loop ascii_db three_contacts 0 5 18 None None empty_sys)
    as [[s' r]|] eqn:E; [|now apply three_contacts_ends in E].
  destruct (@deliveries_follow_the_sheet ascii_db three_contacts _ _ _ _ _ _ _ _ E)
    as [ds [H1 [H2 [H3 _]]]].
  exists s', r, ds. repeat split; assumption.
Defined.

(** X16 on the three contacts: two outcomes for two calls. *)
Lemma outcomes_mirror_deliveries_run :
  exists s' r ds,
    @run_send_loop ascii_db three_contacts 0 5 18 None None empty_sys = Some (s', r) /\
    deliveries s' = ds /\
    @mirrored three_contacts ds (local_results s') /\
    results (state s') = local_results s' /\
    (sent (state s') + failed (state s') = Z.of_nat (List.length ds))%Z.
Proof.
  destruct (@run_send_loop ascii_db three_contacts 0 5 18 None None empty_sys)
    as [[s' r]|] eqn:E; [|now apply three_contacts_ends in E].
  destruct (@outcomes_mirror_deliveries ascii_db three_contacts _ _ _ _ _ _ _ _ E)
    as [ds [H1 [H2 [_ [_ [H4 [_ [_ [_ H6]]]]]]]]].
  exists s', r, ds. split; [reflexivity|]. split; [exact H1|]. split; [exact H2|].
  split; [exact H4|]. exact (H6 (fun _ _ => eq_refl)).
Defined.

(** X17 on the three contacts. *)
Lemma outcomes_twenty_seconds_apart_run :
  exists s' r,
    @run_send_loop ascii_db three_contacts 0 5 18 None None empty_sys = Some (s', r) /\
    StronglySorted apart (local_results s').
Proof.
  destruct (@run_send_loop ascii_db three_contacts 0 5 18 None None empty_sys)
    as [[s' r]|] eqn:E; [|now apply three_contacts_ends in E].
  exists s', r. split; [reflexivity|].
  exact (@outcomes_twenty_seconds_apart ascii_db three_contacts _ _ _ _ _ _ _ _ E).
Defined.

(** X22 on the three contacts: rows 2 and 3 have been written, and row 4
    is the one left pending. *)
Lemma settled_rows_leave_the_pending_list_run :
  exists s' r ds,
    @run_send_loop ascii_db three_contacts 0 5 18 None None empty_sys = Some (s', r) /\
    sheet_updates s' = flat_map status_of ds /\
    map row_number
      (@get_pending_contacts ascii_db 5 (sheet_after (sheet_updates s') (sheet three_contacts)))
    = [4]%Z.
Proof.
  destruct (@run_send_loop ascii_db three_contacts 0 5 18 None None empty_sys)
    as [[s' r]|] eqn:E; [|now apply three_contacts_ends in E].
  destruct (proj2 (@settled_rows_leave_the_pending_list ascii_db three_contacts
                     0%nat 5%Z 18%Z None None empty_sys s' r 5%Z)
              (fun _ _ => eq_refl) E) as [ds [_ [H2 _]]].
  exists s', r, ds. split; [reflexivity|]. split; [exact H2|].
  revert E. vm_compute. intros [= <- _]. reflexivity.
Defined.

(** X19 with the dashboard that pauses the run and asks for a stop at the
    third second: the first contact is still called for, at that
    second. *)
Lemma stop_while_paused_still_sends_run :
  let c := {| row_number := 2; sort_name := py "Lauren, David";
              first_name := py "David"; phone_raw := py "+1 347 551-1532";
              phone_clean := py "13475511532" |} in
  exists s' r,
    @iteration paused_then_stopped 5 18 None 3 0 c empty_sys = Some (s', r) /\
    deliveries s' =
      [{| dl_contact := c; dl_caption := py "Hi David"; dl_outcome := Return true |}].
Proof.
  intros c.
  apply (@stop_while_paused_still_sends paused_then_stopped 5 18 None 3 0 c
           empty_sys 3%nat (py "Hi David")).
  - reflexivity.
  - cbn. lia.
  - cbn. lia.
  - intros u Hu. cbn in Hu. cbn [pause_requested paused_then_stopped].
    apply Nat.ltb_lt. lia.
  - intros u Hu. cbn in Hu. cbn [stop_requested paused_then_stopped].
    apply Nat.leb_gt. lia.
  - reflexivity.
  - reflexivity.
Defined.


(** X21 with no template: nothing is sent for the three contacts. *)
Lemma unformattable_template_sends_nothing_run :
  exists s' r,
    @run_send_loop ascii_db no_template 0 5 18 None None empty_sys = Some (s', r) /\
    deliveries s' = [] /\ sheet_updates s' = [] /\ local_results s' = [].
Proof.
  destruct (@run_send_loop ascii_db no_template 0 5 18 None None empty_sys)
    as [[s' r]|] eqn:E; [|exfalso; revert E; vm_compute; discriminate].
  exists s', r. split; [reflexivity|].
  apply (@unformattable_template_sends_nothing ascii_db no_template _ _ _ _ _ _ _ _
           (fun _ => ex_intro _ _ eq_refl) E).
Defined.

(** X18 with the same dashboard: the loop is held for three seconds. *)
Lemma pause_holds_the_loop_run :
  exists s',
    @wait_while_paused paused_then_stopped 5 empty_sys = Some (s', Return tt) /\
    clock s' = 3%nat /\ @still empty_sys s'.
Proof.
  apply (proj1 (@pause_holds_the_loop paused_then_stopped 5 empty_sys) 3%nat).
  - cbn. lia.
  - cbn. lia.
  - intros u Hu. cbn in Hu. cbn [pause_requested paused_then_stopped].
    apply Nat.ltb_lt. lia.
  - intros u Hu. cbn in Hu. cbn [stop_requested paused_then_stopped].
    apply Nat.leb_gt. lia.
  - left. reflexivity.
Defined.
